(** * GG-Monad: the client-side match lifecycle and settlement engine

    A shallow embedding of the room hook ([src/hooks/useGameRoom.ts]) and of
    the games page ([src/app/games/page.tsx]).  Asynchronous ledger calls are
    sequenced in a state monad whose state is the log of the calls made so
    far; what the ledger answers may depend on the length of that log, so the
    ledger is free to change between two reads of one client (other clients
    write to it concurrently).

    JavaScript numbers are binary64 floats.  Ids, counts, scores and
    timestamps are safe integers ([toNumber] throws beyond them) and are
    kept as [Z].  Entry fees and prize pools reach the page as uint256
    decimal texts and are read with [parseInt]: the prize arithmetic is
    therefore carried out in binary64 (module [F64], rounding to nearest,
    ties to even, on exact fractions) and compared with the machine's
    floats (module [B64]). *)

From Stdlib Require Import ZArith List String Ascii Bool Lia Permutation.
From Stdlib Require Import DecimalString.
From Stdlib Require Import PrimFloat SpecFloat FloatOps Uint63.
From Stdlib Require Import Decimal DecimalPos Sorted.
Import ListNotations.

Open Scope string_scope.
Open Scope Z_scope.

(* ================================================================== *)
(** ** JavaScript built-ins used by the source *)

Module JS.

(** [Number.MAX_SAFE_INTEGER]: [BigNumber.toNumber] of ethers throws above it. *)
Definition MAX_SAFE_INTEGER : Z := 2 ^ 53 - 1.

(** [bn.toNumber()]: [None] stands for the overflow exception. *)
Definition toNumber (bn : Z) : option Z :=
  if (0 <=? bn) && (bn <=? MAX_SAFE_INTEGER) then Some bn else None.

(** [String.prototype.toLowerCase] on ASCII text (addresses are hex text). *)
Definition lower_ascii (c : ascii) : ascii :=
  let n := nat_of_ascii c in
  if (Nat.leb 65 n && Nat.leb n 90)%bool then ascii_of_nat (n + 32) else c.

Fixpoint toLowerCase (s : string) : string :=
  match s with
  | EmptyString => EmptyString
  | String c s' => String (lower_ascii c) (toLowerCase s')
  end.

(** Truthiness of a string: the empty string is falsy. *)
Definition truthy (s : string) : bool :=
  match s with EmptyString => false | String _ _ => true end.

(** [s.includes(sub)]. *)
Fixpoint includes (s sub : string) : bool :=
  String.prefix sub s ||
  match s with
  | EmptyString => false
  | String _ s' => includes s' sub
  end.

(** Template-literal rendering of an integer: [`${n}`]. *)
Definition string_of_Z (n : Z) : string :=
  NilZero.string_of_int (Z.to_int n).

(** [s.substring(a, b)] with [0 <= a <= b]. *)
Definition substring (a b : nat) (s : string) : string :=
  String.substring a (b - a) s.

(** [s.substring(s.length - k)]; a negative start is clamped to 0. *)
Definition substring_from_end (k : nat) (s : string) : string :=
  let n := String.length s in
  String.substring (n - k) (n - (n - k)) s.

Definition is_digit (c : ascii) : bool :=
  let n := nat_of_ascii c in (Nat.leb 48 n && Nat.leb n 57)%bool.

Definition digit_val (c : ascii) : Z := Z.of_nat (nat_of_ascii c - 48).

Fixpoint digits_prefix (s : string) (acc : option Z) : option Z :=
  match s with
  | String c s' =>
      if is_digit c
      then digits_prefix s'
             (Some (10 * match acc with Some a => a | None => 0 end
                    + digit_val c))
      else acc
  | EmptyString => acc
  end.

Definition is_space (c : ascii) : bool :=
  let n := nat_of_ascii c in
  (Nat.eqb n 32 || (Nat.leb 9 n && Nat.leb n 13))%bool.

Fixpoint skip_spaces (s : string) : string :=
  match s with
  | String c s' => if is_space c then skip_spaces s' else s
  | EmptyString => EmptyString
  end.

(** [parseInt(s)] in radix 10: leading blanks, an optional sign, then the
    longest run of decimal digits; [None] is [NaN].  The [0x] prefix of
    the built-in is left out: no caller below passes such a string. *)
Definition parseInt (s : string) : option Z :=
  match skip_spaces s with
  | String "-" s' => option_map Z.opp (digits_prefix s' None)
  | String "+" s' => digits_prefix s' None
  | s' => digits_prefix s' None
  end.

(** [Array.from(new Set(xs))]: first occurrences, in insertion order. *)
Definition set_add (seen : list Z) (x : Z) : list Z :=
  if existsb (Z.eqb x) seen then seen else (seen ++ [x])%list.

Definition array_from_set (xs : list Z) : list Z :=
  fold_left set_add xs [].

(** [new Map(entries)]: a key keeps the position of its first insertion
    and the value of its last one. *)
Fixpoint map_set {V} (m : list (Z * V)) (k : Z) (v : V) : list (Z * V) :=
  match m with
  | [] => [(k, v)]
  | (k', v') :: m' =>
      if k =? k' then (k, v) :: m' else (k', v') :: map_set m' k v
  end.

Definition map_of_entries {V} (es : list (Z * V)) : list (Z * V) :=
  fold_left (fun m e => map_set m (fst e) (snd e)) es [].

Definition map_values {V} (m : list (Z * V)) : list V := map snd m.

(** [Array.prototype.sort(cmp)], with [cmp] already mapping a [NaN]
    result to 0.  The sort is stable; where the comparator is not
    consistent ECMAScript leaves the order to the engine, and the order
    given here is the one V8 produces (array-sort.tq): the leading run is
    taken as it stands, reversed when strictly descending, and the
    remaining elements are placed one by one by binary search.  V8 sorts
    arrays of fewer than 64 elements in exactly this way and merges longer
    ones from several such runs; the page sorts at most 50 rooms. *)
Fixpoint run_end {A} (cmp : A -> A -> Z) (descending : bool) (previous : A)
         (l : list A) : list A * list A :=
  match l with
  | [] => ([], [])
  | current :: l' =>
      let order := cmp current previous in
      if (if descending then order <? 0 else 0 <=? order)
      then let (run, rest) := run_end cmp descending current l' in
           (current :: run, rest)
      else ([], l)
  end.

Definition count_and_make_run {A} (cmp : A -> A -> Z) (l : list A)
  : list A * list A :=
  match l with
  | x0 :: x1 :: l' =>
      let descending := cmp x1 x0 <? 0 in
      let (run, rest) := run_end cmp descending x1 l' in
      let run := x0 :: x1 :: run in
      (if descending then List.rev run else run, rest)
  | _ => (l, [])
  end.

(** The place of [pivot] in the sorted prefix [a]: behind every element
    it does not compare below. *)
Fixpoint binary_search {A} (fuel : nat) (cmp : A -> A -> Z) (pivot : A)
         (a : list A) (left right : nat) : nat :=
  match fuel with
  | O => left
  | S fuel' =>
      if (left <? right)%nat then
        let mid := (left + (right - left) / 2)%nat in
        match nth_error a mid with
        | Some y =>
            if cmp pivot y <? 0
            then binary_search fuel' cmp pivot a left mid
            else binary_search fuel' cmp pivot a (S mid) right
        | None => left
        end
      else left
  end.

Definition binary_insert {A} (cmp : A -> A -> Z) (a : list A) (pivot : A)
  : list A :=
  let left := binary_search (List.length a) cmp pivot a 0 (List.length a) in
  (firstn left a ++ pivot :: skipn left a)%list.

Definition sort {A} (cmp : A -> A -> Z) (l : list A) : list A :=
  let (run, rest) := count_and_make_run cmp l in
  fold_left (binary_insert cmp) rest run.

End JS.

(* ================================================================== *)
(** ** Binary64 evaluation of [Math.floor(n * c)] *)

Module B64.

Definition of_Z (n : Z) : float := PrimFloat.of_uint63 (Uint63.of_Z n).

(** [Math.floor] of a finite float, as an integer. *)
Definition floor (x : float) : option Z :=
  match Prim2SF x with
  | S754_zero _ => Some 0
  | S754_finite s m e =>
      let v := if s then Z.neg m else Z.pos m in
      Some (if 0 <=? e then v * 2 ^ e else v / 2 ^ (- e))
  | _ => None
  end.

(** The literals [0.1] and [0.9] as the doubles JavaScript reads them. *)
Definition c0_1 : float := 0x1.999999999999ap-4%float.
Definition c0_9 : float := 0x1.ccccccccccccdp-1%float.

Definition floor_mul (n : Z) (c : float) : option Z :=
  floor (PrimFloat.mul (of_Z n) c).

(** [Math.floor(n * k / d)], evaluated left to right. *)
Definition floor_mul_div (n k d : Z) : option Z :=
  floor (PrimFloat.div (PrimFloat.mul (of_Z n) (of_Z k)) (of_Z d)).

End B64.

(* ================================================================== *)
(** ** JavaScript numbers: binary64 arithmetic *)

Module F64.

(** A finite binary64 number, kept as the fraction [num / den]; [den] is
    1 or a positive power of two.  Pools are uint256 texts, so every
    magnitude of the prize arithmetic stays far below [2 ^ 1024]: overflow
    to [Infinity] is out of reach and is not modelled. *)
Record t := mk { num : Z; den : Z }.

(** The integer nearest to [p / q] for [0 < q], ties to the even one. *)
Definition rne (p q : Z) : Z :=
  let d := p / q in
  let r := p mod q in
  if 2 * r <? q then d
  else if q <? 2 * r then d + 1
  else if Z.even d then d else d + 1.

(** The binary exponent [e] of [p / q], [2 ^ e <= |p / q| < 2 ^ (e + 1)],
    not below the least normal exponent. *)
Definition binade (p q : Z) : Z :=
  let a := Z.abs p in
  let e := Z.log2 a - Z.log2 q in
  let reached := if 0 <=? e then q * 2 ^ e <=? a else q <=? a * 2 ^ (- e) in
  Z.max (if reached then e else e - 1) (-1022).

(** The binary64 number nearest to [p / q] for [0 < q]: 53 significant
    bits, that is a multiple of [2 ^ (e - 52)]. *)
Definition round (p q : Z) : t :=
  if p =? 0 then mk 0 1
  else
    let e := binade p q in
    if 52 <=? e
    then mk (rne p (q * 2 ^ (e - 52)) * 2 ^ (e - 52)) 1
    else mk (rne (p * 2 ^ (52 - e)) q) (2 ^ (52 - e)).

(** The number an integer becomes: [parseInt] of its decimal text, or a
    numeric literal. *)
Definition of_Z (n : Z) : t := round n 1.

Definition mul (x y : t) : t := round (num x * num y) (den x * den y).

Definition sub (x y : t) : t :=
  round (num x * den y - num y * den x) (den x * den y).

(** [x / y] for [y] other than zero (the source divides by the literal
    100 only). *)
Definition div (x y : t) : t :=
  let q := den x * num y in
  if 0 <? q then round (num x * den y) q else round (- (num x * den y)) (- q).

(** The integer part, rounded down. *)
Definition to_Z (x : t) : Z := num x / den x.

(** [Math.floor(x)]. *)
Definition floor (x : t) : t := mk (to_Z x) 1.

(** The literals [0.1] and [0.9]. *)
Definition c0_1 : t := round 1 10.
Definition c0_9 : t := round 9 10.

(** [x] holds exactly the integer [v]. *)
Definition exact (x : t) (v : Z) : Prop := 0 < den x /\ num x = v * den x.

(** [x] is the value of the machine float [f]. *)
Definition agrees (x : t) (f : float) : bool :=
  match Prim2SF f with
  | S754_zero _ => num x =? 0
  | S754_finite s m e =>
      let v := if s then Z.neg m else Z.pos m in
      if 0 <=? e then num x =? v * 2 ^ e * den x
      else num x * 2 ^ (- e) =? v * den x
  | _ => false
  end.

(** [Number.prototype.toString] for a number whose value is the integer
    [v]: the digits of the shortest decimal that reads back as [v], the
    one closest to [v] among those; below [2 ^ 53] these are the digits of
    [v] itself, from [10 ^ 21] on the exponent form is used. *)
Fixpoint shortest (fuel : nat) (k n v : Z) : Z :=
  match fuel with
  | O => v
  | S fuel' =>
      let u := 10 ^ (n - k) in
      let lo := v / u * u in
      let hi := lo + u in
      let okLo := to_Z (of_Z lo) =? v in
      let okHi := to_Z (of_Z hi) =? v in
      if okLo && okHi then
        if v - lo <? hi - v then lo
        else if hi - v <? v - lo then hi
        else if Z.even (v / u) then lo else hi
      else if okLo then lo
      else if okHi then hi
      else shortest fuel' (k + 1) n v
  end.

Fixpoint strip_zeros (fuel : nat) (s : Z) : Z :=
  match fuel with
  | O => s
  | S fuel' => if s mod 10 =? 0 then strip_zeros fuel' (s / 10) else s
  end.

Definition ndigits (v : Z) : nat := String.length (JS.string_of_Z v).

Definition exponential (w : Z) : string :=
  let n := ndigits w in
  match JS.string_of_Z (strip_zeros n w) with
  | String d EmptyString =>
      (String d EmptyString ++ "e+" ++ JS.string_of_Z (Z.of_nat n - 1))%string
  | String d rest =>
      (String d EmptyString ++ "." ++ rest ++ "e+"
         ++ JS.string_of_Z (Z.of_nat n - 1))%string
  | EmptyString => EmptyString
  end.

Definition toString (v : Z) : string :=
  let a := Z.abs v in
  if a <? 2 ^ 53 then JS.string_of_Z v
  else
    let n := ndigits a in
    let w := shortest n 1 (Z.of_nat n) a in
    let body := if w <? 10 ^ 21 then JS.string_of_Z w else exponential w in
    if v <? 0 then ("-" ++ body)%string else body.

End F64.

(* ================================================================== *)
(** ** The ledger as the client sees it *)

Module Ledger.

Definition address := string.

(** The room struct returned by [gameRoom.rooms(id)].  [entryFee] and
    [prizePool] are the integers whose decimal text the hook hands on
    ([toString()]); [status], [gameType] and [roomType] are small enums
    that ethers returns as plain numbers. *)
Record Room := mkRoom {
  id : Z;
  creator : address;
  entryFee : Z;
  maxPlayers : Z;
  currentPlayers : Z;
  gameType : Z;
  status : Z;
  roomType : Z;
  creationTime : Z;
  expirationTime : Z;
  prizePool : Z;
  winner : address;
  prizeClaimed : bool
}.

(** RoomStatus, as the numeric comments of the source give it. *)
Definition Filling : Z := 0.
Definition Active : Z := 1.
Definition Completed : Z := 2.
Definition Expired : Z := 3.
Definition Canceled : Z := 4.

(** A transaction either is mined or throws, with or without a message. *)
Inductive TxOutcome :=
| Mined
| Thrown (message : option string).

(** The calls a client issues; [CallSubmitScore] and [CallClaimPrize] are
    the mutating ones. *)
Inductive Call :=
| CallRooms (roomId : Z)
| CallGetPlayers (roomId : Z)
| CallGetPlayerRooms (player : address)
| CallSubmitScore (roomId score : Z)
| CallClaimPrize (roomId : Z).

Definition is_submitScore (c : Call) : bool :=
  match c with CallSubmitScore _ _ => true | _ => false end.

(** The contract behind the hook.  The first argument of every operation
    is the number of calls this client has issued before it, so that the
    answers may change over time; a read answering [None] throws.

    Modelled from the spec: [hasSubmitted] is the ledger's own record of
    which roster member has submitted a score for a room (the
    player-in-room fact the ledger owns, §3); no client call reads it. *)
Record Contract := mkContract {
  rooms : nat -> Z -> option Room;
  getPlayers : nat -> Z -> option (list address);
  getPlayerRooms : nat -> address -> option (list Z);
  submitScore : nat -> Z -> Z -> TxOutcome;
  claimPrize : nat -> Z -> TxOutcome;
  hasSubmitted : nat -> Z -> address -> bool
}.

(** Computations that talk to the ledger: the state is the call log,
    oldest call first. *)
Definition M (A : Type) : Type := list Call -> A * list Call.

Definition ret {A} (a : A) : M A := fun log => (a, log).

Definition bind {A B} (m : M A) (k : A -> M B) : M B :=
  fun log => let (a, log') := m log in k a log'.

Definition call {A} (c : Call) (answer : nat -> A) : M A :=
  fun log => (answer (List.length log), (log ++ [c])%list).

Fixpoint mapM {A B} (f : A -> M B) (l : list A) : M (list B) :=
  match l with
  | [] => ret []
  | x :: l' => bind (f x) (fun y => bind (mapM f l') (fun ys => ret (y :: ys)))
  end.

Definition writes (log : list Call) : nat :=
  List.length (filter is_submitScore log).

(** A computation that only reads: whatever it appends to the log holds no
    [submitScore] call. *)
Definition reads_only {A} (m : M A) : Prop :=
  forall log, exists reads,
    snd (m log) = (log ++ reads)%list /\ writes reads = 0%nat.

End Ledger.

Notation "x <- m ;; k" := (Ledger.bind m (fun x => k))
  (at level 61, m at next level, right associativity).

(* ================================================================== *)
(** ** [useGameRoom] *)

Module UseGameRoom.
Import Ledger.

(** The hook's environment: the contract instance ([null] until the
    wallet is ready) and [user?.wallet?.address]. *)
Record Env := mkEnv {
  gameRoom : option Contract;
  userAddress : option address
}.

(** [getRoomDetails]: [null] for a missing contract, an invalid id, a
    failed read or a field that does not fit a JavaScript number. *)
Definition formatRoom (room : Room) : option Room :=
  match JS.toNumber (id room), JS.toNumber (maxPlayers room),
        JS.toNumber (currentPlayers room), JS.toNumber (creationTime room),
        JS.toNumber (expirationTime room) with
  | Some _, Some _, Some _, Some _, Some _ => Some room
  | _, _, _, _, _ => None
  end.

(** The id guard of [getRoomDetails], and [BigNumber.from(roomId)], which
    throws on a number at or beyond the safe range. *)
Definition invalidRoomId (roomId : Z) : bool :=
  (roomId <=? 0) || (JS.MAX_SAFE_INTEGER <=? roomId).

Definition getRoomDetails (env : Env) (roomId : Z) : M (option Room) :=
  match gameRoom env with
  | None => ret None
  | Some g =>
      if invalidRoomId roomId then ret None
      else
        r <- call (CallRooms roomId) (fun t => rooms g t roomId) ;;
        match r with
        | None => ret None
        | Some room => ret (formatRoom room)
        end
  end.

(** One formatted roster entry. *)
Record Player := mkPlayer {
  playerAddress : address;
  score : Z;
  hasSubmittedScore : bool;
  timestamp : Z
}.

(** The body of the [map] callback of [getPlayersInRoom]; [None] is the
    [null] that [filter(Boolean)] drops afterwards. *)
Definition formatPlayer (room : Room) (a : address) : option Player :=
  if negb (JS.truthy a) then None
  else
    Some (mkPlayer a 0
            ((status room =? 2) && JS.truthy (winner room) &&
             String.eqb (JS.toLowerCase (winner room)) (JS.toLowerCase a))
            0).

Fixpoint filter_some {A} (l : list (option A)) : list A :=
  match l with
  | [] => []
  | Some a :: l' => a :: filter_some l'
  | None :: l' => filter_some l'
  end.

Definition getPlayersInRoom (env : Env) (roomId : Z) : M (list Player) :=
  match gameRoom env with
  | None => ret []
  | Some g =>
      ps <- call (CallGetPlayers roomId) (fun t => getPlayers g t roomId) ;;
      match ps with
      | None => ret []
      | Some [] => ret []
      | Some playerAddresses =>
          r <- getRoomDetails env roomId ;;
          match r with
          | None => ret []
          | Some room => ret (filter_some (map (formatPlayer room) playerAddresses))
          end
      end
  end.

(** The object [submitScore] resolves to; an absent flag reads as false. *)
Record SubmitResult := mkSubmitResult {
  success : bool;
  error : option string;
  statusError : bool;
  notPlayerError : bool;
  alreadySubmittedError : bool
}.

Definition failure (msg : string) : SubmitResult :=
  mkSubmitResult false (Some msg) false false false.

Definition statusText (st : Z) : string :=
  if st =? 0 then "Filling"
  else if st =? 2 then "Completed"
  else if st =? 3 then "Expired"
  else if st =? 4 then "Canceled"
  else "unknown".

Definition statusErrorMsg (st : Z) : string :=
  "Room must be in Active status to submit scores. Current status: "
    ++ statusText st.

(** The roster tests of [submitScore]; [me] is the lower-cased address of
    the user, absent or empty when no wallet is connected. *)
Definition currentUser (env : Env) : option address :=
  option_map JS.toLowerCase (userAddress env).

Definition user_truthy (me : option address) : bool :=
  match me with Some a => JS.truthy a | None => false end.

Definition is_me (me : option address) (p : Player) : bool :=
  match me with
  | Some a => JS.truthy (playerAddress p) &&
              String.eqb (JS.toLowerCase (playerAddress p)) a
  | None => false
  end.

Definition isPlayer (me : option address) (players : list Player) : bool :=
  user_truthy me && existsb (is_me me) players.

Definition hasSubmittedIn (me : option address) (players : list Player) : bool :=
  user_truthy me &&
  existsb (fun p => is_me me p && hasSubmittedScore p) players.

(** The [catch] block of [submitScore]. *)
Definition submitScoreCatch (message : option string) : SubmitResult :=
  match message with
  | Some m =>
      if negb (JS.truthy m) then failure "Failed to submit score"
      else if JS.includes m "room not active"
      then failure "Room must be in Active status to submit scores"
      else if JS.includes m "not a player"
      then failure "You are not a player in this room"
      else if JS.includes m "already submitted"
      then failure "You have already submitted a score for this room"
      else if JS.includes m "room not found"
      then failure "Room not found or has been deleted"
      else failure m
  | None => failure "Failed to submit score"
  end.

Definition submitScore (env : Env) (roomId score : Z) : M SubmitResult :=
  match gameRoom env with
  | None => ret (failure "Game room contract not initialized")
  | Some g =>
      r <- getRoomDetails env roomId ;;
      match r with
      | None => ret (failure "Room not found or has been deleted")
      | Some room =>
          if negb (status room =? 1)
          then ret (mkSubmitResult false (Some (statusErrorMsg (status room)))
                      true false false)
          else
            players <- getPlayersInRoom env roomId ;;
            let me := currentUser env in
            if negb (isPlayer me players)
            then ret (mkSubmitResult false
                        (Some "You are not a player in this room")
                        false true false)
            else if hasSubmittedIn me players
            then ret (mkSubmitResult false
                        (Some "You have already submitted a score for this room")
                        false false true)
            else
              tx <- call (CallSubmitScore roomId score)
                      (fun t => Ledger.submitScore g t roomId score) ;;
              match tx with
              | Mined => ret (mkSubmitResult true None false false false)
              | Thrown message => ret (submitScoreCatch message)
              end
      end
  end.

(** [claimPrize]. *)
Definition claimPrize (env : Env) (roomId : Z) : M bool :=
  match gameRoom env with
  | None => ret false
  | Some g =>
      tx <- call (CallClaimPrize roomId) (fun t => Ledger.claimPrize g t roomId) ;;
      match tx with
      | Mined => ret true
      | Thrown _ => ret false
      end
  end.

(** [rooms.map(r => r.toNumber())]: one overflow throws for the whole map. *)
Fixpoint toNumbers (l : list Z) : option (list Z) :=
  match l with
  | [] => Some []
  | x :: l' =>
      match JS.toNumber x, toNumbers l' with
      | Some n, Some ns => Some (n :: ns)
      | _, _ => None
      end
  end.

(** [address || user?.wallet?.address]. *)
Definition addressOrUser (env : Env) (addr : option address) : option address :=
  match addr with
  | Some a => if JS.truthy a then Some a else userAddress env
  | None => userAddress env
  end.

(** [getUserRooms(address)]. *)
Definition getUserRooms (env : Env) (addr : option address) : M (list Z) :=
  match gameRoom env with
  | None => ret []
  | Some g =>
      match addressOrUser env addr with
      | None => ret []
      | Some a =>
          if negb (JS.truthy a) then ret []
          else
            rs <- call (CallGetPlayerRooms a) (fun t => getPlayerRooms g t a) ;;
            match rs with
            | None => ret []
            | Some rooms =>
                match toNumbers rooms with
                | None => ret []
                | Some rawRoomIds =>
                    let validRoomIds := filter (fun i => 0 <? i) rawRoomIds in
                    ret (JS.array_from_set validRoomIds)
                end
            end
      end
  end.

End UseGameRoom.

(* ================================================================== *)
(** ** The games page *)

Module GamesPage.
Import Ledger UseGameRoom.

(** *** Room list *)

(** [formatTimeAgo(timestamp)], with [now = Math.floor(Date.now() / 1000)]. *)
Definition formatTimeAgo (now timestamp : Z) : string :=
  let diff := now - timestamp in
  if diff <? 60 then "just now"
  else if diff <? 3600 then (JS.string_of_Z (diff / 60) ++ " min ago")%string
  else if diff <? 86400 then (JS.string_of_Z (diff / 3600) ++ " hours ago")%string
  else (JS.string_of_Z (diff / 86400) ++ " days ago")%string.

(** One entry of the room browser. *)
Record RoomSummary := mkSummary {
  sid : Z;
  game : string;
  entry : Z;
  players : string;
  time : string;
  type : string
}.

Definition summarize (now : Z) (room : Room) : option RoomSummary :=
  if id room =? 0 then None
  else
    Some (mkSummary (id room)
            (if gameType room =? 0 then "FLAPPY BIRD" else "AI CHALLENGE")
            (Ledger.entryFee room)
            (JS.string_of_Z (currentPlayers room) ++ "/"
               ++ JS.string_of_Z (maxPlayers room))%string
            (formatTimeAgo now (creationTime room))
            (if roomType room =? 0 then "PUBLIC" else "PRIVATE")).

(** [batchResults.filter(...).map(...).filter(...)]. *)
Definition validRooms (now : Z) (batchResults : list (option Room))
  : list RoomSummary :=
  filter_some
    (map (summarize now)
       (filter (fun room => status room =? 0) (filter_some batchResults))).

Definition totalRooms : nat := 50.
Definition batchSize : nat := 5.

(** [Array.from({ length: totalRooms }, (_, i) => i + 1)]. *)
Definition roomIds : list Z := map (fun i => Z.of_nat i + 1) (seq 0 totalRooms).

(** The batch loop; [fuel] bounds the iterations and one per id is more
    than the loop ever takes. *)
Fixpoint loadBatches (env : Env) (now : Z) (fuel i : nat)
         (fillingRooms : list RoomSummary) : M (list RoomSummary) :=
  match fuel with
  | O => ret fillingRooms
  | S fuel' =>
      if (i <? List.length roomIds)%nat then
        let batch := firstn batchSize (skipn i roomIds) in
        batchResults <- mapM (getRoomDetails env) batch ;;
        loadBatches env now fuel' (i + batchSize)
          (fillingRooms ++ validRooms now batchResults)%list
      else ret fillingRooms
  end.

(** The comparator handed to [uniqueRooms.sort]. *)
Definition byTime (a b : RoomSummary) : Z :=
  match JS.parseInt (time a), JS.parseInt (time b) with
  | Some aTime, Some bTime => bTime - aTime
  | _, _ => 0
  end.

(** [loadActiveRooms]: the list handed to [setActiveRooms]. *)
Definition loadActiveRooms (env : Env) (now : Z) : M (list RoomSummary) :=
  fillingRooms <- loadBatches env now (List.length roomIds) 0 [] ;;
  let uniqueRooms :=
    JS.map_values
      (JS.map_of_entries (map (fun room => (sid room, room)) fillingRooms)) in
  ret (JS.sort byTime uniqueRooms).

(** A summary made from a room that some read of the ledger reported as
    Filling. *)
Definition listed_from_filling (env : Env) (now : Z) (s : RoomSummary) : Prop :=
  exists g t i room,
    gameRoom env = Some g /\ rooms g t i = Some room /\
    status room = Filling /\ summarize now room = Some s.

(** *** Prize arithmetic *)

(** What a call site shows: the pool, the platform's cut, the winner's part. *)
Record Prize := mkPrize {
  grossPool : Z;
  commission : Z;
  netPrize : Z
}.

Definition commissionRate : Z := 10.

(** [Math.floor(n * 0.1)] and [Math.floor(n * 0.9)]. *)
Definition floor_tenth (n : F64.t) : F64.t := F64.floor (F64.mul n F64.c0_1).
Definition floor_nine_tenths (n : F64.t) : F64.t :=
  F64.floor (F64.mul n F64.c0_9).

(** [checkGameResult], the winner's branch; [prizePool] is the integer
    whose decimal text [room.prizePool] holds. *)
Definition checkGameResult_prize (prizePool : Z) : Prize :=
  let prizePool := F64.of_Z prizePool in
  let commissionAmount :=
    F64.floor (F64.div (F64.mul prizePool (F64.of_Z commissionRate))
                 (F64.of_Z 100)) in
  let prizePoolAfterCommission := F64.sub prizePool commissionAmount in
  let finalPrizeAmount := prizePoolAfterCommission in
  mkPrize (F64.to_Z prizePool) (F64.to_Z commissionAmount)
    (F64.to_Z finalPrizeAmount).

(** [handleClaimPrize]. *)
Definition handleClaimPrize_prize (prizePool : Z) : Prize :=
  let prizePool := F64.of_Z prizePool in
  let commissionAmount :=
    F64.floor (F64.div (F64.mul prizePool (F64.of_Z commissionRate))
                 (F64.of_Z 100)) in
  let prizePoolAfterCommission := F64.sub prizePool commissionAmount in
  let expectedPrize := prizePoolAfterCommission in
  mkPrize (F64.to_Z prizePool) (F64.to_Z commissionAmount)
    (F64.to_Z expectedPrize).

(** The session the page keeps for the room on display. *)
Record Session := mkSession {
  roomId : option Z;
  entryFee : Z;
  maxPlayers : Z;
  sessionGameType : Z;
  sessionPlayers : Z;
  isCreator : bool;
  sessionStatus : Z
}.

(** The "Prize Breakdown" block under the result message; each of its
    three lines tests [entryFee && maxPlayers] and shows 0 otherwise (the
    fee is a decimal text, always truthy). *)
Definition breakdown_prize (gameSessionData : option Session) : Prize :=
  match gameSessionData with
  | Some s =>
      if maxPlayers s =? 0 then mkPrize 0 0 0
      else
        let pool := F64.mul (F64.of_Z (entryFee s)) (F64.of_Z (maxPlayers s)) in
        mkPrize (F64.to_Z pool)
                (F64.to_Z (floor_tenth pool))
                (F64.to_Z (floor_nine_tenths pool))
  | None => mkPrize 0 0 0
  end.

(** The [RoomDetails] component shown before the game. *)
Definition RoomDetails_prize (room : Session) : Prize :=
  let entryFee := F64.of_Z (entryFee room) in
  let maxPlayers := F64.of_Z (maxPlayers room) in
  let totalPrizePool := F64.mul entryFee maxPlayers in
  let commissionAmount := floor_tenth totalPrizePool in
  let prizePoolAfterCommission := F64.sub totalPrizePool commissionAmount in
  let winnerPrize := prizePoolAfterCommission in
  mkPrize (F64.to_Z totalPrizePool) (F64.to_Z commissionAmount)
    (F64.to_Z winnerPrize).

(** The same figures evaluated with the machine's floats. *)
Definition checkGameResult_b64 (prizePool : Z) : option Prize :=
  match B64.floor_mul_div prizePool commissionRate 100 with
  | Some c => Some (mkPrize prizePool c (prizePool - c))
  | None => None
  end.

Definition breakdown_b64 (fee players : Z) : option Prize :=
  match B64.floor_mul (fee * players) B64.c0_1,
        B64.floor_mul (fee * players) B64.c0_9 with
  | Some c, Some n => Some (mkPrize (fee * players) c n)
  | _, _ => None
  end.

(** *** Page state *)

Inductive NType := n_success | n_error | n_info.

Record Notification := mkNotification {
  ntype : NType;
  message : string
}.

Record GameResult := mkGameResult {
  won : bool;
  resultMessage : string;
  winnings : option string
}.

(** A running [setInterval] loop: its handle and the room it polls. *)
Record Interval := mkInterval {
  handle : nat;
  watched : Z
}.

(** The React state the handlers touch, with the browser's table of live
    intervals.  [notifications] keeps every [setNotification], newest
    last; [resultChecks] counts the runs of [checkGameResult] that got
    past its guard. *)
Record Page := mkPage {
  gameSessionData : option Session;
  gameScore : option Z;
  hasPlayedInRoom : bool;
  gameResult : option GameResult;
  notifications : list Notification;
  intervals : list Interval;
  nextHandle : nat;
  resultChecks : nat
}.

Definition setGameSessionData (v : option Session) (pg : Page) : Page :=
  mkPage v (gameScore pg) (hasPlayedInRoom pg) (gameResult pg)
    (notifications pg) (intervals pg) (nextHandle pg) (resultChecks pg).

Definition setGameScore (v : option Z) (pg : Page) : Page :=
  mkPage (gameSessionData pg) v (hasPlayedInRoom pg) (gameResult pg)
    (notifications pg) (intervals pg) (nextHandle pg) (resultChecks pg).

Definition setHasPlayedInRoom (v : bool) (pg : Page) : Page :=
  mkPage (gameSessionData pg) (gameScore pg) v (gameResult pg)
    (notifications pg) (intervals pg) (nextHandle pg) (resultChecks pg).

Definition setGameResult (v : GameResult) (pg : Page) : Page :=
  mkPage (gameSessionData pg) (gameScore pg) (hasPlayedInRoom pg) (Some v)
    (notifications pg) (intervals pg) (nextHandle pg) (resultChecks pg).

Definition setNotification (t : NType) (m : string) (pg : Page) : Page :=
  mkPage (gameSessionData pg) (gameScore pg) (hasPlayedInRoom pg)
    (gameResult pg) (notifications pg ++ [mkNotification t m])%list
    (intervals pg) (nextHandle pg) (resultChecks pg).

Definition countResultCheck (pg : Page) : Page :=
  mkPage (gameSessionData pg) (gameScore pg) (hasPlayedInRoom pg)
    (gameResult pg) (notifications pg) (intervals pg) (nextHandle pg)
    (S (resultChecks pg)).

(** [setInterval(callback, 5000)] for the poll of [room]: a fresh handle,
    nothing else in the table is touched. *)
Definition setInterval (room : Z) (pg : Page) : Page :=
  mkPage (gameSessionData pg) (gameScore pg) (hasPlayedInRoom pg)
    (gameResult pg) (notifications pg)
    (intervals pg ++ [mkInterval (nextHandle pg) room])%list
    (S (nextHandle pg)) (resultChecks pg).

(** [clearInterval(h)]. *)
Definition clearInterval (h : nat) (pg : Page) : Page :=
  mkPage (gameSessionData pg) (gameScore pg) (hasPlayedInRoom pg)
    (gameResult pg) (notifications pg)
    (filter (fun i => negb (Nat.eqb (handle i) h)) (intervals pg))
    (nextHandle pg) (resultChecks pg).

(** [checkGameResult(room)]. *)
Definition checkGameResult (env : Env) (room : Room) (pg : Page) : Page :=
  if negb (status room =? 2) then pg
  else
    let pg := countResultCheck pg in
    let me := currentUser env in
    let isWinner :=
      user_truthy me && JS.truthy (winner room) &&
      match me with
      | Some a => String.eqb (JS.toLowerCase (winner room)) a
      | None => false
      end in
    if isWinner then
      let finalPrizeAmount := netPrize (checkGameResult_prize (prizePool room)) in
      let pg :=
        setGameResult
          (mkGameResult true "Congratulations! You won with the highest score!"
             (Some (F64.toString finalPrizeAmount))) pg in
      if prizeClaimed room
      then setNotification n_info
             "You have already claimed your prize for this room." pg
      else setNotification n_success
             ("You won! Claim your prize of "
                ++ F64.toString finalPrizeAmount ++ " points.")%string pg
    else
      let pg :=
        setGameResult
          (mkGameResult false "Game completed. You did not win this round."
             None) pg in
      if JS.truthy (winner room)
      then setNotification n_info
             ("The winner is " ++ JS.substring 0 6 (winner room) ++ "..."
                ++ JS.substring_from_end 4 (winner room))%string pg
      else setNotification n_info "This game has been completed." pg.

(** The callback of the completion poll started by [handleGameOver];
    a cleared interval no longer fires. *)
Definition watcherTick (env : Env) (h : nat) (pg : Page) : M Page :=
  match find (fun i => Nat.eqb (handle i) h) (intervals pg) with
  | None => ret pg
  | Some i =>
      refreshedRoom <- getRoomDetails env (watched i) ;;
      match refreshedRoom with
      | Some room =>
          if status room =? 2
          then ret (clearInterval h (checkGameResult env room pg))
          else ret pg
      | None => ret pg
      end
  end.

(** The two-minute [setTimeout] that ends a poll. *)
Definition watcherTimeout (h : nat) (pg : Page) : Page := clearInterval h pg.

Definition truthy_id (r : option Z) : option Z :=
  match r with
  | Some n => if n =? 0 then None else Some n
  | None => None
  end.

(** The branch of [handleGameOver] taken when [submitScore] fails. *)
Definition submissionFailed (result : SubmitResult) (pg : Page) : Page :=
  let pg :=
    if statusError result
    then setNotification n_error
           ("Cannot submit score - "
              ++ match error result with Some e => e | None => "undefined" end)%string pg
    else if notPlayerError result
    then setNotification n_error
           "You are not registered as a player in this room. Please join the room first." pg
    else if alreadySubmittedError result
    then setHasPlayedInRoom true
           (setNotification n_error
              "You have already submitted a score for this room." pg)
    else setNotification n_error
           match error result with
           | Some e => if JS.truthy e then e
                       else "Error submitting score. Please try again."
           | None => "Error submitting score. Please try again."
           end pg in
  if negb (alreadySubmittedError result)
  then setHasPlayedInRoom false pg
  else pg.

(** [handleGameOver(score)]. *)
Definition handleGameOver (env : Env) (score : Z) (pg0 : Page) : M Page :=
  let pg := setGameScore (Some score) pg0 in
  match gameSessionData pg0 with
  | None => ret pg
  | Some session =>
      match truthy_id (roomId session) with
      | None => ret pg
      | Some room =>
          let pg := setNotification n_info "Submitting your score... Please wait" pg in
          if negb (sessionStatus session =? 1) then
            if sessionStatus session =? 0
            then ret (setNotification n_error
                        "Cannot submit score - Room must be in Active status (currently in Filling status). A room becomes Active when it reaches its player limit." pg)
            else ret (setNotification n_error
                        ("Cannot submit score - Room is not in Active status. Current status: "
                           ++ JS.string_of_Z (sessionStatus session))%string pg)
          else
            result <- submitScore env room score ;;
            if success result then
              let pg := setHasPlayedInRoom true pg in
              let pg :=
                setNotification n_success
                  ("Score of " ++ JS.string_of_Z score
                     ++ " submitted successfully! Waiting for other players to submit their scores.")%string
                  pg in
              updatedRoom <- getRoomDetails env room ;;
              match updatedRoom with
              | None => ret pg
              | Some updated =>
                  let pg :=
                    setGameSessionData
                      (Some (mkSession (roomId session) (entryFee session)
                               (maxPlayers session) (sessionGameType session)
                               (sessionPlayers session) (isCreator session)
                               (status updated))) pg in
                  roster <- getPlayersInRoom env room ;;
                  let allSubmitted := forallb hasSubmittedScore roster in
                  let pg :=
                    if allSubmitted
                    then setNotification n_info
                           "All players have submitted scores. The winner will be determined soon." pg
                    else pg in
                  if status updated =? 2
                  then ret (checkGameResult env updated pg)
                  else ret (setInterval room pg)
              end
            else ret (submissionFailed result pg)
      end
  end.

(** [handleClaimPrize(roomId)] with the wallet connected: the figure it
    announces and the claim it sends. *)
Definition handleClaimPrize (env : Env) (room : Z) (pg : Page) : M Page :=
  let pg := setNotification n_info "Claiming your prize... Please wait" pg in
  r <- getRoomDetails env room ;;
  match r with
  | None => ret (setNotification n_error "Room not found" pg)
  | Some details =>
      let expectedPrize := netPrize (handleClaimPrize_prize (prizePool details)) in
      ok <- claimPrize env room ;;
      if ok : bool then
        let pg :=
          setNotification n_success
            ("Prize of " ++ F64.toString expectedPrize
               ++ " points claimed successfully!")%string pg in
        updatedRoom <- getRoomDetails env room ;;
        match updatedRoom with
        | Some _ =>
            ret (setGameResult
                   (mkGameResult true "You won this game and claimed your prize!"
                      (Some (F64.toString expectedPrize))) pg)
        | None => ret pg
        end
      else ret (setNotification n_error "Failed to claim prize. Please try again." pg)
  end.

End GamesPage.

(* ================================================================== *)
(** ** The submission gate as the specification words it *)

Module Gate.
Import Ledger UseGameRoom.

Inductive Reason := StatusError | NotPlayerError | AlreadySubmittedError.

(** The three preconditions in the order the gate must test them; [None]
    when all of them hold. *)
Definition firstFailingPrecondition
           (roomStatus : Z) (isMember hasSubmitted : bool) : option Reason :=
  if negb (roomStatus =? Active) then Some StatusError
  else if negb isMember then Some NotPlayerError
  else if hasSubmitted then Some AlreadySubmittedError
  else None.

(** The tagged reason carried by a result of [submitScore]; [None] for a
    success and for a failure without a tag. *)
Definition reasonOf (r : SubmitResult) : option Reason :=
  if success r then None
  else if statusError r then Some StatusError
  else if notPlayerError r then Some NotPlayerError
  else if alreadySubmittedError r then Some AlreadySubmittedError
  else None.

(** The results [submitScore] can produce: at most one tag is set. *)
Inductive submit_shape : SubmitResult -> Prop :=
| shape_accepted : submit_shape (mkSubmitResult true None false false false)
| shape_untagged m : submit_shape (failure m)
| shape_status m : submit_shape (mkSubmitResult false (Some m) true false false)
| shape_not_player m :
    submit_shape (mkSubmitResult false (Some m) false true false)
| shape_already m :
    submit_shape (mkSubmitResult false (Some m) false false true).

End Gate.

(* ================================================================== *)
(** ** Concrete ledgers and sessions used by the examples *)

Module Scenario.
Import Ledger UseGameRoom GamesPage.

Definition alice : address := "0xA11CE00000000000000000000000000000000001".
Definition bob : address := "0xB0B0000000000000000000000000000000000002".
Definition carol : address := "0xCA50100000000000000000000000000000000003".
Definition nobody : address := "0x0000000000000000000000000000000000000000".

Definition now : Z := 1700000000.

Definition room_of (i fee players joined st created : Z) (w : address) : Room :=
  mkRoom i alice fee players joined 0 st 0 created (created + 3600)
    (fee * joined) w false.

(** A ledger whose reads are given and whose transactions are all mined. *)
Definition contract_of
           (rs : nat -> Z -> option Room)
           (ps : nat -> Z -> option (list address))
           (done : nat -> Z -> address -> bool) : Contract :=
  mkContract rs ps (fun _ _ => Some []) (fun _ _ _ => Mined)
    (fun _ _ => Mined) done.

Definition only_room (r : Room) (i : Z) : option Room :=
  if i =? id r then Some r else None.

(** Room 1 for two players, one of them joined: still filling. *)
Definition filling_room : Room := room_of 1 50 2 1 Filling (now - 600) nobody.

Definition env_filling : Env :=
  mkEnv (Some (contract_of (fun _ => only_room filling_room)
                 (fun _ _ => Some [alice]) (fun _ _ _ => false)))
        (Some alice).

(** Room 1 active with alice and bob on the roster; alice has submitted. *)
Definition active_room : Room := room_of 1 50 2 2 Active (now - 600) nobody.

Definition contract_active : Contract :=
  contract_of (fun _ => only_room active_room)
    (fun _ _ => Some [alice; bob])
    (fun _ _ a => String.eqb a alice).

Definition env_active (user : address) : Env :=
  mkEnv (Some contract_active) (Some user).

(** The same room when the roster read throws. *)
Definition env_roster_down : Env :=
  mkEnv (Some (contract_of (fun _ => only_room active_room)
                 (fun _ _ => None) (fun _ _ _ => false)))
        (Some alice).

(** The room completes, alice winning, between the first read of the gate
    and the reads of the roster resolver. *)
Definition completed_room : Room := room_of 1 50 2 2 Completed (now - 600) alice.

Definition env_completing : Env :=
  mkEnv (Some (contract_of
                 (fun t => only_room (if (t <? 1)%nat then active_room
                                      else completed_room))
                 (fun _ _ => Some [alice; bob])
                 (fun t _ _ => negb (t <? 1)%nat)))
        (Some alice).

(** Room 1 for three players.  Alice and bob play from one browser, one
    wallet after the other; carol submits later from elsewhere and wins.
    The room is active during the 14 calls of the two submissions and
    completed afterwards. *)
Definition trio_active : Room := room_of 1 50 3 3 Active (now - 600) nobody.
Definition trio_completed : Room := room_of 1 50 3 3 Completed (now - 600) carol.

Definition contract_trio : Contract :=
  contract_of
    (fun t => only_room (if (t <? 14)%nat then trio_active else trio_completed))
    (fun _ _ => Some [alice; bob; carol])
    (fun t _ a => (if String.eqb a alice then (3 <? t)%nat
                   else if String.eqb a bob then (10 <? t)%nat
                   else (13 <? t)%nat)).

Definition env_trio (user : address) : Env :=
  mkEnv (Some contract_trio) (Some user).

Definition session_trio : Session := mkSession (Some 1) 50 3 0 3 false Active.

Definition page0 : Page := mkPage None None false None [] [] 0 0.

Definition page_trio : Page := setGameSessionData (Some session_trio) page0.

(** The two submissions from one browser, then a tick of each of the two
    polls once the room has completed. *)
Definition two_submissions : Page * list Call :=
  let (pg1, log1) := handleGameOver (env_trio alice) 120 page_trio [] in
  handleGameOver (env_trio bob) 90 pg1 log1.

Definition two_ticks : Page * list Call :=
  let (pg2, log2) := two_submissions in
  let (pg3, log3) := watcherTick (env_trio bob) 0 pg2 log2 in
  watcherTick (env_trio bob) 1 pg3 log3.

(** Two open rooms: room 1 created ten minutes ago, room 2 five minutes
    ago; every other id makes the read throw. *)
Definition older_room : Room := room_of 1 50 2 1 Filling (now - 600) nobody.
Definition newer_room : Room := room_of 2 50 2 1 Filling (now - 300) nobody.

Definition env_two_rooms : Env :=
  mkEnv (Some (contract_of
                 (fun _ i => if i =? 1 then Some older_room
                             else if i =? 2 then Some newer_room else None)
                 (fun _ _ => Some [alice]) (fun _ _ _ => false)))
        (Some alice).

(** A player whose room list holds zeros and repetitions. *)
Definition env_rooms_raw (answer : option (list Z)) : Env :=
  mkEnv (Some (mkContract (fun _ _ => None) (fun _ _ => None)
                 (fun _ _ => answer) (fun _ _ _ => Mined)
                 (fun _ _ => Mined) (fun _ _ _ => false)))
        (Some alice).

(** A session for a room of three at an entry fee of 25 points. *)
Definition session_75 : Session := mkSession (Some 1) 25 3 0 3 false Completed.

End Scenario.

(* ================================================================== *)
(** ** The rest of the games page: loading a room, starting, resetting *)

Module Lobby.
Import Ledger UseGameRoom GamesPage.

(** The page state of [GamesPage] with the two fields the handlers below
    add to it: the game on screen and the room on screen. *)
Record View := mkView {
  page : Page;
  activeGame : option string;
  activeRoomId : option Z
}.

Definition onPage (f : Page -> Page) (v : View) : View :=
  mkView (f (page v)) (activeGame v) (activeRoomId v).

Definition notify (t : NType) (m : string) (v : View) : View :=
  onPage (setNotification t m) v.

Definition setActiveGame (g : option string) (v : View) : View :=
  mkView (page v) g (activeRoomId v).

Definition setActiveRoomId (r : option Z) (v : View) : View :=
  mkView (page v) (activeGame v) r.

(** [setGameResult(null)]. *)
Definition clearGameResult (pg : Page) : Page :=
  mkPage (gameSessionData pg) (gameScore pg) (hasPlayedInRoom pg) None
    (notifications pg) (intervals pg) (nextHandle pg) (resultChecks pg).

(** The double quote, for the one message that carries it. *)
Definition dquote : string := String (ascii_of_nat 34) EmptyString.

(** [`(${room.currentPlayers}/${room.maxPlayers} players)`]. *)
Definition occupancy (room : Room) : string :=
  ("(" ++ JS.string_of_Z (currentPlayers room) ++ "/"
     ++ JS.string_of_Z (Ledger.maxPlayers room) ++ " players)")%string.

(** [isCreator] as [loadRoomDetails] and [handleJoinRoom] compute it. *)
Definition isCreatorOf (me : option address) (room : Room) : bool :=
  user_truthy me && JS.truthy (creator room) &&
  match me with
  | Some a => String.eqb (JS.toLowerCase (creator room)) a
  | None => false
  end.

(** The Filling branch of [loadRoomDetails]. *)
Definition loadFilling (me : option address) (room : Room)
           (playersData : list Player) (v : View) : View :=
  if currentPlayers room <? Ledger.maxPlayers room then
    if isCreatorOf me room then
      notify n_info
        ("This room is not full yet " ++ occupancy room
           ++ ". According to the contract rules, rooms must be full before scores can be submitted. Invite more players to join or wait for the room to fill up.")%string
        (onPage (setHasPlayedInRoom false) v)
    else if existsb (is_me me) playersData then
      notify n_info
        ("You've joined this room, but it isn't full yet " ++ occupancy room
           ++ ". According to contract rules, all players can only submit scores once the room is full and Active.")%string
        (onPage (setHasPlayedInRoom false) v)
    else
      notify n_info
        ("You need to join this room first. Click " ++ dquote ++ "Join Room"
           ++ dquote ++ " below.")%string v
  else
    notify n_info
      ("The room is full " ++ occupancy room
         ++ " but not yet Active. This might be a temporary state delay. Try again in a moment.")%string
      v.

(** The Active branch of [loadRoomDetails]. *)
Definition loadActive (me : option address) (room : Room)
           (playersData : list Player) (v : View) : View :=
  let playerHasSubmittedScore := hasSubmittedIn me playersData in
  let userIsPlayer := isCreatorOf me room || existsb (is_me me) playersData in
  if negb userIsPlayer then
    notify n_info
      "You are not a player in this room. The room is already active and not accepting new players."
      (onPage (setHasPlayedInRoom true) v)
  else if playerHasSubmittedScore then
    let v :=
      notify n_info
        "You've already submitted a score for this room. Waiting for other players to submit their scores."
        (onPage (setHasPlayedInRoom true) v) in
    if forallb hasSubmittedScore playersData
    then notify n_info
           "All players have submitted scores. The winner will be determined soon." v
    else v
  else
    notify n_info "This room is active and ready for play! Submit your score now."
      (onPage (setHasPlayedInRoom false) v).

(** The status branches of [loadRoomDetails]; a status outside the five
    known ones changes nothing. *)
Definition loadStatus (env : Env) (room : Room) (playersData : list Player)
           (v : View) : View :=
  let me := currentUser env in
  if status room =? 0 then loadFilling me room playersData v
  else if status room =? 1 then loadActive me room playersData v
  else if status room =? 2
  then onPage (checkGameResult env room) (onPage (setHasPlayedInRoom true) v)
  else if status room =? 3
  then notify n_info "This room has expired."
         (onPage (setHasPlayedInRoom true) v)
  else if status room =? 4
  then notify n_info "This room has been canceled."
         (onPage (setHasPlayedInRoom true) v)
  else v.

(** The end of [loadRoomDetails]: the room is stored as the session and
    its game is put on screen. *)
Definition storeRoom (env : Env) (room : Room) (v : View) : View :=
  let v :=
    onPage (setGameSessionData
              (Some (mkSession (Some (id room)) (Ledger.entryFee room)
                       (Ledger.maxPlayers room) (gameType room)
                       (currentPlayers room)
                       (isCreatorOf (currentUser env) room)
                       (status room)))) v in
  if gameType room =? 0 then setActiveGame (Some "flappy-bird") v
  else if gameType room =? 1 then setActiveGame (Some "ai-challenge") v
  else notify n_error
         ("Unknown game type (" ++ JS.string_of_Z (gameType room) ++ ")")%string
         v.

(** [loadRoomDetails(roomId)]. *)
Definition loadRoomDetails (env : Env) (roomId : Z) (v : View) : M View :=
  if roomId <=? 0 then ret (notify n_error "Invalid room ID provided" v)
  else
    r <- getRoomDetails env roomId ;;
    match r with
    | None =>
        ret (notify n_error
               ("Room #" ++ JS.string_of_Z roomId
                  ++ " not found or has been deleted")%string v)
    | Some room =>
        playersData <- getPlayersInRoom env roomId ;;
        ret (storeRoom env room (loadStatus env room playersData v))
    end.

(** [handleGameStart()]. *)
Definition handleGameStart (walletConnected : bool) (v : View) : View :=
  if negb walletConnected
  then notify n_error "Please connect your wallet to play a game" v
  else if hasPlayedInRoom (page v)
  then notify n_error
         "You have already played in this room! Each player can only play once per room."
         v
  else
    match activeGame v with
    | Some g =>
        if String.eqb g "flappy-bird"
        then onPage clearGameResult (onPage (setGameScore None) v)
        else v
    | None => v
    end.

(** [resetGameSession()]; the navigation it may trigger is not state. *)
Definition resetGameSession (v : View) : View :=
  let v := setActiveRoomId None (setActiveGame None v) in
  onPage clearGameResult
    (onPage (setHasPlayedInRoom false)
       (onPage (setGameScore None)
          (onPage (setGameSessionData None) v))).

(** A text at which [parseInt] stops reading digits: the empty text, or
    one whose first character is no digit. *)
Definition stops (s : string) : Prop :=
  match s with
  | EmptyString => True
  | String c _ => JS.is_digit c = false
  end.

(** The number [parseInt] reads off the age text of a room summary; 0
    stands in for [NaN]. *)
Definition shownAge (s : RoomSummary) : Z :=
  match JS.parseInt (time s) with
  | Some n => n
  | None => 0
  end.

(** The claim transactions in a call log. *)
Definition is_claimPrize (c : Call) : bool :=
  match c with CallClaimPrize _ => true | _ => false end.

Definition claimsSent (log : list Call) : nat :=
  List.length (filter is_claimPrize log).

End Lobby.

(* ================================================================== *)
(** ** [useGameRoom]: joining, creating, activating and cancelling *)

Module RoomActions.
Import Ledger UseGameRoom.

(** The remaining operations of the contract, logged apart from the calls
    of [Ledger]. *)
Inductive Op :=
| OpPointsManager
| OpBalanceOf (who : address)
| OpJoinRoom (roomId : Z) (inviteCode : string)
| OpCreateRoom (entryFee maxPlayers gameType roomType : Z)
               (inviteCode : string) (expirationTime : Z)
| OpActivateRoom (roomId : Z)
| OpCancelRoom (roomId : Z).

Definition is_transaction (o : Op) : bool :=
  match o with
  | OpPointsManager | OpBalanceOf _ => false
  | _ => true
  end.

(** What [createRoom] gets back: a mined transaction with the room id of
    its [RoomCreated] event, if there is one, or an exception. *)
Inductive CreateOutcome :=
| Created (roomId : option Z)
| CreateThrown.

(** The answers to those operations; the first argument counts all the
    calls the client has issued before.  [bigNumberFrom] is
    [ethers.BigNumber.from] on a string, [None] when it throws. *)
Record Actions := mkActions {
  pointsManager : nat -> bool;
  balanceOf : nat -> address -> option Z;
  joinRoomTx : nat -> Z -> string -> TxOutcome;
  createRoomTx : nat -> Z -> Z -> Z -> Z -> string -> Z -> CreateOutcome;
  activateRoomTx : nat -> Z -> TxOutcome;
  cancelRoomTx : nat -> Z -> TxOutcome;
  bigNumberFrom : string -> option Z
}.

(** The state of a computation: the log of [Ledger] and the log of the
    operations above. *)
Definition Logs : Type := list Call * list Op.

Definition MX (A : Type) : Type := Logs -> A * Logs.

Definition retX {A} (a : A) : MX A := fun logs => (a, logs).

Definition bindX {A B} (m : MX A) (k : A -> MX B) : MX B :=
  fun logs => let (a, logs') := m logs in k a logs'.

Definition lift {A} (m : M A) : MX A :=
  fun logs => let (a, log') := m (fst logs) in (a, (log', snd logs)).

Definition op {A} (o : Op) (answer : nat -> A) : MX A :=
  fun logs =>
    (answer (List.length (fst logs) + List.length (snd logs))%nat,
     (fst logs, (snd logs ++ [o])%list)).

Definition transactions (ops : list Op) : nat :=
  List.length (filter is_transaction ops).

(** The object [joinRoom] resolves to. *)
Record JoinResult := mkJoinResult {
  joined : bool;
  joinError : option string;
  insufficientBalance : bool
}.

Definition joinFailure (msg : string) : JoinResult :=
  mkJoinResult false (Some msg) false.

(** The [catch] block of [joinRoom]. *)
Definition joinRoomCatch (message : option string) : JoinResult :=
  match message with
  | Some m =>
      if negb (JS.truthy m) then joinFailure "Failed to join room"
      else if JS.includes m "insufficient funds" ||
              JS.includes m "exceeds balance" ||
              JS.includes m "ERC20: transfer amount exceeds balance"
      then mkJoinResult false
             (Some "Insufficient balance. You don't have enough points to join this room.")
             true
      else if JS.includes m "room is full"
      then joinFailure "This room is already full."
      else if JS.includes m "invalid invite code"
      then joinFailure "Invalid invite code for this private room."
      else if JS.includes m "already joined"
      then joinFailure "You have already joined this room."
      else if JS.includes m "room not found"
      then joinFailure "Room not found or has been deleted."
      else if JS.includes m "room expired"
      then joinFailure "This room has expired."
      else if JS.includes m "room canceled"
      then joinFailure "This room has been canceled."
      else if JS.includes m "room completed"
      then joinFailure "This room has already been completed."
      else joinFailure m
  | None => joinFailure "Failed to join room"
  end.

(** The balance check of [joinRoom]: [None] when it cannot be made (a call
    throws, or no wallet address), in which case the join goes ahead. *)
Definition readBalance (env : Env) (a : Actions) : MX (option Z) :=
  bindX (op OpPointsManager (pointsManager a)) (fun ok =>
  if ok : bool then
    match userAddress env with
    | Some who => op (OpBalanceOf who) (fun t => balanceOf a t who)
    | None => retX None
    end
  else retX None).

(** The refresh of the user's rooms after a mined transaction. *)
Definition refreshUserRooms (env : Env) : MX unit :=
  match userAddress env with
  | Some who =>
      if JS.truthy who
      then bindX (lift (getUserRooms env (Some who))) (fun _ => retX tt)
      else retX tt
  | None => retX tt
  end.

(** [joinRoom(roomId, inviteCode)]. *)
Definition joinRoom (env : Env) (a : Actions) (roomId : Z) (inviteCode : string)
  : MX JoinResult :=
  match gameRoom env with
  | None => retX (joinFailure "Game room contract not initialized")
  | Some _ =>
      bindX (lift (getRoomDetails env roomId)) (fun roomDetails =>
      match roomDetails with
      | None => retX (joinFailure "Room not found or has been deleted")
      | Some room =>
          bindX (readBalance env a) (fun userBalance =>
          let short :=
            match userBalance with
            | Some b => b <? Ledger.entryFee room
            | None => false
            end in
          if short then
            retX (mkJoinResult false
                    (Some ("Insufficient balance. You need "
                             ++ JS.string_of_Z (Ledger.entryFee room)
                             ++ " points to join this room, but you only have "
                             ++ JS.string_of_Z
                                  match userBalance with Some b => b | None => 0 end
                             ++ " points.")%string)
                    true)
          else
            bindX (op (OpJoinRoom roomId inviteCode)
                      (fun t => joinRoomTx a t roomId inviteCode)) (fun tx =>
            match tx with
            | Mined =>
                bindX (refreshUserRooms env) (fun _ =>
                retX (mkJoinResult true None false))
            | Thrown message => retX (joinRoomCatch message)
            end))
      end)
  end.

(** [createRoom(entryFee, maxPlayers, gameType, roomType, inviteCode,
    expirationTime)]; a [NaN] among the numbers makes the contract call
    throw before anything is sent. *)
Definition createRoom (env : Env) (a : Actions) (entryFee : string)
           (maxPlayers : option Z) (gameType roomType : Z)
           (inviteCode : string) (expirationTime : option Z) : MX (option Z) :=
  match gameRoom env with
  | None => retX None
  | Some _ =>
      match bigNumberFrom a entryFee, maxPlayers, expirationTime with
      | Some entryFeeAmount, Some players, Some expiry =>
          bindX (op (OpCreateRoom entryFeeAmount players gameType roomType
                       inviteCode expiry)
                    (fun t => createRoomTx a t entryFeeAmount players gameType
                                roomType inviteCode expiry)) (fun tx =>
          match tx with
          | Created (Some bn) =>
              match JS.toNumber bn with
              | Some roomId =>
                  bindX (refreshUserRooms env) (fun _ => retX (Some roomId))
              | None => retX None
              end
          | Created None => retX None
          | CreateThrown => retX None
          end)
      | _, _, _ => retX None
      end
  end.

(** [activateRoom(roomId)]. *)
Definition activateRoom (env : Env) (a : Actions) (roomId : Z) : MX bool :=
  match gameRoom env with
  | None => retX false
  | Some _ =>
      bindX (lift (getRoomDetails env roomId)) (fun r =>
      match r with
      | None => retX false
      | Some room =>
          if negb (status room =? 0) then retX true
          else
            bindX (op (OpActivateRoom roomId)
                      (fun t => activateRoomTx a t roomId)) (fun tx =>
            match tx with
            | Mined => retX true
            | Thrown (Some m) =>
                retX (JS.truthy m &&
                      (JS.includes m "method not found" ||
                       JS.includes m "is not a function" ||
                       JS.includes m "undefined method"))
            | Thrown None => retX false
            end)
      end)
  end.

(** [cancelRoom(roomId)]. *)
Definition cancelRoom (env : Env) (a : Actions) (roomId : Z) : MX bool :=
  match gameRoom env with
  | None => retX false
  | Some _ =>
      bindX (op (OpCancelRoom roomId) (fun t => cancelRoomTx a t roomId))
            (fun tx =>
      match tx with
      | Mined => retX true
      | Thrown _ => retX false
      end)
  end.

End RoomActions.

(* ================================================================== *)
(** ** The games page: joining and creating a room *)

Module LobbyActions.
Import Ledger UseGameRoom GamesPage Lobby RoomActions.

(** The room creation form. *)
Record RoomSettings := mkRoomSettings {
  formEntryFee : string;
  formMaxPlayers : string;
  formGameType : string;
  formRoomType : string;
  formInviteCode : string;
  formExpirationTime : string
}.

(** [handleJoinRoom(roomId, inviteCode)].  [loadRoomDetails] is started
    last and runs to its end here.  The hint shown three seconds after an
    insufficient balance and the balance refresh of the points context are
    not part of this state. *)
Definition handleJoinRoom (env : Env) (a : Actions) (walletConnected : bool)
           (roomId : Z) (inviteCode : string) (v : View) : MX View :=
  if negb walletConnected
  then retX (notify n_error "Please connect your wallet to join a room" v)
  else
    bindX (lift (getRoomDetails env roomId)) (fun r =>
    match r with
    | None => retX (notify n_error "Room not found or has been deleted" v)
    | Some room =>
        if Ledger.maxPlayers room <=? currentPlayers room
        then retX (notify n_error "This room is already full" v)
        else if status room =? 2
        then retX (notify n_error "This game room has already been completed" v)
        else
          let me := currentUser env in
          bindX (lift (getPlayersInRoom env roomId)) (fun players =>
          if isCreatorOf me room || isPlayer me players then
            bindX (lift (loadRoomDetails env roomId v)) (fun v =>
            retX (setActiveRoomId (Some roomId) v))
          else
            let v := notify n_info "Joining room... Please wait" v in
            bindX (joinRoom env a roomId inviteCode) (fun result =>
            if joined result then
              let v := notify n_success "Joined room successfully!" v in
              bindX (lift (loadRoomDetails env roomId v)) (fun v =>
              retX (setActiveRoomId (Some roomId) v))
            else if insufficientBalance result
            then retX (notify n_error
                         "Insufficient balance. You need more points to join this room."
                         v)
            else retX (notify n_error
                         match joinError result with
                         | Some e => if JS.truthy e then e
                                     else "Failed to join room. Please try again."
                         | None => "Failed to join room. Please try again."
                         end v)))
    end).

(** [handleCreateRoom(e)]: the view and whether the form was cleared and
    the dialog closed. *)
Definition handleCreateRoom (env : Env) (a : Actions) (walletConnected : bool)
           (roomSettings : RoomSettings) (v : View) : MX (View * bool) :=
  if negb walletConnected
  then retX (notify n_error "Please connect your wallet to create a room" v, false)
  else if negb (JS.truthy (formEntryFee roomSettings)) ||
          negb (JS.truthy (formMaxPlayers roomSettings)) ||
          negb (JS.truthy (formGameType roomSettings))
  then retX (notify n_error "Please fill in all required fields" v, false)
  else if String.eqb (formRoomType roomSettings) "private" &&
          negb (JS.truthy (formInviteCode roomSettings))
  then retX (notify n_error "Private rooms require an invite code" v, false)
  else
    let gameTypeValue :=
      if String.eqb (formGameType roomSettings) "FlappyBird" then 0 else 1 in
    let roomTypeValue :=
      if String.eqb (formRoomType roomSettings) "public" then 0 else 1 in
    let v := notify n_info "Creating your game room... Please wait" v in
    bindX (createRoom env a (formEntryFee roomSettings)
             (JS.parseInt (formMaxPlayers roomSettings))
             gameTypeValue roomTypeValue (formInviteCode roomSettings)
             (JS.parseInt (formExpirationTime roomSettings))) (fun newRoomId =>
    match truthy_id newRoomId with
    | Some room =>
        let v :=
          notify n_success
            ("Room #" ++ JS.string_of_Z room
               ++ " created successfully! Note: According to the contract, rooms will only become Active and allow score submission once they reach the maximum number of players ("
               ++ match JS.parseInt (formMaxPlayers roomSettings) with
                  | Some n => JS.string_of_Z n
                  | None => "NaN"
                  end
               ++ "). The winner is determined only after all players have submitted their scores.")%string
            v in
        bindX (lift (loadRoomDetails env room v)) (fun v => retX (v, true))
    | None =>
        retX (notify n_error "Failed to create room. Please try again." v, false)
    end).

End LobbyActions.

(* ================================================================== *)
(** ** Further concrete ledgers *)

Module Cases.
Import Ledger UseGameRoom GamesPage Lobby RoomActions LobbyActions.

(** The active room of [Scenario] on a ledger that refuses every score
    with the given message. *)
Definition env_refusing (message : option string) : Env :=
  mkEnv (Some (mkContract (fun _ => Scenario.only_room Scenario.active_room)
                 (fun _ _ => Some [Scenario.alice; Scenario.bob])
                 (fun _ _ => Some [])
                 (fun _ _ _ => Thrown message)
                 (fun _ _ => Thrown None)
                 (fun _ _ _ => false)))
        (Some Scenario.alice).

(** The same ledger once it holds alice's score: its record says so and
    it refuses a second score from her. *)
Definition env_alice_submitted : Env :=
  mkEnv (Some (mkContract (fun _ => Scenario.only_room Scenario.active_room)
                 (fun _ _ => Some [Scenario.alice; Scenario.bob])
                 (fun _ _ => Some [])
                 (fun _ _ _ => Thrown (Some "execution reverted: Score already submitted"))
                 (fun _ _ => Thrown None)
                 (fun _ _ a => String.eqb a Scenario.alice)))
        (Some Scenario.alice).

Definition session_active : Session := mkSession (Some 1) 50 2 0 2 false Active.

Definition page_active : Page :=
  setGameSessionData (Some session_active) Scenario.page0.

(** A roster with an empty address and a repeated one. *)
Definition env_ragged_roster : Env :=
  mkEnv (Some (Scenario.contract_of
                 (fun _ => Scenario.only_room Scenario.active_room)
                 (fun _ _ => Some [Scenario.alice; ""; Scenario.bob; Scenario.alice])
                 (fun _ _ _ => false)))
        (Some Scenario.alice).

Definition view0 : View := mkView Scenario.page0 None None.

(** The room of [Scenario.filling_room] once it has filled up. *)
Definition env_filling_then_active : Env :=
  mkEnv (Some (Scenario.contract_of
                 (fun t => Scenario.only_room
                             (if (t <? 3)%nat then Scenario.filling_room
                              else Scenario.active_room))
                 (fun _ _ => Some [Scenario.alice; Scenario.bob])
                 (fun _ _ _ => false)))
        (Some Scenario.alice).

(** Answers for the remaining operations: a balance, and every
    transaction mined. *)
Definition actions_with_balance (b : option Z) : Actions :=
  mkActions (fun _ => true) (fun _ _ => b) (fun _ _ _ => Mined)
    (fun _ _ _ _ _ _ _ => Created (Some 7)) (fun _ _ => Mined)
    (fun _ _ => Mined) (fun s => JS.parseInt s).

(** Bob looks at the filling room that alice created. *)
Definition env_bob_filling : Env :=
  mkEnv (Some (Scenario.contract_of
                 (fun _ => Scenario.only_room Scenario.filling_room)
                 (fun _ _ => Some [Scenario.alice]) (fun _ _ _ => false)))
        (Some Scenario.bob).

End Cases.

(* ================================================================== *)
(** * Properties *)

Import Ledger UseGameRoom GamesPage.

(* ------------------------------------------------------------------ *)
(** ** Prize arithmetic *)

(** *** Rounding *)

Lemma rne_mul_exact m q : 0 < q -> F64.rne (m * q) q = m.
Proof.
  intros Hq. unfold F64.rne.
  rewrite Z.div_mul, Z.mod_mul by lia.
  destruct (Z.ltb_spec (2 * 0) q); [reflexivity | lia].
Qed.

Lemma rne_lower p q : 0 < q -> p / q <= F64.rne p q.
Proof.
  intros Hq. unfold F64.rne.
  repeat match goal with |- context [if ?b then _ else _] => destruct b end; lia.
Qed.

(** [rne] gives a nearest integer. *)
Lemma rne_nearest p q : 0 < q -> 2 * Z.abs (F64.rne p q * q - p) <= q.
Proof.
  intros Hq. unfold F64.rne.
  pose proof (Z.div_mod p q ltac:(lia)) as Hdm.
  pose proof (Z.mod_pos_bound p q Hq) as Hr.
  set (d := p / q) in *. set (r := p mod q) in *.
  destruct (Z.ltb_spec (2 * r) q) as [H1 | H1]; [nia |].
  destruct (Z.ltb_spec q (2 * r)) as [H2 | H2]; [nia |].
  destruct (Z.even d); nia.
Qed.

(** [binade] is the binary exponent of [p / q]. *)
Lemma binade_spec p q :
  0 < p -> 0 < q -> -1022 < F64.binade p q ->
  (0 <= F64.binade p q ->
   q * 2 ^ F64.binade p q <= p < q * 2 ^ (F64.binade p q + 1)) /\
  (F64.binade p q < 0 ->
   q <= p * 2 ^ (- F64.binade p q) < 2 * q).
Proof.
  intros Hp Hq. unfold F64.binade. rewrite Z.abs_eq by lia.
  pose proof (Z.log2_spec p Hp) as [Hp1 Hp2].
  pose proof (Z.log2_spec q Hq) as [Hq1 Hq2].
  pose proof (Z.log2_nonneg p) as Hlp. pose proof (Z.log2_nonneg q) as Hlq.
  set (lp := Z.log2 p) in *. set (lq := Z.log2 q) in *.
  rewrite Z.pow_succ_r in Hp2, Hq2 by lia.
  destruct (Z.leb_spec 0 (lp - lq)) as [Hpos | Hneg].
  - assert (Hlp2 : 2 ^ lp = 2 ^ lq * 2 ^ (lp - lq)).
    { rewrite <- Z.pow_add_r by lia. f_equal. lia. }
    assert (H0 : 0 < 2 ^ (lp - lq)) by (apply Z.pow_pos_nonneg; lia).
    destruct (Z.leb_spec (q * 2 ^ (lp - lq)) p) as [Hreach | Hnot].
    + rewrite Z.max_l by lia. intros _. split; [| lia].
      intros _. split; [exact Hreach |].
      rewrite Z.pow_add_r by lia. change (2 ^ 1) with 2. nia.
    + intros Hmin.
      destruct (Z.eq_dec (lp - lq) 0) as [E0 | N0].
      * rewrite E0 in *. change (0 - 1) with (-1). rewrite Z.max_l by lia.
        split; [lia |]. intros _. change (2 ^ (- -1)) with 2.
        change (2 ^ 0) with 1 in *. nia.
      * rewrite Z.max_l by lia. split; [| lia]. intros _.
        replace (lp - lq - 1 + 1) with (lp - lq) by lia.
        split; [| exact Hnot].
        assert (H1 : 2 ^ (lp - lq) = 2 * 2 ^ (lp - lq - 1)).
        { rewrite <- Z.pow_succ_r by lia. f_equal. lia. }
        assert (0 < 2 ^ (lp - lq - 1)) by (apply Z.pow_pos_nonneg; lia).
        nia.
  - assert (Hlq2 : 2 ^ lq = 2 ^ lp * 2 ^ (- (lp - lq))).
    { rewrite <- Z.pow_add_r by lia. f_equal. lia. }
    assert (H0 : 0 < 2 ^ (- (lp - lq))) by (apply Z.pow_pos_nonneg; lia).
    destruct (Z.leb_spec q (p * 2 ^ (- (lp - lq)))) as [Hreach | Hnot].
    + intros Hmin. rewrite Z.max_l by lia. split; [lia |]. intros _.
      split; [exact Hreach | nia].
    + intros Hmin. rewrite Z.max_l in * by lia. split; [lia |]. intros _.
      replace (- (lp - lq - 1)) with (Z.succ (- (lp - lq))) by lia.
      rewrite Z.pow_succ_r by lia. nia.
Qed.

(** A fraction below [M + 1/2] is not rounded above [M]. *)
Lemma rne_below_half p q M :
  0 < q -> 2 * p < (2 * M + 1) * q -> F64.rne p q <= M.
Proof.
  intros Hq Hp. unfold F64.rne.
  pose proof (Z.div_mod p q ltac:(lia)) as Hdm.
  pose proof (Z.mod_pos_bound p q Hq) as Hr.
  set (d := p / q) in *. set (r := p mod q) in *.
  assert (Hd : d <= M) by nia.
  destruct (Z.ltb_spec (2 * r) q) as [H1 | H1]; [exact Hd |].
  assert (d < M) by nia.
  repeat match goal with |- context [if ?b then _ else _] => destruct b end; lia.
Qed.

Lemma binade_upper p q j :
  0 < q -> 0 < p -> 0 <= j -> p < 2 ^ j * q -> F64.binade p q <= j - 1.
Proof.
  intros Hq Hp Hj Hlt. unfold F64.binade.
  rewrite Z.abs_eq by lia.
  apply Z.max_lub; [| lia].
  pose proof (Z.log2_spec p Hp) as [Hp1 Hp2].
  pose proof (Z.log2_spec q Hq) as [Hq1 Hq2].
  pose proof (Z.log2_nonneg p) as Hlp. pose proof (Z.log2_nonneg q) as Hlq.
  set (lp := Z.log2 p) in *. set (lq := Z.log2 q) in *.
  assert (Hj2 : 0 < 2 ^ j) by (apply Z.pow_pos_nonneg; lia).
  assert (He0 : lp - lq <= j).
  { assert (H : 2 ^ lp < 2 ^ (j + Z.succ lq)).
    { rewrite Z.pow_add_r by lia. nia. }
    apply Z.pow_lt_mono_r_iff in H; lia. }
  destruct (Z.leb_spec 0 (lp - lq)) as [Hpos | Hneg].
  - destruct (Z.leb_spec (q * 2 ^ (lp - lq)) p) as [Hreach | _]; [| lia].
    assert (H : 2 ^ (lp - lq) < 2 ^ j) by nia.
    apply Z.pow_lt_mono_r_iff in H; lia.
  - destruct (q <=? p * 2 ^ (- (lp - lq))); lia.
Qed.

(** The integer part of a rounded fraction: a fraction between [k] and
    [k + 15/16], with [k] below [2 ^ 50], rounds to a number whose integer
    part is still [k] (the numbers of that size are at most an eighth
    apart). *)
Lemma to_Z_round_between p q k :
  0 < q -> 0 <= k < 2 ^ 50 -> k * q <= p -> 16 * p < (16 * k + 15) * q ->
  F64.to_Z (F64.round p q) = k.
Proof.
  intros Hq Hk Hlo Hhi. unfold F64.round.
  destruct (Z.eqb_spec p 0) as [E | N].
  - subst p. assert (k = 0) by nia. subst k. reflexivity.
  - assert (Hp : 0 < p) by nia.
    assert (He : F64.binade p q <= 49).
    { apply (binade_upper p q 50); try lia. nia. }
    destruct (Z.leb_spec 52 (F64.binade p q)) as [H52 | _]; [lia |].
    set (s := 52 - F64.binade p q). assert (Hs : 3 <= s) by (unfold s; lia).
    unfold F64.to_Z; cbn [F64.num F64.den].
    assert (HS : 2 ^ s = 8 * 2 ^ (s - 3)).
    { replace s with (3 + (s - 3)) at 1 by lia.
      rewrite Z.pow_add_r by lia. reflexivity. }
    assert (HT : 0 < 2 ^ (s - 3)) by (apply Z.pow_pos_nonneg; lia).
    set (T := 2 ^ (s - 3)) in *. rewrite HS.
    set (m := F64.rne (p * (8 * T)) q).
    assert (Hm1 : k * (8 * T) <= m).
    { pose proof (rne_lower (p * (8 * T)) q Hq) as Hl. fold m in Hl.
      assert (k * (8 * T) <= p * (8 * T) / q); [| lia].
      apply Z.div_le_lower_bound; [exact Hq | nia]. }
    assert (Hm2 : m <= k * (8 * T) + 8 * T - 1).
    { apply rne_below_half; [exact Hq | nia]. }
    symmetry. apply Z.div_unique with (r := m - k * (8 * T)); lia.
Qed.

Lemma to_Z_round_scaled p q D k :
  0 < D -> 0 < q -> 0 <= k < 2 ^ 50 -> k * q <= p ->
  16 * p < (16 * k + 15) * q ->
  F64.to_Z (F64.round (p * D) (q * D)) = k.
Proof.
  intros HD Hq Hk Hlo Hhi. apply to_Z_round_between.
  - nia.
  - exact Hk.
  - replace (k * (q * D)) with (k * q * D) by ring.
    apply Z.mul_le_mono_nonneg_r; lia.
  - replace (16 * (p * D)) with (16 * p * D) by ring.
    replace ((16 * k + 15) * (q * D)) with ((16 * k + 15) * q * D) by ring.
    apply Z.mul_lt_mono_pos_r; lia.
Qed.

(** Integers below [2 ^ 53] are binary64 numbers: rounding keeps them. *)
Lemma round_exact n q :
  0 < q -> 0 <= n < 2 ^ 53 -> F64.exact (F64.round (n * q) q) n.
Proof.
  intros Hq Hn. unfold F64.round, F64.exact.
  destruct (Z.eqb_spec (n * q) 0) as [E | N].
  - simpl. nia.
  - assert (Hpos : 0 < n) by nia.
    assert (He : F64.binade (n * q) q <= 52).
    { apply (binade_upper (n * q) q 53); try lia; nia. }
    destruct (Z.leb_spec 52 (F64.binade (n * q) q)) as [H52 | H52].
    + replace (F64.binade (n * q) q) with 52 by lia.
      change (2 ^ (52 - 52)) with 1. cbn [F64.num F64.den].
      rewrite !Z.mul_1_r, rne_mul_exact by lia. lia.
    + cbn [F64.num F64.den].
      assert (Hu : 0 < 2 ^ (52 - F64.binade (n * q) q))
        by (apply Z.pow_pos_nonneg; lia).
      split; [lia |].
      replace (n * q * 2 ^ (52 - F64.binade (n * q) q))
        with (n * 2 ^ (52 - F64.binade (n * q) q) * q) by ring.
      apply rne_mul_exact, Hq.
Qed.

Lemma of_Z_exact n : 0 <= n < 2 ^ 53 -> F64.exact (F64.of_Z n) n.
Proof.
  intros Hn. unfold F64.of_Z.
  replace n with (n * 1) at 1 by lia. apply round_exact; lia.
Qed.

Lemma to_Z_exact x v : F64.exact x v -> F64.to_Z x = v.
Proof. intros [Hd Hn]. unfold F64.to_Z. rewrite Hn. apply Z.div_mul. lia. Qed.

Lemma floor_exact x v : F64.to_Z x = v -> F64.exact (F64.floor x) v.
Proof. intros <-. unfold F64.floor, F64.exact. cbn. lia. Qed.

Lemma mul_exact x y a b :
  F64.exact x a -> F64.exact y b -> 0 <= a * b < 2 ^ 53 ->
  F64.exact (F64.mul x y) (a * b).
Proof.
  intros [Hdx Hnx] [Hdy Hny] Hab. unfold F64.mul. rewrite Hnx, Hny.
  replace (a * F64.den x * (b * F64.den y))
    with (a * b * (F64.den x * F64.den y)) by ring.
  apply round_exact; nia.
Qed.

Lemma sub_exact x y a b :
  F64.exact x a -> F64.exact y b -> 0 <= a - b < 2 ^ 53 ->
  F64.exact (F64.sub x y) (a - b).
Proof.
  intros [Hdx Hnx] [Hdy Hny] Hab. unfold F64.sub. rewrite Hnx, Hny.
  replace (a * F64.den x * F64.den y - b * F64.den y * F64.den x)
    with ((a - b) * (F64.den x * F64.den y)) by ring.
  apply round_exact; nia.
Qed.

(** Below [2 ^ 53] a number prints as the integer it is. *)
Lemma toString_safe v :
  0 <= v < 2 ^ 53 -> F64.toString v = JS.string_of_Z v.
Proof.
  intros Hv. unfold F64.toString. rewrite Z.abs_eq by lia.
  destruct (Z.ltb_spec v (2 ^ 53)); [reflexivity | lia].
Qed.

(** *** The three expressions of the source, for pools whose tenfold is
    below [2 ^ 53] *)

(** [Math.floor(x * 10 / 100)]. *)
Lemma floor_mul_div_exact x n :
  F64.exact x n -> 0 <= n -> 10 * n < 2 ^ 53 ->
  F64.to_Z (F64.div (F64.mul x (F64.of_Z 10)) (F64.of_Z 100)) = n / 10.
Proof.
  intros Hx Hn Hb.
  assert (H10 : F64.exact (F64.of_Z 10) 10) by (apply of_Z_exact; lia).
  pose proof (mul_exact x (F64.of_Z 10) n 10 Hx H10 ltac:(lia)) as [Hd Hm].
  set (y := F64.mul x (F64.of_Z 10)) in *.
  assert (H100 : F64.exact (F64.of_Z 100) 100) by (apply of_Z_exact; lia).
  destruct H100 as [Hd' Hc]. set (c := F64.of_Z 100) in *.
  unfold F64.div. rewrite Hc, Hm.
  destruct (Z.ltb_spec 0 (F64.den y * (100 * F64.den c))) as [_ | ?]; [| nia].
  replace (n * 10 * F64.den y * F64.den c)
    with (n * 10 * (F64.den y * F64.den c)) by ring.
  replace (F64.den y * (100 * F64.den c))
    with (100 * (F64.den y * F64.den c)) by ring.
  pose proof (Z.div_mod n 10 ltac:(lia)) as Hdm.
  pose proof (Z.mod_pos_bound n 10 ltac:(lia)) as Hr.
  apply to_Z_round_scaled; [nia | lia | lia | lia | lia].
Qed.

(** [Math.floor(x * 0.1)]. *)
Lemma floor_mul_tenth_exact x n :
  F64.exact x n -> 0 <= n -> 10 * n < 2 ^ 53 ->
  F64.to_Z (F64.mul x F64.c0_1) = n / 10.
Proof.
  intros [Hd Hx] Hn Hb. unfold F64.mul. rewrite Hx.
  change (F64.num F64.c0_1) with 7205759403792794.
  change (F64.den F64.c0_1) with 72057594037927936.
  replace (n * F64.den x * 7205759403792794)
    with (n * 7205759403792794 * F64.den x) by ring.
  rewrite (Z.mul_comm (F64.den x)).
  pose proof (Z.div_mod n 10 ltac:(lia)) as Hdm.
  pose proof (Z.mod_pos_bound n 10 ltac:(lia)) as Hr.
  apply to_Z_round_scaled; lia.
Qed.

(** [Math.floor(x * 0.9)]. *)
Lemma floor_mul_nine_tenths_exact x n :
  F64.exact x n -> 0 <= n -> 10 * n < 2 ^ 53 ->
  F64.to_Z (F64.mul x F64.c0_9) = 9 * n / 10.
Proof.
  intros [Hd Hx] Hn Hb. unfold F64.mul. rewrite Hx.
  change (F64.num F64.c0_9) with 8106479329266893.
  change (F64.den F64.c0_9) with 9007199254740992.
  replace (n * F64.den x * 8106479329266893)
    with (n * 8106479329266893 * F64.den x) by ring.
  rewrite (Z.mul_comm (F64.den x)).
  pose proof (Z.div_mod (9 * n) 10 ltac:(lia)) as Hdm.
  pose proof (Z.mod_pos_bound (9 * n) 10 ltac:(lia)) as Hr.
  apply to_Z_round_scaled; lia.
Qed.

(** *** The call sites *)

(** The post-win confirmation and the claim flow compute the same figures. *)
Lemma claim_flow_matches_confirmation (prizePool : Z) :
  handleClaimPrize_prize prizePool = checkGameResult_prize prizePool.
Proof. reflexivity. Qed.

(** The figures of [checkGameResult]: the pool, a tenth of it rounded
    down, and the rest. *)
Lemma checkGameResult_figures (prizePool : Z) :
  0 <= prizePool -> 10 * prizePool < 2 ^ 53 ->
  checkGameResult_prize prizePool
  = mkPrize prizePool (prizePool / 10) (prizePool - prizePool / 10).
Proof.
  intros Hn Hb. unfold checkGameResult_prize, commissionRate.
  assert (Hx : F64.exact (F64.of_Z prizePool) prizePool)
    by (apply of_Z_exact; lia).
  pose proof (floor_mul_div_exact _ _ Hx Hn Hb) as Hc.
  pose proof (floor_exact _ _ Hc) as Hfloor.
  set (c := F64.floor _) in *.
  assert (Hs : F64.exact (F64.sub (F64.of_Z prizePool) c)
                 (prizePool - prizePool / 10))
    by (apply sub_exact; [exact Hx | exact Hfloor |];
        Z.to_euclidean_division_equations; lia).
  rewrite (to_Z_exact _ _ Hx), (to_Z_exact _ _ Hfloor), (to_Z_exact _ _ Hs).
  reflexivity.
Qed.

(** The commission of [checkGameResult] is a tenth of the pool, rounded down. *)
Lemma checkGameResult_commission (prizePool : Z) :
  0 <= prizePool -> 10 * prizePool < 2 ^ 53 ->
  commission (checkGameResult_prize prizePool) = prizePool / 10.
Proof. intros Hn Hb. rewrite checkGameResult_figures by assumption. reflexivity. Qed.

(** Subtracting the floored commission loses nothing. *)
Lemma checkGameResult_exact (prizePool : Z) :
  0 <= prizePool -> 10 * prizePool < 2 ^ 53 ->
  netPrize (checkGameResult_prize prizePool)
  + commission (checkGameResult_prize prizePool) = prizePool.
Proof.
  intros Hn Hb. rewrite checkGameResult_figures by assumption. simpl. lia.
Qed.

(** The product of the fee and the player count. *)
Lemma pool_exact (fee players : Z) :
  0 <= fee < 2 ^ 53 -> 0 <= players < 2 ^ 53 ->
  10 * (fee * players) < 2 ^ 53 ->
  F64.exact (F64.mul (F64.of_Z fee) (F64.of_Z players)) (fee * players).
Proof.
  intros Hf Hp Hb.
  apply mul_exact; [apply of_Z_exact, Hf | apply of_Z_exact, Hp | nia].
Qed.

(** The figures of the pre-game [RoomDetails] estimate. *)
Lemma RoomDetails_figures (s : Session) :
  0 <= entryFee s < 2 ^ 53 -> 0 <= maxPlayers s < 2 ^ 53 ->
  10 * (entryFee s * maxPlayers s) < 2 ^ 53 ->
  let pool := entryFee s * maxPlayers s in
  RoomDetails_prize s = mkPrize pool (pool / 10) (pool - pool / 10).
Proof.
  intros Hf Hp Hb pool. unfold RoomDetails_prize, floor_tenth.
  pose proof (pool_exact _ _ Hf Hp Hb) as Hx. fold pool in Hx, Hb.
  assert (Hn : 0 <= pool) by (unfold pool; nia).
  pose proof (floor_mul_tenth_exact _ _ Hx Hn Hb) as Hc.
  pose proof (floor_exact _ _ Hc) as Hfloor.
  set (total := F64.mul _ _) in *. set (c := F64.floor _) in *.
  assert (Hs : F64.exact (F64.sub total c) (pool - pool / 10))
    by (apply sub_exact; [exact Hx | exact Hfloor |];
        Z.to_euclidean_division_equations; lia).
  rewrite (to_Z_exact _ _ Hx), (to_Z_exact _ _ Hfloor), (to_Z_exact _ _ Hs).
  reflexivity.
Qed.

(** The pre-game [RoomDetails] estimate agrees with the confirmation. *)
Lemma RoomDetails_matches_confirmation (s : Session) :
  0 <= entryFee s < 2 ^ 53 -> 0 <= maxPlayers s < 2 ^ 53 ->
  10 * (entryFee s * maxPlayers s) < 2 ^ 53 ->
  RoomDetails_prize s = checkGameResult_prize (entryFee s * maxPlayers s).
Proof.
  intros Hf Hp Hb.
  rewrite (RoomDetails_figures s Hf Hp Hb), checkGameResult_figures;
    [reflexivity | nia | exact Hb].
Qed.

(** The figures of the breakdown block. *)
Lemma breakdown_figures (s : Session) :
  0 <= entryFee s < 2 ^ 53 -> 0 < maxPlayers s < 2 ^ 53 ->
  10 * (entryFee s * maxPlayers s) < 2 ^ 53 ->
  let pool := entryFee s * maxPlayers s in
  breakdown_prize (Some s) = mkPrize pool (pool / 10) (9 * pool / 10).
Proof.
  intros Hf Hp Hb pool. unfold breakdown_prize, floor_tenth, floor_nine_tenths.
  destruct (Z.eqb_spec (maxPlayers s) 0) as [E | _]; [lia |].
  assert (Hp' : 0 <= maxPlayers s < 2 ^ 53) by lia.
  pose proof (pool_exact _ _ Hf Hp' Hb) as Hx. fold pool in Hx, Hb.
  assert (Hn : 0 <= pool) by (unfold pool; nia).
  pose proof (floor_mul_tenth_exact _ _ Hx Hn Hb) as Hc.
  pose proof (floor_mul_nine_tenths_exact _ _ Hx Hn Hb) as Hc9.
  set (total := F64.mul _ _) in *.
  rewrite (to_Z_exact _ _ Hx).
  rewrite (to_Z_exact _ _ (floor_exact _ _ Hc)).
  rewrite (to_Z_exact _ _ (floor_exact _ _ Hc9)).
  reflexivity.
Qed.

(** Nine tenths rounded down fall one short of the subtraction exactly when
    the pool is not a multiple of ten. *)
Lemma nine_tenths_short (n : Z) :
  9 * n / 10 = n - n / 10 - (if n mod 10 =? 0 then 0 else 1).
Proof.
  pose proof (Z.div_mod n 10 ltac:(lia)) as Hn.
  pose proof (Z.mod_pos_bound n 10 ltac:(lia)) as Hb.
  set (q := n / 10) in *. set (r := n mod 10) in *.
  replace (9 * n) with (9 * q * 10 + 9 * r) by lia.
  rewrite Z.div_add_l by lia.
  destruct (Z.eqb_spec r 0) as [E | E].
  - rewrite E. change (9 * 0 / 10) with 0. lia.
  - assert (H9 : 9 * r / 10 = r - 1).
    { assert (C : r = 1 \/ r = 2 \/ r = 3 \/ r = 4 \/ r = 5 \/ r = 6 \/
                  r = 7 \/ r = 8 \/ r = 9) by lia.
      destruct C as [C|[C|[C|[C|[C|[C|[C|[C|C]]]]]]]]; rewrite C; reflexivity. }
    lia.
Qed.

(** The breakdown block shows the figures of the confirmation exactly when
    the pool is a multiple of ten. *)
Lemma breakdown_matches_iff (s : Session) :
  0 <= entryFee s < 2 ^ 53 -> 0 < maxPlayers s < 2 ^ 53 ->
  10 * (entryFee s * maxPlayers s) < 2 ^ 53 ->
  (breakdown_prize (Some s) = checkGameResult_prize (entryFee s * maxPlayers s)
   <-> (entryFee s * maxPlayers s) mod 10 = 0).
Proof.
  intros Hf Hp Hb.
  rewrite (breakdown_figures s Hf Hp Hb), checkGameResult_figures;
    [| nia | exact Hb].
  set (n := entryFee s * maxPlayers s).
  pose proof (nine_tenths_short n) as H9.
  cbv zeta. fold n. rewrite H9.
  destruct (Z.eqb_spec (n mod 10) 0) as [E | N]; split.
  - intros _. exact E.
  - intros _. f_equal. lia.
  - intros H. injection H as Hnet. lia.
  - intros H. contradiction.
Qed.

(** The three expressions in the model, for a pool whose tenfold is
    below [2 ^ 53]. *)
Lemma model_quotients (n : Z) :
  0 <= n -> 10 * n < 2 ^ 53 ->
  F64.to_Z (floor_tenth (F64.of_Z n)) = n / 10 /\
  F64.to_Z (floor_nine_tenths (F64.of_Z n)) = 9 * n / 10 /\
  commission (checkGameResult_prize n) = n / 10.
Proof.
  intros Hn Hb.
  assert (Hx : F64.exact (F64.of_Z n) n) by (apply of_Z_exact; lia).
  unfold floor_tenth, floor_nine_tenths.
  rewrite (to_Z_exact _ _ (floor_exact _ _ (floor_mul_tenth_exact _ _ Hx Hn Hb))).
  rewrite (to_Z_exact _ _
             (floor_exact _ _ (floor_mul_nine_tenths_exact _ _ Hx Hn Hb))).
  rewrite checkGameResult_commission by assumption.
  repeat split.
Qed.

(** The machine's floats give these quotients, and so the figures of the
    model, for every pool below 5000 points. *)
Lemma b64_agrees_below_5000 :
  forallb (fun i =>
             let n := Z.of_nat i in
             match B64.floor_mul n B64.c0_1, B64.floor_mul n B64.c0_9,
                   B64.floor_mul_div n commissionRate 100 with
             | Some a, Some b, Some c =>
                 (a =? n / 10) && (b =? 9 * n / 10) && (c =? n / 10)
             | _, _, _ => false
             end)
          (seq 0 5000) = true.
Proof. vm_compute. reflexivity. Qed.

(** The machine's floats and the model on pools around and above
    [2 ^ 53 / 10], where the three expressions no longer agree with one
    another: at a pool of 3602879701896410 the commission of
    [checkGameResult] is ...640 and that of [RoomDetails] ...641; at
    4503599627370501 the breakdown's nine tenths are ...451, a point above
    the exact quotient. *)
Lemma b64_agrees_on_large_pools :
  forallb (fun n =>
             match B64.floor_mul n B64.c0_1, B64.floor_mul n B64.c0_9,
                   B64.floor_mul_div n commissionRate 100 with
             | Some a, Some b, Some c =>
                 (a =? F64.to_Z (floor_tenth (F64.of_Z n)))
                 && (b =? F64.to_Z (floor_nine_tenths (F64.of_Z n)))
                 && (c =? commission (checkGameResult_prize n))
             | _, _, _ => false
             end)
          [900719925474099; 900719925474100; 1250999896491806;
           3602879701896410; 4503599627370501; 9007199254740991;
           9007199254740993; 123456789012345678;
           4611686018427387903] = true /\
  commission (checkGameResult_prize 3602879701896410) = 360287970189640 /\
  netPrize (checkGameResult_prize 3602879701896410) = 3242591731706770 /\
  F64.to_Z (floor_tenth (F64.of_Z 3602879701896410)) = 360287970189641 /\
  F64.to_Z (floor_nine_tenths (F64.of_Z 4503599627370501))
  = 4053239664633451 /\
  9 * 4503599627370501 / 10 = 4053239664633450.
Proof. repeat split; vm_compute; reflexivity. Qed.

(** The operations of the model against the machine's: conversion,
    product, quotient and difference on pairs of integers of every size up
    to [2 ^ 62], and the two literals. *)
Lemma f64_agrees_with_machine :
  F64.agrees F64.c0_1 B64.c0_1 = true /\
  F64.agrees F64.c0_9 B64.c0_9 = true /\
  forallb (fun ab =>
             let x := F64.of_Z (fst ab) in
             let y := F64.of_Z (snd ab) in
             let fx := B64.of_Z (fst ab) in
             let fy := B64.of_Z (snd ab) in
             F64.agrees x fx && F64.agrees y fy
             && F64.agrees (F64.mul x y) (PrimFloat.mul fx fy)
             && F64.agrees (F64.div x y) (PrimFloat.div fx fy)
             && F64.agrees (F64.sub x y) (PrimFloat.sub fx fy)
             && F64.agrees (F64.sub y x) (PrimFloat.sub fy fx)
             && F64.agrees (F64.mul x F64.c0_1) (PrimFloat.mul fx B64.c0_1)
             && F64.agrees (F64.mul x F64.c0_9) (PrimFloat.mul fx B64.c0_9)
             && F64.agrees (F64.div (F64.mul x (F64.of_Z 10)) (F64.of_Z 100))
                  (PrimFloat.div (PrimFloat.mul fx (B64.of_Z 10))
                     (B64.of_Z 100)))
          [(0, 1); (1, 3); (75, 10); (7, 100); (1, 1125899906842624);
           (9007199254740991, 3); (9007199254740993, 7);
           (9007199254740995, 9007199254740997);
           (3602879701896410, 10); (4503599627370501, 9);
           (36028797018964100, 100); (123456789012345678, 987654321);
           (4611686018427387903, 4611686018427387901);
           (2305843009213693953, 5); (1801439850948205, 2);
           (999999999999999999, 1000000007)] = true.
Proof. repeat split; vm_compute; reflexivity. Qed.

(** Where the comparator is not consistent the order is that of the
    engine: with an age of "just now" (no number to compare) among the
    ages 5, 10 and 10 minutes, rooms 1 to 4 come out as 2, 4, 1, 3. *)
Lemma sort_with_an_age_without_number :
  map sid
    (JS.sort byTime
       [mkSummary 1 "" 0 "" "5 min ago" ""; mkSummary 2 "" 0 "" "10 min ago" "";
        mkSummary 3 "" 0 "" "just now" ""; mkSummary 4 "" 0 "" "10 min ago" ""])
  = [2; 4; 1; 3].
Proof. vm_compute. reflexivity. Qed.

(** C1, at an entry fee of 25 points and three players (pool 75): the
    post-win confirmation and the claim flow show a prize of 68 points,
    the prize-breakdown block shows 67, in the binary64 model and with
    the machine's floats alike.  The three call sites do not show
    identical results. *)
Theorem prize_call_sites_diverge_at_75 :
  checkGameResult_prize (25 * 3) = mkPrize 75 7 68 /\
  handleClaimPrize_prize (25 * 3) = mkPrize 75 7 68 /\
  breakdown_prize (Some Scenario.session_75) = mkPrize 75 7 67 /\
  checkGameResult_b64 (25 * 3) = Some (mkPrize 75 7 68) /\
  breakdown_b64 25 3 = Some (mkPrize 75 7 67).
Proof. repeat split; vm_compute; reflexivity. Qed.

(** C4, at the same input: the net prize and the commission of the
    prize-breakdown block add up to 74, one point short of the pool of 75
    (two floors instead of one); at an entry fee of 50 and two players
    every call site shows 100, 10 and 90. *)
Theorem breakdown_loses_a_point_at_75 :
  netPrize (breakdown_prize (Some Scenario.session_75))
  + commission (breakdown_prize (Some Scenario.session_75)) = 74 /\
  entryFee Scenario.session_75 * maxPlayers Scenario.session_75 = 75 /\
  checkGameResult_prize (50 * 2) = mkPrize 100 10 90 /\
  breakdown_prize (Some (mkSession (Some 1) 50 2 0 2 false Completed))
  = mkPrize 100 10 90.
Proof. repeat split; vm_compute; reflexivity. Qed.

(* ------------------------------------------------------------------ *)
(** ** The call log *)

Lemma reads_only_ret {A} (a : A) : reads_only (ret a).
Proof. intros log. exists []. simpl. rewrite app_nil_r. auto. Qed.

Lemma reads_only_bind {A B} (m : M A) (k : A -> M B) :
  reads_only m -> (forall a, reads_only (k a)) -> reads_only (bind m k).
Proof.
  intros Hm Hk log. unfold bind.
  destruct (Hm log) as [r1 [E1 W1]].
  destruct (m log) as [a log1] eqn:Em. simpl in E1. subst log1.
  destruct (Hk a (log ++ r1)%list) as [r2 [E2 W2]].
  exists (r1 ++ r2)%list. rewrite E2, app_assoc. split; [reflexivity |].
  unfold writes in *. rewrite filter_app, length_app. lia.
Qed.

Lemma reads_only_call {A} (c : Call) (answer : nat -> A) :
  is_submitScore c = false -> reads_only (call c answer).
Proof.
  intros Hc log. exists [c]. simpl. split; [reflexivity |].
  unfold writes. simpl. rewrite Hc. reflexivity.
Qed.

Lemma getRoomDetails_reads_only env roomId :
  reads_only (getRoomDetails env roomId).
Proof.
  unfold getRoomDetails.
  destruct (gameRoom env); [| apply reads_only_ret].
  destruct (invalidRoomId roomId); [apply reads_only_ret |].
  apply reads_only_bind; [apply reads_only_call; reflexivity |].
  intros [room |]; apply reads_only_ret.
Qed.

Lemma getPlayersInRoom_reads_only env roomId :
  reads_only (getPlayersInRoom env roomId).
Proof.
  unfold getPlayersInRoom.
  destruct (gameRoom env); [| apply reads_only_ret].
  apply reads_only_bind; [apply reads_only_call; reflexivity |].
  intros [[| a l] |]; try apply reads_only_ret.
  apply reads_only_bind; [apply getRoomDetails_reads_only |].
  intros [room |]; apply reads_only_ret.
Qed.

(** A room comes back only from a connected contract. *)
Lemma getRoomDetails_some_connected env roomId log room log1 :
  getRoomDetails env roomId log = (Some room, log1) ->
  exists g, gameRoom env = Some g.
Proof.
  unfold getRoomDetails. destruct (gameRoom env) as [g |]; [eauto |].
  discriminate.
Qed.

(* ------------------------------------------------------------------ *)
(** ** The submission gate *)

(** C2, amended: let the gate's own reads give the room and the resolved
    roster.  If one of the three preconditions as the gate can observe them
    (room Active, address on the roster, no submission flagged on the
    resolved roster) fails, [submitScore] fails with the tag of the first
    failing one, in that order, and everything it appended to the call log
    is a read: no [submitScore] transaction is issued. *)
Theorem submitScore_rejects_without_write
        env roomId score log room log1 roster log2 reason :
  getRoomDetails env roomId log = (Some room, log1) ->
  getPlayersInRoom env roomId log1 = (roster, log2) ->
  Gate.firstFailingPrecondition (status room)
    (isPlayer (currentUser env) roster)
    (hasSubmittedIn (currentUser env) roster) = Some reason ->
  exists result reads,
    submitScore env roomId score log = (result, (log ++ reads)%list) /\
    success result = false /\
    Gate.reasonOf result = Some reason /\
    writes reads = 0%nat.
Proof.
  intros Hroom Hroster Hfirst.
  destruct (getRoomDetails_some_connected _ _ _ _ _ Hroom) as [g Hg].
  destruct (getRoomDetails_reads_only env roomId log) as [r1 [E1 W1]].
  rewrite Hroom in E1; simpl in E1.
  destruct (getPlayersInRoom_reads_only env roomId log1) as [r2 [E2 W2]].
  rewrite Hroster in E2; simpl in E2.
  unfold submitScore. rewrite Hg. unfold bind at 1. rewrite Hroom.
  unfold Gate.firstFailingPrecondition, Active in Hfirst.
  destruct (negb (status room =? 1)) eqn:Hst.
  - injection Hfirst as <-.
    exists (mkSubmitResult false (Some (statusErrorMsg (status room)))
              true false false), r1.
    rewrite E1. repeat split; assumption.
  - unfold bind. rewrite Hroster.
    destruct (negb (isPlayer (currentUser env) roster)) eqn:Hmem.
    + injection Hfirst as <-.
      exists (mkSubmitResult false (Some "You are not a player in this room")
                false true false), (r1 ++ r2)%list.
      rewrite E2, E1, app_assoc. repeat split.
      unfold writes in *. rewrite filter_app, length_app. lia.
    + destruct (hasSubmittedIn (currentUser env) roster) eqn:Hsub;
        [| discriminate].
      injection Hfirst as <-.
      exists (mkSubmitResult false
                (Some "You have already submitted a score for this room")
                false false true), (r1 ++ r2)%list.
      rewrite E2, E1, app_assoc. repeat split.
      unfold writes in *. rewrite filter_app, length_app. lia.
Qed.

(** The three rejections, each on a concrete ledger: a filling room, an
    outsider on an active room, and a room that completes with the
    submitter as its winner between the gate's reads. *)
Lemma submitScore_rejects_without_write_witness :
  (exists result reads,
      submitScore Scenario.env_filling 1 42 [] = (result, ([] ++ reads)%list) /\
      success result = false /\
      Gate.reasonOf result = Some Gate.StatusError /\
      writes reads = 0%nat) /\
  (exists result reads,
      submitScore (Scenario.env_active Scenario.carol) 1 42 []
      = (result, ([] ++ reads)%list) /\
      success result = false /\
      Gate.reasonOf result = Some Gate.NotPlayerError /\
      writes reads = 0%nat) /\
  (exists result reads,
      submitScore Scenario.env_completing 1 42 [] = (result, ([] ++ reads)%list) /\
      success result = false /\
      Gate.reasonOf result = Some Gate.AlreadySubmittedError /\
      writes reads = 0%nat).
Proof.
  split; [| split].
  - apply (submitScore_rejects_without_write Scenario.env_filling 1 42 []
             Scenario.filling_room [CallRooms 1]
             (fst (getPlayersInRoom Scenario.env_filling 1 [CallRooms 1]))
             (snd (getPlayersInRoom Scenario.env_filling 1 [CallRooms 1])));
      vm_compute; reflexivity.
  - apply (submitScore_rejects_without_write
             (Scenario.env_active Scenario.carol) 1 42 []
             Scenario.active_room [CallRooms 1]
             (fst (getPlayersInRoom (Scenario.env_active Scenario.carol) 1
                     [CallRooms 1]))
             (snd (getPlayersInRoom (Scenario.env_active Scenario.carol) 1
                     [CallRooms 1])));
      vm_compute; reflexivity.
  - apply (submitScore_rejects_without_write Scenario.env_completing 1 42 []
             Scenario.active_room [CallRooms 1]
             (fst (getPlayersInRoom Scenario.env_completing 1 [CallRooms 1]))
             (snd (getPlayersInRoom Scenario.env_completing 1 [CallRooms 1])));
      vm_compute; reflexivity.
Defined.

(** C2 as stated fails: room 1 is Active, alice is on its roster and the
    ledger's record holds her score.  The resolved roster does not flag
    her (the room has no winner yet), so the gate passes and her second
    score is sent as a transaction: one write is issued.  The ledger's
    refusal comes back through the [catch] block, which rewords the
    message and sets no tag (on a ledger that mines the transaction the
    result is a success). *)
Lemma submitScore_writes_after_prior_submission :
  Ledger.status Scenario.active_room = Active /\
  option_map (fun g => hasSubmitted g 0 1 Scenario.alice)
    (gameRoom Cases.env_alice_submitted) = Some true /\
  isPlayer (currentUser Cases.env_alice_submitted)
    (fst (getPlayersInRoom Cases.env_alice_submitted 1 [CallRooms 1])) = true /\
  hasSubmittedIn (currentUser Cases.env_alice_submitted)
    (fst (getPlayersInRoom Cases.env_alice_submitted 1 [CallRooms 1])) = false /\
  submitScore Cases.env_alice_submitted 1 42 []
  = (failure "You have already submitted a score for this room",
     [CallRooms 1; CallGetPlayers 1; CallRooms 1; CallSubmitScore 1 42]) /\
  Gate.reasonOf
    (fst (submitScore Cases.env_alice_submitted 1 42 [])) = None /\
  writes (snd (submitScore Cases.env_alice_submitted 1 42 [])) = 1%nat /\
  hasSubmitted Scenario.contract_active 0 1 Scenario.alice = true /\
  success (fst (submitScore (Scenario.env_active Scenario.alice) 1 42 []))
  = true /\
  writes (snd (submitScore (Scenario.env_active Scenario.alice) 1 42 []))
  = 1%nat.
Proof.
  repeat split; vm_compute; reflexivity.
Qed.

(** When the three preconditions hold as the gate observes them, it sends
    the score.  On this ledger the record already holds a submission by
    alice; the resolved roster does not show it (see C3), so the refusal is
    left to the ledger. *)
Lemma submitScore_accepts_with_one_write :
  submitScore (Scenario.env_active Scenario.alice) 1 42 []
  = (mkSubmitResult true None false false false,
     [CallRooms 1; CallGetPlayers 1; CallRooms 1; CallSubmitScore 1 42]).
Proof. vm_compute. reflexivity. Qed.

(** The status error names "Filling" for a filling room and for no other
    status. *)
Lemma statusErrorMsg_mentions_filling (st : Z) :
  JS.includes (statusErrorMsg st) "Filling" = true <-> st = Filling.
Proof.
  unfold statusErrorMsg, statusText, Filling.
  destruct (Z.eqb_spec st 0) as [E0 | N0].
  - split; [intros _; exact E0 | intros _; vm_compute; reflexivity].
  - destruct (st =? 2); [| destruct (st =? 3); [| destruct (st =? 4)]];
      (split; [vm_compute; discriminate | intros E; contradiction]).
Qed.

(** C9: when the room read by [submitScore] is not Active, the result is a
    status error whose message ends in the name of the room's status; the
    message mentions "Filling" exactly when the room is filling. *)
Theorem submitScore_status_error_names_status
        env roomId score log room log1 :
  getRoomDetails env roomId log = (Some room, log1) ->
  status room <> Active ->
  submitScore env roomId score log
  = (mkSubmitResult false (Some (statusErrorMsg (status room))) true false false,
     log1) /\
  (JS.includes (statusErrorMsg (status room)) "Filling" = true
   <-> status room = Filling).
Proof.
  intros Hroom Hst.
  destruct (getRoomDetails_some_connected _ _ _ _ _ Hroom) as [g Hg].
  split; [| apply statusErrorMsg_mentions_filling].
  unfold submitScore. rewrite Hg. unfold bind. rewrite Hroom.
  unfold Active in Hst.
  destruct (Z.eqb_spec (status room) 1) as [E | _]; [contradiction |].
  reflexivity.
Qed.

(** A room for two with one player joined rejects the score with a status
    error that mentions "Filling". *)
Lemma submitScore_status_error_names_status_witness :
  Ledger.maxPlayers Scenario.filling_room = 2 /\
  Ledger.currentPlayers Scenario.filling_room = 1 /\
  submitScore Scenario.env_filling 1 42 []
  = (mkSubmitResult false
       (Some "Room must be in Active status to submit scores. Current status: Filling")
       true false false,
     [CallRooms 1]) /\
  JS.includes
    "Room must be in Active status to submit scores. Current status: Filling"
    "Filling" = true.
Proof.
  split; [reflexivity | split; [reflexivity |]].
  destruct (submitScore_status_error_names_status Scenario.env_filling 1 42 []
              Scenario.filling_room [CallRooms 1]) as [Hres Hmsg].
  - vm_compute. reflexivity.
  - vm_compute. discriminate.
  - split; [exact Hres | apply Hmsg; reflexivity].
Defined.

(* ------------------------------------------------------------------ *)
(** ** The roster resolver *)

Lemma filter_some_In {A} (l : list (option A)) (a : A) :
  In a (filter_some l) <-> In (Some a) l.
Proof.
  induction l as [| [b |] l IH]; simpl.
  - tauto.
  - rewrite IH. split; intros [H | H]; auto; left; congruence.
  - rewrite IH. split; [auto | intros [H | H]; [discriminate | assumption]].
Qed.

(** Every resolved entry carries an address of the roster the ledger
    returned, so an address absent from that roster is no member for the
    gate either. *)
Lemma getPlayersInRoom_from_ledger_roster env roomId log p :
  In p (fst (getPlayersInRoom env roomId log)) ->
  exists g raw,
    gameRoom env = Some g /\
    getPlayers g (List.length log) roomId = Some raw /\
    In (playerAddress p) raw.
Proof.
  unfold getPlayersInRoom.
  destruct (gameRoom env) as [g |]; [| simpl; tauto].
  unfold bind, call.
  destruct (getPlayers g (List.length log) roomId) as [[| a l] |] eqn:Hraw;
    try (simpl; tauto).
  destruct (getRoomDetails env roomId (log ++ [CallGetPlayers roomId])%list)
    as [[room |] log1]; [| simpl; tauto].
  cbn [ret fst]. intros Hin.
  apply filter_some_In, in_map_iff in Hin. destruct Hin as [b [Hb Hin]].
  exists g, (a :: l). split; [reflexivity | split; [exact Hraw |]].
  unfold formatPlayer in Hb. destruct (negb (JS.truthy b)); [discriminate |].
  injection Hb as <-. exact Hin.
Qed.

(** C3, amended: every entry returned by [getPlayersInRoom] was formatted
    from the room the resolver read right after the roster; its score is 0
    and its [hasSubmittedScore] flag is true exactly when that room is
    Completed and its winner is the entry's address (compared in lower
    case). *)
Theorem getPlayersInRoom_flag_is_completed_winner env roomId log p :
  In p (fst (getPlayersInRoom env roomId log)) ->
  exists g room,
    gameRoom env = Some g /\
    rooms g (S (List.length log)) roomId = Some room /\
    score p = 0 /\
    hasSubmittedScore p
    = ((status room =? Completed) && JS.truthy (winner room) &&
       String.eqb (JS.toLowerCase (winner room))
                  (JS.toLowerCase (playerAddress p))).
Proof.
  unfold getPlayersInRoom, getRoomDetails.
  destruct (gameRoom env) as [g |]; [| simpl; tauto].
  unfold bind, call, ret.
  destruct (getPlayers g (List.length log) roomId) as [[| a l] |];
    try (simpl; tauto).
  destruct (invalidRoomId roomId); [simpl; tauto |].
  rewrite length_app. simpl List.length. rewrite Nat.add_1_r.
  destruct (rooms g (S (List.length log)) roomId) as [room |] eqn:Hroom;
    [| simpl; tauto].
  destruct (formatRoom room) as [room' |] eqn:Hfmt; [| simpl; tauto].
  assert (room' = room) as ->.
  { unfold formatRoom in Hfmt.
    repeat match type of Hfmt with
           | context [match ?x with _ => _ end] => destruct x
           end; congruence. }
  cbn [fst]. intros Hin.
  apply filter_some_In, in_map_iff in Hin. destruct Hin as [b [Hb _]].
  exists g, room. split; [reflexivity | split; [exact Hroom |]].
  unfold formatPlayer in Hb.
  destruct (negb (JS.truthy b)); [discriminate |].
  injection Hb as <-. split; reflexivity.
Qed.

Lemma getPlayersInRoom_flag_is_completed_winner_witness :
  exists g room,
    gameRoom Scenario.env_completing = Some g /\
    rooms g 1%nat 1 = Some room /\
    score (mkPlayer Scenario.alice 0 true 0) = 0 /\
    true = ((status room =? Completed) && JS.truthy (winner room) &&
            String.eqb (JS.toLowerCase (winner room))
                       (JS.toLowerCase Scenario.alice)).
Proof.
  apply (getPlayersInRoom_flag_is_completed_winner Scenario.env_completing 1 []
           (mkPlayer Scenario.alice 0 true 0)).
  vm_compute. left. reflexivity.
Defined.

(** C3 as stated fails: on an active room whose ledger record says that
    alice has submitted, her roster entry still reads
    [hasSubmittedScore = false]. *)
Lemma getPlayersInRoom_flag_misses_submission :
  let roster := fst (getPlayersInRoom (Scenario.env_active Scenario.bob) 1 []) in
  let p := mkPlayer Scenario.alice 0 false 0 in
  In p roster /\
  hasSubmittedScore p = false /\
  hasSubmitted Scenario.contract_active 2%nat 1 (playerAddress p) = true.
Proof. vm_compute. repeat split. left. reflexivity. Qed.

(** C8, amended: when the roster read throws, [getPlayersInRoom] returns
    the empty roster instead of failing; [submitScore] on an Active room
    then rejects with the not-a-player error, whatever the room's player
    count, and sends no transaction. *)
Theorem roster_read_failure_rejects_as_not_player
        env g roomId score log room log1 :
  gameRoom env = Some g ->
  getRoomDetails env roomId log = (Some room, log1) ->
  status room = Active ->
  getPlayers g (List.length log1) roomId = None ->
  getPlayersInRoom env roomId log1 = ([], (log1 ++ [CallGetPlayers roomId])%list) /\
  submitScore env roomId score log
  = (mkSubmitResult false (Some "You are not a player in this room")
       false true false,
     (log1 ++ [CallGetPlayers roomId])%list).
Proof.
  intros Hg Hroom Hst Hdown.
  assert (Hroster : getPlayersInRoom env roomId log1
                    = ([], (log1 ++ [CallGetPlayers roomId])%list)).
  { unfold getPlayersInRoom. rewrite Hg. unfold bind, call.
    rewrite Hdown. reflexivity. }
  split; [exact Hroster |].
  unfold submitScore. rewrite Hg. unfold bind at 1. rewrite Hroom, Hst.
  change (negb (Active =? 1)) with false. cbv iota.
  unfold bind. rewrite Hroster.
  unfold isPlayer. simpl existsb. rewrite andb_false_r. reflexivity.
Qed.

Lemma roster_read_failure_rejects_as_not_player_witness :
  getPlayersInRoom Scenario.env_roster_down 1 [CallRooms 1]
  = ([], [CallRooms 1; CallGetPlayers 1]) /\
  submitScore Scenario.env_roster_down 1 42 []
  = (mkSubmitResult false (Some "You are not a player in this room")
       false true false,
     [CallRooms 1; CallGetPlayers 1]).
Proof.
  apply (roster_read_failure_rejects_as_not_player Scenario.env_roster_down
           (Scenario.contract_of (fun _ => Scenario.only_room Scenario.active_room)
              (fun _ _ => None) (fun _ _ _ => false))
           1 42 [] Scenario.active_room [CallRooms 1]);
    vm_compute; reflexivity.
Defined.

(** C8 as stated fails: the room holds two players, the roster read throws
    and comes back empty, and the gate rejects the submitter as not being a
    player for that reason alone. *)
Lemma empty_roster_is_rejected_as_not_player :
  0 < Ledger.currentPlayers Scenario.active_room /\
  fst (getPlayersInRoom Scenario.env_roster_down 1 [CallRooms 1]) = [] /\
  Gate.reasonOf (fst (submitScore Scenario.env_roster_down 1 42 []))
  = Some Gate.NotPlayerError.
Proof. vm_compute. repeat split. Qed.

(* ------------------------------------------------------------------ *)
(** ** Rejections and the played flag *)

#[local] Hint Constructors Gate.submit_shape : core.

Lemma submitScoreCatch_shape message : Gate.submit_shape (submitScoreCatch message).
Proof.
  unfold submitScoreCatch. destruct message as [m |]; auto.
  repeat match goal with
         | |- context [if ?b then _ else _] => destruct b
         end; auto.
Qed.

Lemma submitScore_shape env roomId score log :
  Gate.submit_shape (fst (submitScore env roomId score log)).
Proof.
  unfold submitScore. destruct (gameRoom env) as [g |]; [| simpl; auto].
  unfold bind. destruct (getRoomDetails env roomId log) as [[room |] log1];
    [| simpl; auto].
  destruct (negb (status room =? 1)); [simpl; auto |].
  destruct (getPlayersInRoom env roomId log1) as [roster log2].
  destruct (negb (isPlayer (currentUser env) roster)); [simpl; auto |].
  destruct (hasSubmittedIn (currentUser env) roster); [simpl; auto |].
  unfold call.
  destruct (Ledger.submitScore g (List.length log2) roomId score);
    simpl; auto using submitScoreCatch_shape.
Qed.



(** Outside the Active status [handleGameOver] refuses locally: the flag
    keeps its value and the ledger is not called. *)
Lemma handleGameOver_not_active_keeps_flag env score pg session room log :
  gameSessionData pg = Some session ->
  truthy_id (roomId session) = Some room ->
  sessionStatus session <> Active ->
  hasPlayedInRoom (fst (handleGameOver env score pg log)) = hasPlayedInRoom pg /\
  snd (handleGameOver env score pg log) = log.
Proof.
  intros Hs Hid Hst. unfold handleGameOver. rewrite Hs, Hid.
  unfold Active in Hst.
  destruct (Z.eqb_spec (sessionStatus session) 1) as [E | _]; [contradiction |].
  simpl negb. cbv iota.
  destruct (sessionStatus session =? 0); split; reflexivity.
Qed.

(* ------------------------------------------------------------------ *)
(** ** The rooms of a player *)

Lemma set_add_In (seen : list Z) (x y : Z) :
  In y (JS.set_add seen x) <-> In y seen \/ y = x.
Proof.
  unfold JS.set_add. destruct (existsb (Z.eqb x) seen) eqn:E.
  - apply existsb_exists in E. destruct E as [z [Hz Hxz]].
    apply Z.eqb_eq in Hxz. subst z.
    split; [auto | intros [H | ->]; assumption].
  - rewrite in_app_iff. simpl. intuition.
Qed.

Lemma set_add_NoDup (seen : list Z) (x : Z) :
  NoDup seen -> NoDup (JS.set_add seen x).
Proof.
  intros Hnd. unfold JS.set_add. destruct (existsb (Z.eqb x) seen) eqn:E.
  - assumption.
  - apply NoDup_app; [assumption | repeat constructor; intros [] |].
    intros a Ha [Hxa | []]. subst a.
    assert (existsb (Z.eqb x) seen = true) as E'; [| congruence].
    apply existsb_exists. exists x. split; [assumption | apply Z.eqb_refl].
Qed.

Lemma fold_set_add_NoDup (xs seen : list Z) :
  NoDup seen -> NoDup (fold_left JS.set_add xs seen).
Proof.
  revert seen. induction xs as [| x xs IH]; intros seen Hnd; simpl.
  - assumption.
  - apply IH, set_add_NoDup, Hnd.
Qed.

Lemma fold_set_add_In (xs seen : list Z) (y : Z) :
  In y (fold_left JS.set_add xs seen) <-> In y seen \/ In y xs.
Proof.
  revert seen. induction xs as [| x xs IH]; intros seen; simpl.
  - tauto.
  - rewrite IH, set_add_In. intuition.
Qed.

Lemma array_from_set_NoDup (xs : list Z) : NoDup (JS.array_from_set xs).
Proof. apply fold_set_add_NoDup. constructor. Qed.

Lemma array_from_set_In (xs : list Z) (y : Z) :
  In y (JS.array_from_set xs) <-> In y xs.
Proof. unfold JS.array_from_set. rewrite fold_set_add_In. simpl. tauto. Qed.

(** C10: whatever the ledger answers, the ids returned by [getUserRooms]
    are pairwise distinct and strictly positive; when the ledger read for
    the queried address throws, the result is the empty list. *)
Theorem getUserRooms_positive_distinct env addr log :
  let ids := fst (getUserRooms env addr log) in
  NoDup ids /\
  Forall (fun i => 0 < i) ids /\
  (forall g a,
      gameRoom env = Some g ->
      addressOrUser env addr = Some a ->
      getPlayerRooms g (List.length log) a = None ->
      ids = []).
Proof.
  unfold getUserRooms.
  destruct (gameRoom env) as [g |];
    [| simpl; repeat split; auto using NoDup_nil].
  destruct (addressOrUser env addr) as [a |];
    [| simpl; repeat split; auto using NoDup_nil].
  destruct (negb (JS.truthy a));
    [simpl; repeat split; auto using NoDup_nil |].
  unfold bind, call.
  destruct (getPlayerRooms g (List.length log) a) as [raw |] eqn:Hread;
    [| simpl; repeat split; auto using NoDup_nil].
  destruct (toNumbers raw) as [rawRoomIds |];
    [| simpl; repeat split; auto using NoDup_nil].
  cbn [ret fst]. split; [apply array_from_set_NoDup | split].
  - apply Forall_forall. intros i Hi.
    apply array_from_set_In, filter_In in Hi. destruct Hi as [_ Hpos].
    apply Z.ltb_lt, Hpos.
  - intros g' a' Hg Ha Hdown.
    injection Hg as <-. injection Ha as <-. congruence.
Qed.

(** A failing read gives the empty list; a raw answer with zeros and
    repetitions gives the distinct positive ids in their first order. *)
Lemma getUserRooms_positive_distinct_witness :
  fst (getUserRooms (Scenario.env_rooms_raw None) None []) = [] /\
  fst (getUserRooms (Scenario.env_rooms_raw (Some [3; 0; 3; 7; 0; 7; 5])) None [])
  = [3; 7; 5].
Proof.
  split.
  - destruct (getUserRooms_positive_distinct (Scenario.env_rooms_raw None) None [])
      as [_ [_ Hdown]].
    eapply Hdown; reflexivity.
  - vm_compute. reflexivity.
Defined.

(* ------------------------------------------------------------------ *)
(** ** Completion polls *)

Lemma checkGameResult_intervals env room pg :
  intervals (checkGameResult env room pg) = intervals pg.
Proof.
  unfold checkGameResult.
  repeat match goal with
         | |- context [if ?b then _ else _] => destruct b
         end; reflexivity.
Qed.

Lemma checkGameResult_counts env room pg :
  status room = Completed ->
  resultChecks (checkGameResult env room pg) = S (resultChecks pg).
Proof.
  intros Hst. unfold checkGameResult. rewrite Hst.
  change (negb (Completed =? 2)) with false. cbv iota.
  repeat match goal with
         | |- context [if ?b then _ else _] => destruct b
         end; reflexivity.
Qed.

Lemma submissionFailed_intervals result pg :
  intervals (submissionFailed result pg) = intervals pg.
Proof.
  unfold submissionFailed.
  repeat match goal with
         | |- context [if ?b then _ else _] => destruct b
         | |- context [match ?o with Some _ => _ | None => _ end] => destruct o
         end; reflexivity.
Qed.

(** [handleGameOver] clears no interval and starts at most one. *)
Lemma handleGameOver_keeps_intervals env score pg log :
  exists started,
    intervals (fst (handleGameOver env score pg log))
    = (intervals pg ++ started)%list /\
    (List.length started <= 1)%nat.
Proof.
  assert (Hnone : forall l : list Interval,
             exists started, l = (l ++ started)%list /\
                             (List.length started <= 1)%nat).
  { intros l. exists []. rewrite app_nil_r. auto. }
  unfold handleGameOver.
  destruct (gameSessionData pg) as [session |]; [| apply Hnone].
  destruct (truthy_id (roomId session)) as [room |]; [| apply Hnone].
  destruct (negb (sessionStatus session =? 1)).
  { destruct (sessionStatus session =? 0); apply Hnone. }
  unfold bind.
  destruct (submitScore env room score log) as [result log1].
  destruct (success result).
  - destruct (getRoomDetails env room log1) as [[updated |] log2];
      [| apply Hnone].
    destruct (getPlayersInRoom env room log2) as [roster log3].
    destruct (status updated =? 2).
    + cbn [ret fst]. rewrite checkGameResult_intervals.
      destruct (forallb hasSubmittedScore roster); apply Hnone.
    + cbn [ret fst].
      destruct (forallb hasSubmittedScore roster); cbn;
        eexists; (split; [reflexivity | simpl; lia]).
  - cbn [ret fst]. rewrite submissionFailed_intervals. apply Hnone.
Qed.

Lemma checkGameResult_announces env room pg :
  status room = Completed ->
  exists n,
    notifications (checkGameResult env room pg)
    = (notifications pg ++ [n])%list.
Proof.
  intros Hst. unfold checkGameResult. rewrite Hst.
  change (negb (Completed =? 2)) with false. cbv iota.
  repeat match goal with
         | |- context [if ?b then _ else _] => destruct b
         end; eexists; reflexivity.
Qed.

Lemma find_handle_filter_same h (l : list Interval) :
  find (fun i => Nat.eqb (handle i) h)
       (filter (fun i => negb (Nat.eqb (handle i) h)) l) = None.
Proof.
  induction l as [| i l IH]; simpl; [reflexivity |].
  destruct (Nat.eqb (handle i) h) eqn:E; simpl; [exact IH |].
  rewrite E. exact IH.
Qed.

Lemma find_handle_filter_other h h' (l : list Interval) :
  h' <> h ->
  find (fun i => Nat.eqb (handle i) h')
       (filter (fun i => negb (Nat.eqb (handle i) h)) l)
  = find (fun i => Nat.eqb (handle i) h') l.
Proof.
  intros Hne. induction l as [| i l IH]; simpl; [reflexivity |].
  destruct (Nat.eqb_spec (handle i) h) as [E | N]; simpl.
  - destruct (Nat.eqb_spec (handle i) h') as [E' | _]; [congruence | exact IH].
  - rewrite IH. reflexivity.
Qed.

(** What a tick does, case by case. *)
Lemma watcherTick_completed env h pg log i room log1 :
  find (fun i => Nat.eqb (handle i) h) (intervals pg) = Some i ->
  getRoomDetails env (watched i) log = (Some room, log1) ->
  status room = Completed ->
  watcherTick env h pg log
  = (clearInterval h (checkGameResult env room pg), log1).
Proof.
  intros Hfind Hread Hst. unfold watcherTick. rewrite Hfind.
  unfold bind. rewrite Hread, Hst. reflexivity.
Qed.

Lemma watcherTick_idle env h pg log :
  (forall i room log1,
      find (fun i => Nat.eqb (handle i) h) (intervals pg) = Some i ->
      getRoomDetails env (watched i) log = (Some room, log1) ->
      status room <> Completed) ->
  fst (watcherTick env h pg log) = pg.
Proof.
  intros Hidle. unfold watcherTick.
  destruct (find (fun i => Nat.eqb (handle i) h) (intervals pg)) as [i |];
    [| reflexivity].
  unfold bind.
  destruct (getRoomDetails env (watched i) log) as [[room |] log1] eqn:Hread;
    [| reflexivity].
  destruct (Z.eqb_spec (status room) 2) as [E | _]; [| reflexivity].
  exfalso. exact (Hidle i room log1 eq_refl Hread E).
Qed.

Lemma watcherTick_intervals env h pg log :
  intervals (fst (watcherTick env h pg log)) = intervals pg \/
  intervals (fst (watcherTick env h pg log))
  = filter (fun i => negb (Nat.eqb (handle i) h)) (intervals pg).
Proof.
  unfold watcherTick.
  destruct (find (fun i => Nat.eqb (handle i) h) (intervals pg)) as [i |];
    [| left; reflexivity].
  unfold bind.
  destruct (getRoomDetails env (watched i) log) as [[room |] log1];
    [| left; reflexivity].
  destruct (status room =? 2); [| left; reflexivity].
  right. cbn. rewrite checkGameResult_intervals. reflexivity.
Qed.

(** C6, amended: every poll loop is started by an accepted submission and
    ended by itself alone.
    - [handleGameOver] keeps every running interval;
    - when the score is accepted and the room read afterwards is not yet
      Completed, it adds exactly one interval, with a fresh handle, for
      that room;
    - the tick of a running interval that reads the room as Completed runs
      [checkGameResult] once (one more check, one more notification) and
      clears that interval, which never fires again;
    - every other tick leaves the page as it is;
    - the timeout of an interval clears that interval;
    - a tick or the timeout of one interval leaves every other interval
      running;
    - so two running intervals that both read the room as Completed
      announce the result twice. *)
Theorem poll_loops_end_only_by_themselves env :
  (forall score pg log,
      exists started,
        intervals (fst (handleGameOver env score pg log))
        = (intervals pg ++ started)%list /\
        (List.length started <= 1)%nat) /\
  (forall score pg log session room result log1 updated log2,
      gameSessionData pg = Some session ->
      truthy_id (roomId session) = Some room ->
      sessionStatus session = Active ->
      submitScore env room score log = (result, log1) ->
      success result = true ->
      getRoomDetails env room log1 = (Some updated, log2) ->
      status updated <> Completed ->
      intervals (fst (handleGameOver env score pg log))
      = (intervals pg ++ [mkInterval (nextHandle pg) room])%list /\
      nextHandle (fst (handleGameOver env score pg log)) = S (nextHandle pg)) /\
  (forall h pg log i room log1,
      find (fun i => Nat.eqb (handle i) h) (intervals pg) = Some i ->
      getRoomDetails env (watched i) log = (Some room, log1) ->
      status room = Completed ->
      watcherTick env h pg log
      = (clearInterval h (checkGameResult env room pg), log1) /\
      intervals (fst (watcherTick env h pg log))
      = filter (fun i => negb (Nat.eqb (handle i) h)) (intervals pg) /\
      find (fun i => Nat.eqb (handle i) h)
           (intervals (fst (watcherTick env h pg log))) = None /\
      resultChecks (fst (watcherTick env h pg log)) = S (resultChecks pg) /\
      exists n,
        notifications (fst (watcherTick env h pg log))
        = (notifications pg ++ [n])%list) /\
  (forall h pg log,
      (forall i room log1,
          find (fun i => Nat.eqb (handle i) h) (intervals pg) = Some i ->
          getRoomDetails env (watched i) log = (Some room, log1) ->
          status room <> Completed) ->
      fst (watcherTick env h pg log) = pg) /\
  (forall h pg,
      watcherTimeout h pg = clearInterval h pg /\
      intervals (watcherTimeout h pg)
      = filter (fun i => negb (Nat.eqb (handle i) h)) (intervals pg) /\
      resultChecks (watcherTimeout h pg) = resultChecks pg /\
      notifications (watcherTimeout h pg) = notifications pg) /\
  (forall h h' pg log,
      h' <> h ->
      find (fun i => Nat.eqb (handle i) h')
           (intervals (fst (watcherTick env h pg log)))
      = find (fun i => Nat.eqb (handle i) h') (intervals pg) /\
      find (fun i => Nat.eqb (handle i) h') (intervals (watcherTimeout h pg))
      = find (fun i => Nat.eqb (handle i) h') (intervals pg)) /\
  (forall h h' pg log i i' room log1 room' log2,
      h' <> h ->
      find (fun i => Nat.eqb (handle i) h) (intervals pg) = Some i ->
      find (fun i => Nat.eqb (handle i) h') (intervals pg) = Some i' ->
      getRoomDetails env (watched i) log = (Some room, log1) ->
      status room = Completed ->
      getRoomDetails env (watched i') log1 = (Some room', log2) ->
      status room' = Completed ->
      let pg1 := fst (watcherTick env h pg log) in
      let pg2 := fst (watcherTick env h' pg1 log1) in
      resultChecks pg2 = S (S (resultChecks pg)) /\
      (exists n n',
          notifications pg2 = (notifications pg ++ [n; n'])%list) /\
      find (fun i => Nat.eqb (handle i) h) (intervals pg2) = None /\
      find (fun i => Nat.eqb (handle i) h') (intervals pg2) = None).
Proof.
  assert (Htick : forall h pg log i room log1,
             find (fun i => Nat.eqb (handle i) h) (intervals pg) = Some i ->
             getRoomDetails env (watched i) log = (Some room, log1) ->
             status room = Completed ->
             watcherTick env h pg log
             = (clearInterval h (checkGameResult env room pg), log1) /\
             intervals (fst (watcherTick env h pg log))
             = filter (fun i => negb (Nat.eqb (handle i) h)) (intervals pg) /\
             find (fun i => Nat.eqb (handle i) h)
                  (intervals (fst (watcherTick env h pg log))) = None /\
             resultChecks (fst (watcherTick env h pg log))
             = S (resultChecks pg) /\
             exists n,
               notifications (fst (watcherTick env h pg log))
               = (notifications pg ++ [n])%list).
  { intros h pg log i room log1 Hfind Hread Hst.
    rewrite (watcherTick_completed _ _ _ _ _ _ _ Hfind Hread Hst).
    cbn [fst clearInterval intervals resultChecks notifications].
    rewrite checkGameResult_intervals.
    split; [reflexivity |]. split; [reflexivity |].
    split; [apply find_handle_filter_same |].
    split; [apply checkGameResult_counts, Hst |].
    apply checkGameResult_announces, Hst. }
  assert (Hother : forall h h' pg log,
             h' <> h ->
             find (fun i => Nat.eqb (handle i) h')
                  (intervals (fst (watcherTick env h pg log)))
             = find (fun i => Nat.eqb (handle i) h') (intervals pg)).
  { intros h h' pg log Hne.
    destruct (watcherTick_intervals env h pg log) as [-> | ->];
      [reflexivity | apply find_handle_filter_other, Hne]. }
  split; [intros; apply handleGameOver_keeps_intervals |].
  split.
  { intros score pg log session room result log1 updated log2
           Hsession Hid Hactive Hsubmit Hok Hread Hst.
    unfold handleGameOver. rewrite Hsession, Hid, Hactive.
    change (negb (Active =? 1)) with false. cbv iota.
    unfold bind. rewrite Hsubmit, Hok, Hread.
    destruct (getPlayersInRoom env room log2) as [roster log3].
    unfold Completed in Hst.
    destruct (Z.eqb_spec (status updated) 2) as [E | _]; [contradiction |].
    cbn [ret fst].
    destruct (forallb hasSubmittedScore roster); cbn; split; reflexivity. }
  split; [exact Htick |].
  split; [intros h pg log; apply watcherTick_idle |].
  split; [intros h pg; repeat split |].
  split.
  { intros h h' pg log Hne. split; [apply Hother, Hne |].
    apply find_handle_filter_other, Hne. }
  intros h h' pg log i i' room log1 room' log2
         Hne Hfind Hfind' Hread Hst Hread' Hst' pg1 pg2.
  destruct (Htick h pg log i room log1 Hfind Hread Hst)
    as (_ & _ & Hgone & Hchecks & n & Hnote).
  assert (Hfind1 : find (fun i => Nat.eqb (handle i) h') (intervals pg1)
                   = Some i').
  { subst pg1. rewrite (Hother h h' pg log Hne). exact Hfind'. }
  destruct (Htick h' pg1 log1 i' room' log2 Hfind1 Hread' Hst')
    as (_ & _ & Hgone' & Hchecks' & n' & Hnote').
  fold pg2 in Hgone', Hchecks', Hnote'. fold pg1 in Hgone, Hchecks, Hnote.
  split; [rewrite Hchecks', Hchecks; reflexivity |].
  split.
  { exists n, n'. rewrite Hnote', Hnote, <- app_assoc. reflexivity. }
  split; [| exact Hgone'].
  subst pg2. rewrite (Hother h' h pg1 log1 (not_eq_sym Hne)). exact Hgone.
Qed.

(** The instance of the bullets above on the room of three: alice's
    accepted score starts interval 0 and bob's interval 1; once the room
    is Completed the tick of interval 1 clears interval 1 only, and the
    ticks of both announce the result twice. *)
Lemma poll_loops_end_only_by_themselves_witness :
  let pg1 := fst (handleGameOver (Scenario.env_trio Scenario.alice) 120
                    Scenario.page_trio []) in
  let log1 := snd (handleGameOver (Scenario.env_trio Scenario.alice) 120
                     Scenario.page_trio []) in
  let pg2 := fst Scenario.two_submissions in
  let log2 := snd Scenario.two_submissions in
  intervals pg1 = [mkInterval 0 1] /\
  intervals pg2 = [mkInterval 0 1; mkInterval 1 1] /\
  intervals (fst (watcherTick (Scenario.env_trio Scenario.bob) 1 pg2 log2))
  = [mkInterval 0 1] /\
  resultChecks (fst Scenario.two_ticks) = 2%nat /\
  intervals (fst Scenario.two_ticks) = [].
Proof.
  intros pg1 log1 pg2 log2.
  destruct (poll_loops_end_only_by_themselves (Scenario.env_trio Scenario.alice))
    as (_ & Hstart & _).
  destruct (poll_loops_end_only_by_themselves (Scenario.env_trio Scenario.bob))
    as (_ & Hstart' & Htick & _ & _ & _ & Htwo).
  split.
  { apply (Hstart 120 Scenario.page_trio [] Scenario.session_trio 1
             (fst (submitScore (Scenario.env_trio Scenario.alice) 1 120 []))
             (snd (submitScore (Scenario.env_trio Scenario.alice) 1 120 []))
             Scenario.trio_active
             (snd (getRoomDetails (Scenario.env_trio Scenario.alice) 1
                     (snd (submitScore (Scenario.env_trio Scenario.alice)
                             1 120 [])))));
      vm_compute; try reflexivity; discriminate. }
  split.
  { apply (Hstart' 90 pg1 log1 Scenario.session_trio 1
             (fst (submitScore (Scenario.env_trio Scenario.bob) 1 90 log1))
             (snd (submitScore (Scenario.env_trio Scenario.bob) 1 90 log1))
             Scenario.trio_active
             (snd (getRoomDetails (Scenario.env_trio Scenario.bob) 1
                     (snd (submitScore (Scenario.env_trio Scenario.bob)
                             1 90 log1)))));
      vm_compute; try reflexivity; discriminate. }
  split.
  { apply (Htick 1%nat pg2 log2 (mkInterval 1 1) Scenario.trio_completed
             (log2 ++ [CallRooms 1])%list); vm_compute; reflexivity. }
  destruct (Htwo 0%nat 1%nat pg2 log2 (mkInterval 0 1) (mkInterval 1 1)
              Scenario.trio_completed (log2 ++ [CallRooms 1])%list
              Scenario.trio_completed
              (log2 ++ [CallRooms 1; CallRooms 1])%list)
    as (Hchecks & _ & Hgone & Hgone').
  - discriminate.
  - vm_compute; reflexivity.
  - vm_compute; reflexivity.
  - vm_compute; reflexivity.
  - reflexivity.
  - vm_compute; reflexivity.
  - reflexivity.
  - split; vm_compute; reflexivity.
Defined.

(** C6 as stated fails: after two accepted submissions for room 1 from one
    browser two intervals poll that room; once the room has completed each
    of them runs [checkGameResult], so the result is announced twice. *)
Lemma restart_leaves_two_poll_loops :
  intervals (fst Scenario.two_submissions)
  = [mkInterval 0 1; mkInterval 1 1] /\
  resultChecks (fst Scenario.two_ticks) = 2%nat /\
  filter (fun n => String.eqb (message n) "The winner is 0xCA50...0003")
         (notifications (fst Scenario.two_ticks))
  = [mkNotification n_info "The winner is 0xCA50...0003";
     mkNotification n_info "The winner is 0xCA50...0003"].
Proof. vm_compute. repeat split. Qed.

(* ------------------------------------------------------------------ *)
(** ** The room list *)

(** C7, on a ledger with two filling rooms, room 1 created ten minutes ago
    and room 2 five minutes ago: [loadActiveRooms] lists room 1 before
    room 2, the older room first, although room 2 has the later creation
    time. *)
Theorem loadActiveRooms_lists_older_room_first :
  map sid (fst (loadActiveRooms Scenario.env_two_rooms Scenario.now [])) = [1; 2] /\
  map time (fst (loadActiveRooms Scenario.env_two_rooms Scenario.now []))
  = ["10 min ago"; "5 min ago"] /\
  creationTime Scenario.older_room < creationTime Scenario.newer_room /\
  byTime (mkSummary 1 "" 0 "" "10 min ago" "")
         (mkSummary 2 "" 0 "" "5 min ago" "") = -5.
Proof. vm_compute. repeat split. Qed.

(** The parts of C7 that hold on every ledger follow. *)

Lemma run_end_app {A} (cmp : A -> A -> Z) d prev (l : list A) :
  (fst (JS.run_end cmp d prev l) ++ snd (JS.run_end cmp d prev l))%list = l.
Proof.
  revert prev. induction l as [| cur l IH]; intros prev; simpl; [reflexivity |].
  destruct (if d then cmp cur prev <? 0 else 0 <=? cmp cur prev);
    [| reflexivity].
  specialize (IH cur). destruct (JS.run_end cmp d cur l) as [run rest].
  simpl in *. rewrite IH. reflexivity.
Qed.

Lemma count_and_make_run_perm {A} (cmp : A -> A -> Z) (l : list A) :
  Permutation (fst (JS.count_and_make_run cmp l)
                 ++ snd (JS.count_and_make_run cmp l))%list l.
Proof.
  unfold JS.count_and_make_run.
  destruct l as [| x0 [| x1 l]]; simpl; try apply Permutation_refl.
  pose proof (run_end_app cmp (cmp x1 x0 <? 0) x1 l) as Happ.
  destruct (JS.run_end cmp (cmp x1 x0 <? 0) x1 l) as [run rest].
  cbn [fst snd] in *.
  assert (Hl : (x0 :: x1 :: l = (x0 :: x1 :: run) ++ rest)%list)
    by (rewrite <- Happ; reflexivity).
  rewrite Hl. apply Permutation_app_tail.
  destruct (cmp x1 x0 <? 0); [| apply Permutation_refl].
  apply Permutation_sym, Permutation_rev.
Qed.

Lemma binary_insert_perm {A} (cmp : A -> A -> Z) (a : list A) (pivot : A) :
  Permutation (JS.binary_insert cmp a pivot) (pivot :: a).
Proof.
  unfold JS.binary_insert.
  set (left := JS.binary_search _ _ _ _ _ _).
  rewrite <- (firstn_skipn left a) at 3.
  apply Permutation_sym, Permutation_middle.
Qed.

Lemma fold_binary_insert_perm {A} (cmp : A -> A -> Z) (rest run : list A) :
  Permutation (fold_left (JS.binary_insert cmp) rest run) (run ++ rest)%list.
Proof.
  revert run. induction rest as [| x rest IH]; intros run; simpl.
  - rewrite app_nil_r. apply Permutation_refl.
  - rewrite IH. rewrite binary_insert_perm.
    apply Permutation_middle.
Qed.

Lemma sort_perm {A} (cmp : A -> A -> Z) (l : list A) :
  Permutation (JS.sort cmp l) l.
Proof.
  unfold JS.sort.
  pose proof (count_and_make_run_perm cmp l) as H.
  destruct (JS.count_and_make_run cmp l) as [run rest]. cbn [fst snd] in H.
  rewrite fold_binary_insert_perm. exact H.
Qed.

Lemma map_set_In {V} (m : list (Z * V)) (k : Z) (v : V) (e : Z * V) :
  In e (JS.map_set m k v) -> e = (k, v) \/ In e m.
Proof.
  induction m as [| [k' v'] m IH]; simpl.
  - intros [H | []]; auto.
  - destruct (k =? k'); simpl; intros [H | H]; auto.
    destruct (IH H); auto.
Qed.

Lemma map_set_keys {V} (m : list (Z * V)) (k : Z) (v : V) (j : Z) :
  In j (map fst (JS.map_set m k v)) -> j = k \/ In j (map fst m).
Proof.
  induction m as [| [k' v'] m IH]; simpl.
  - intros [H | []]; auto.
  - destruct (k =? k'); simpl; intros [H | H]; auto.
    destruct (IH H); auto.
Qed.

Lemma map_set_keys_NoDup {V} (m : list (Z * V)) (k : Z) (v : V) :
  NoDup (map fst m) -> NoDup (map fst (JS.map_set m k v)).
Proof.
  induction m as [| [k' v'] m IH]; simpl; intros Hnd.
  - repeat constructor. intros [].
  - inversion Hnd as [| ? ? Hnotin Hnd']; subst.
    destruct (Z.eqb_spec k k') as [-> | Hne]; simpl.
    + constructor; assumption.
    + constructor; [| apply IH, Hnd'].
      intros Hin. apply map_set_keys in Hin. destruct Hin; [congruence | auto].
Qed.

(** An insertion-ordered map built from entries: distinct keys, and every
    binding is one of the entries. *)
Lemma map_of_entries_spec {V} (es : list (Z * V)) :
  NoDup (map fst (JS.map_of_entries es)) /\
  (forall e, In e (JS.map_of_entries es) -> In e es).
Proof.
  unfold JS.map_of_entries.
  assert (G : forall (m : list (Z * V)),
             NoDup (map fst m) ->
             NoDup (map fst (fold_left (fun m e => JS.map_set m (fst e) (snd e)) es m)) /\
             (forall e, In e (fold_left (fun m e => JS.map_set m (fst e) (snd e)) es m) ->
                        In e m \/ In e es)).
  { induction es as [| [k v] es IH]; intros m Hnd; simpl.
    - auto.
    - destruct (IH (JS.map_set m k v) (map_set_keys_NoDup m k v Hnd)) as [H1 H2].
      split; [exact H1 |]. intros e He. destruct (H2 e He) as [H | H]; auto.
      apply map_set_In in H. destruct H as [-> | H]; auto. }
  destruct (G [] (NoDup_nil _)) as [H1 H2]. split; [exact H1 |].
  intros e He. destruct (H2 e He) as [[] | H]; exact H.
Qed.

Lemma getRoomDetails_origin env i log room log' :
  getRoomDetails env i log = (Some room, log') ->
  exists g, gameRoom env = Some g /\ rooms g (List.length log) i = Some room.
Proof.
  unfold getRoomDetails. destruct (gameRoom env) as [g |]; [| discriminate].
  destruct (invalidRoomId i); [discriminate |].
  unfold bind, call, ret.
  destruct (rooms g (List.length log) i) as [r |] eqn:Hr; [| discriminate].
  intros H. injection H as Hfmt _. exists g. split; [reflexivity |].
  unfold formatRoom in Hfmt.
  repeat match type of Hfmt with
         | context [match ?x with _ => _ end] => destruct x
         end; congruence.
Qed.

Lemma mapM_getRoomDetails_origin env ids log room :
  In (Some room) (fst (mapM (getRoomDetails env) ids log)) ->
  exists g t i, gameRoom env = Some g /\ rooms g t i = Some room.
Proof.
  revert log. induction ids as [| i ids IH]; intros log; simpl.
  - intros [].
  - unfold bind.
    destruct (getRoomDetails env i log) as [r log1] eqn:Hr.
    destruct (mapM (getRoomDetails env) ids log1) as [rs log2] eqn:Hrs.
    simpl. intros [H | H].
    + subst r. apply getRoomDetails_origin in Hr. destruct Hr as [g [Hg Hroom]].
      eauto.
    + apply (IH log1). rewrite Hrs. exact H.
Qed.

Lemma validRooms_listed env now ids log :
  Forall (listed_from_filling env now)
         (validRooms now (fst (mapM (getRoomDetails env) ids log))).
Proof.
  apply Forall_forall. intros s Hs. unfold validRooms in Hs.
  apply filter_some_In, in_map_iff in Hs. destruct Hs as [room [Hsum Hin]].
  apply filter_In in Hin. destruct Hin as [Hin Hst].
  apply filter_some_In, mapM_getRoomDetails_origin in Hin.
  destruct Hin as [g [t [i [Hg Hroom]]]].
  exists g, t, i, room. apply Z.eqb_eq in Hst. auto.
Qed.

Lemma loadBatches_listed env now fuel i acc log :
  Forall (listed_from_filling env now) acc ->
  Forall (listed_from_filling env now)
         (fst (loadBatches env now fuel i acc log)).
Proof.
  revert i acc log. induction fuel as [| fuel IH]; intros i acc log Hacc.
  - exact Hacc.
  - cbn [loadBatches].
    destruct (i <? List.length roomIds)%nat; [| exact Hacc].
    unfold bind.
    pose proof (validRooms_listed env now (firstn batchSize (skipn i roomIds)) log)
      as Hbatch.
    destruct (mapM (getRoomDetails env) (firstn batchSize (skipn i roomIds)) log)
      as [batchResults log1].
    apply IH, Forall_app. split; [exact Hacc | exact Hbatch].
Qed.

(** On every ledger, and whichever reads throw, [loadActiveRooms] returns a
    list whose entries all come from rooms reported as Filling and whose
    ids are pairwise distinct. *)
Lemma loadActiveRooms_filling_distinct env now log :
  Forall (listed_from_filling env now) (fst (loadActiveRooms env now log)) /\
  NoDup (map sid (fst (loadActiveRooms env now log))).
Proof.
  unfold loadActiveRooms, bind.
  pose proof (loadBatches_listed env now (List.length roomIds) 0 [] log
                (Forall_nil _)) as Hlisted.
  destruct (loadBatches env now (List.length roomIds) 0 [] log)
    as [fillingRooms log1].
  cbn [fst ret] in *.
  set (es := map (fun room => (sid room, room)) fillingRooms).
  destruct (map_of_entries_spec es) as [Hnd Hsub].
  assert (Hkey : forall e, In e (JS.map_of_entries es) ->
                           fst e = sid (snd e) /\ In (snd e) fillingRooms).
  { intros e He. apply Hsub in He. unfold es in He.
    apply in_map_iff in He. destruct He as [r [<- Hr]]. auto. }
  split.
  - apply Forall_forall. intros s Hs.
    apply (Permutation_in _ (sort_perm byTime _)) in Hs.
    unfold JS.map_values in Hs. apply in_map_iff in Hs.
    destruct Hs as [e [<- He]].
    rewrite Forall_forall in Hlisted. apply Hlisted, (Hkey e He).
  - apply (Permutation_NoDup
             (Permutation_map sid (Permutation_sym (sort_perm byTime _)))).
    unfold JS.map_values. rewrite map_map.
    rewrite (map_ext_in _ fst); [exact Hnd |].
    intros e He. symmetry. apply (Hkey e He).
Qed.

(* ================================================================== *)
(** * Further properties of the hook and of the page *)

(* ------------------------------------------------------------------ *)
(** ** Reads of the hook *)

Lemma toNumber_safe (bn n : Z) :
  JS.toNumber bn = Some n -> n = bn /\ 0 <= bn <= JS.MAX_SAFE_INTEGER.
Proof.
  unfold JS.toNumber.
  destruct (0 <=? bn) eqn:E1; [| discriminate].
  destruct (bn <=? JS.MAX_SAFE_INTEGER) eqn:E2; [| discriminate].
  simpl. intros H. injection H as <-.
  apply Z.leb_le in E1. apply Z.leb_le in E2. auto.
Qed.

Lemma formatRoom_safe (room room' : Room) :
  formatRoom room = Some room' ->
  room' = room /\
  0 <= id room <= JS.MAX_SAFE_INTEGER /\
  0 <= Ledger.maxPlayers room <= JS.MAX_SAFE_INTEGER /\
  0 <= currentPlayers room <= JS.MAX_SAFE_INTEGER /\
  0 <= creationTime room <= JS.MAX_SAFE_INTEGER /\
  0 <= expirationTime room <= JS.MAX_SAFE_INTEGER.
Proof.
  unfold formatRoom.
  destruct (JS.toNumber (id room)) eqn:E1; [| discriminate].
  destruct (JS.toNumber (Ledger.maxPlayers room)) eqn:E2; [| discriminate].
  destruct (JS.toNumber (currentPlayers room)) eqn:E3; [| discriminate].
  destruct (JS.toNumber (creationTime room)) eqn:E4; [| discriminate].
  destruct (JS.toNumber (expirationTime room)) eqn:E5; [| discriminate].
  intros H. injection H as <-.
  apply toNumber_safe in E1, E2, E3, E4, E5. intuition.
Qed.

(** X1: a room returned by [getRoomDetails] was asked for with an id
    strictly between 0 and the largest safe integer, cost exactly one
    [rooms] read, is the struct the ledger answered at that moment, and has
    every numeric field inside the safe integer range. *)
Theorem getRoomDetails_answer env roomId log room log' :
  getRoomDetails env roomId log = (Some room, log') ->
  0 < roomId < JS.MAX_SAFE_INTEGER /\
  log' = (log ++ [CallRooms roomId])%list /\
  (exists g, gameRoom env = Some g /\
             rooms g (List.length log) roomId = Some room) /\
  0 <= id room <= JS.MAX_SAFE_INTEGER /\
  0 <= Ledger.maxPlayers room <= JS.MAX_SAFE_INTEGER /\
  0 <= currentPlayers room <= JS.MAX_SAFE_INTEGER /\
  0 <= creationTime room <= JS.MAX_SAFE_INTEGER /\
  0 <= expirationTime room <= JS.MAX_SAFE_INTEGER.
Proof.
  unfold getRoomDetails. destruct (gameRoom env) as [g |]; [| discriminate].
  unfold invalidRoomId.
  destruct (Z.leb_spec roomId 0) as [Hle | Hpos]; [discriminate |].
  destruct (Z.leb_spec JS.MAX_SAFE_INTEGER roomId) as [Hbig | Hsafe];
    [discriminate |].
  cbn [orb]. unfold bind, call, ret.
  destruct (rooms g (List.length log) roomId) as [r |] eqn:Hr; [| discriminate].
  intros H. injection H as Hfmt <-.
  apply formatRoom_safe in Hfmt. destruct Hfmt as [-> Hfields].
  split; [lia | split; [reflexivity | split; [eauto | exact Hfields]]].
Qed.

Lemma getRoomDetails_answer_witness :
  0 < 1 < JS.MAX_SAFE_INTEGER /\
  [CallRooms 1] = ([] ++ [CallRooms 1])%list /\
  (exists g, gameRoom Scenario.env_filling = Some g /\
             rooms g 0%nat 1 = Some Scenario.filling_room) /\
  0 <= id Scenario.filling_room <= JS.MAX_SAFE_INTEGER /\
  0 <= Ledger.maxPlayers Scenario.filling_room <= JS.MAX_SAFE_INTEGER /\
  0 <= currentPlayers Scenario.filling_room <= JS.MAX_SAFE_INTEGER /\
  0 <= creationTime Scenario.filling_room <= JS.MAX_SAFE_INTEGER /\
  0 <= expirationTime Scenario.filling_room <= JS.MAX_SAFE_INTEGER.
Proof.
  apply (getRoomDetails_answer Scenario.env_filling 1 [] Scenario.filling_room
           [CallRooms 1]).
  vm_compute. reflexivity.
Defined.

(** X2: an id that is zero, negative or not below the largest safe
    integer never reaches the ledger: [getRoomDetails] answers [null] and
    the call log is unchanged. *)
Theorem getRoomDetails_invalid_id_no_read env roomId log :
  roomId <= 0 \/ JS.MAX_SAFE_INTEGER <= roomId ->
  getRoomDetails env roomId log = (None, log).
Proof.
  intros Hbad. unfold getRoomDetails.
  destruct (gameRoom env) as [g |]; [| reflexivity].
  assert (invalidRoomId roomId = true) as ->; [| reflexivity].
  unfold invalidRoomId. apply orb_true_iff.
  destruct Hbad as [H | H]; [left | right]; apply Z.leb_le, H.
Qed.

Lemma getRoomDetails_invalid_id_no_read_witness :
  getRoomDetails Scenario.env_filling 0 [CallRooms 1] = (None, [CallRooms 1]).
Proof.
  apply (getRoomDetails_invalid_id_no_read Scenario.env_filling 0 [CallRooms 1]).
  left. lia.
Defined.

Lemma filter_some_formatPlayer room raw :
  map playerAddress (filter_some (map (formatPlayer room) raw))
  = filter JS.truthy raw.
Proof.
  induction raw as [| a raw IH]; simpl; [reflexivity |].
  unfold formatPlayer at 1. destruct (JS.truthy a); simpl.
  - rewrite IH. reflexivity.
  - exact IH.
Qed.

(** X3: when the roster read and the room read that follows it both
    succeed, the roster returned by [getPlayersInRoom] lists exactly the
    non-empty addresses the ledger returned, in the ledger's order and
    with their repetitions. *)
Theorem getPlayersInRoom_keeps_ledger_order env g roomId log raw room :
  gameRoom env = Some g ->
  getPlayers g (List.length log) roomId = Some raw ->
  fst (getRoomDetails env roomId (log ++ [CallGetPlayers roomId])%list)
  = Some room ->
  map playerAddress (fst (getPlayersInRoom env roomId log))
  = filter JS.truthy raw.
Proof.
  intros Hg Hraw Hroom. unfold getPlayersInRoom. rewrite Hg.
  unfold bind at 1. unfold call at 1. rewrite Hraw.
  destruct raw as [| a raw]; [reflexivity |].
  unfold bind.
  destruct (getRoomDetails env roomId (log ++ [CallGetPlayers roomId])%list)
    as [r log1].
  simpl in Hroom. subst r. cbn [ret fst].
  apply filter_some_formatPlayer.
Qed.

Lemma getPlayersInRoom_keeps_ledger_order_witness :
  map playerAddress (fst (getPlayersInRoom Cases.env_ragged_roster 1 []))
  = filter JS.truthy [Scenario.alice; ""; Scenario.bob; Scenario.alice].
Proof.
  apply (getPlayersInRoom_keeps_ledger_order Cases.env_ragged_roster
           (Scenario.contract_of
              (fun _ => Scenario.only_room Scenario.active_room)
              (fun _ _ => Some [Scenario.alice; ""; Scenario.bob; Scenario.alice])
              (fun _ _ _ => false))
           1 [] [Scenario.alice; ""; Scenario.bob; Scenario.alice]
           Scenario.active_room);
    vm_compute; reflexivity.
Defined.

Lemma toNumbers_safe raw :
  Forall (fun i => 0 <= i <= JS.MAX_SAFE_INTEGER) raw ->
  toNumbers raw = Some raw.
Proof.
  induction 1 as [| i raw Hi _ IH]; simpl; [reflexivity |].
  unfold JS.toNumber.
  destruct (Z.leb_spec 0 i); [| lia].
  destruct (Z.leb_spec i JS.MAX_SAFE_INTEGER); [| lia].
  simpl. rewrite IH. reflexivity.
Qed.

Lemma toNumbers_overflow raw big :
  In big raw -> JS.MAX_SAFE_INTEGER < big -> toNumbers raw = None.
Proof.
  intros Hin Hbig. induction raw as [| i raw IH]; [contradiction |].
  simpl. destruct Hin as [-> | Hin].
  - unfold JS.toNumber.
    destruct (Z.leb_spec big JS.MAX_SAFE_INTEGER); [lia |].
    rewrite andb_false_r. reflexivity.
  - rewrite (IH Hin). destruct (JS.toNumber i); reflexivity.
Qed.

(** X4: when the ledger answers with ids that all fit a JavaScript
    number, [getUserRooms] loses no room: an id is in the result exactly
    when it is in the ledger's answer and strictly positive. *)
Theorem getUserRooms_keeps_every_positive_id env g addr a log raw :
  gameRoom env = Some g ->
  addressOrUser env addr = Some a ->
  JS.truthy a = true ->
  getPlayerRooms g (List.length log) a = Some raw ->
  Forall (fun i => 0 <= i <= JS.MAX_SAFE_INTEGER) raw ->
  forall i, In i (fst (getUserRooms env addr log)) <-> In i raw /\ 0 < i.
Proof.
  intros Hg Ha Hta Hraw Hsafe i.
  unfold getUserRooms. rewrite Hg, Ha, Hta.
  change (negb true) with false. cbv iota.
  unfold bind, call. cbv beta. rewrite Hraw, (toNumbers_safe raw Hsafe).
  cbn [ret fst]. rewrite array_from_set_In, filter_In, Z.ltb_lt. tauto.
Qed.

Lemma getUserRooms_keeps_every_positive_id_witness :
  In 7 (fst (getUserRooms
               (Scenario.env_rooms_raw (Some [3; 0; 3; 7; 0; 7; 5])) None []))
  <-> In 7 [3; 0; 3; 7; 0; 7; 5] /\ 0 < 7.
Proof.
  refine (getUserRooms_keeps_every_positive_id
           (Scenario.env_rooms_raw (Some [3; 0; 3; 7; 0; 7; 5]))
           (mkContract (fun _ _ => None) (fun _ _ => None)
              (fun _ _ => Some [3; 0; 3; 7; 0; 7; 5]) (fun _ _ _ => Mined)
              (fun _ _ => Mined) (fun _ _ _ => false))
           None Scenario.alice [] [3; 0; 3; 7; 0; 7; 5] _ _ _ _ _ 7).
  - reflexivity.
  - reflexivity.
  - reflexivity.
  - reflexivity.
  - repeat constructor; vm_compute; discriminate.
Defined.

(** X5: one id beyond the safe integer range in the ledger's answer makes
    [getUserRooms] return the empty list, the valid rooms with it. *)
Theorem getUserRooms_overflow_empties_list env g addr a log raw big :
  gameRoom env = Some g ->
  addressOrUser env addr = Some a ->
  getPlayerRooms g (List.length log) a = Some raw ->
  In big raw ->
  JS.MAX_SAFE_INTEGER < big ->
  fst (getUserRooms env addr log) = [].
Proof.
  intros Hg Ha Hraw Hin Hbig.
  unfold getUserRooms. rewrite Hg, Ha.
  destruct (negb (JS.truthy a)); [reflexivity |].
  unfold bind, call. cbv beta.
  rewrite Hraw, (toNumbers_overflow raw big Hin Hbig).
  reflexivity.
Qed.

Lemma getUserRooms_overflow_empties_list_witness :
  fst (getUserRooms (Scenario.env_rooms_raw (Some [3; 2 ^ 60; 5])) None []) = [].
Proof.
  apply (getUserRooms_overflow_empties_list
           (Scenario.env_rooms_raw (Some [3; 2 ^ 60; 5]))
           (mkContract (fun _ _ => None) (fun _ _ => None)
              (fun _ _ => Some [3; 2 ^ 60; 5]) (fun _ _ _ => Mined)
              (fun _ _ => Mined) (fun _ _ _ => false))
           None Scenario.alice [] [3; 2 ^ 60; 5] (2 ^ 60)).
  - reflexivity.
  - reflexivity.
  - reflexivity.
  - right. left. reflexivity.
  - vm_compute. reflexivity.
Defined.

(* ------------------------------------------------------------------ *)
(** ** The gate, from the side of the transaction *)

Lemma submitScoreCatch_untagged message :
  exists m, submitScoreCatch message = failure m.
Proof.
  unfold submitScoreCatch. destruct message as [m |]; [| eauto].
  repeat match goal with
         | |- context [if ?b then _ else _] => destruct b
         end; eauto.
Qed.

(** The two ways a run of [submitScore] can go: it stops on reads with a
    failure, or it sends the score after its reads and reports what the
    transaction did. *)
Lemma submitScore_cases env roomId score log result log' :
  submitScore env roomId score log = (result, log') ->
  (exists reads,
      log' = (log ++ reads)%list /\ writes reads = 0%nat /\
      success result = false) \/
  (exists reads,
      log' = (log ++ reads ++ [CallSubmitScore roomId score])%list /\
      writes reads = 0%nat /\
      (result = mkSubmitResult true None false false false \/
       exists m, result = failure m)).
Proof.
  unfold submitScore.
  destruct (gameRoom env) as [g |].
  2:{ intros H. injection H as <- <-. left. exists [].
      rewrite app_nil_r. auto. }
  unfold bind at 1.
  destruct (getRoomDetails_reads_only env roomId log) as [r1 [E1 W1]].
  destruct (getRoomDetails env roomId log) as [[room |] log1]; simpl in E1;
    subst log1.
  2:{ intros H. injection H as <- <-. left. exists r1. auto. }
  destruct (negb (status room =? 1)).
  { intros H. injection H as <- <-. left. exists r1. auto. }
  unfold bind at 1.
  destruct (getPlayersInRoom_reads_only env roomId (log ++ r1)%list)
    as [r2 [E2 W2]].
  destruct (getPlayersInRoom env roomId (log ++ r1)%list) as [roster log2];
    simpl in E2; subst log2.
  assert (W12 : writes (r1 ++ r2) = 0%nat).
  { unfold writes in *. rewrite filter_app, length_app. lia. }
  destruct (negb (isPlayer (currentUser env) roster)).
  { intros H. injection H as <- <-. left. exists (r1 ++ r2)%list.
    rewrite app_assoc. auto. }
  destruct (hasSubmittedIn (currentUser env) roster).
  { intros H. injection H as <- <-. left. exists (r1 ++ r2)%list.
    rewrite app_assoc. auto. }
  unfold bind, call.
  destruct (Ledger.submitScore g _ roomId score) as [| message];
    intros H; injection H as <- <-; right; exists (r1 ++ r2)%list;
    (split; [rewrite <- !app_assoc; reflexivity | split; [exact W12 |]]).
  - left. reflexivity.
  - right. apply submitScoreCatch_untagged.
Qed.

Lemma writes_app (l1 l2 : list Call) :
  writes (l1 ++ l2) = (writes l1 + writes l2)%nat.
Proof. unfold writes. rewrite filter_app, length_app. reflexivity. Qed.

(** X6: one run of [submitScore] sends at most one [submitScore]
    transaction, and a successful result means exactly one was sent. *)
Theorem submitScore_sends_at_most_one_transaction env roomId score log :
  exists calls,
    snd (submitScore env roomId score log) = (log ++ calls)%list /\
    (writes calls <= 1)%nat /\
    (success (fst (submitScore env roomId score log)) = true ->
     writes calls = 1%nat).
Proof.
  destruct (submitScore env roomId score log) as [result log'] eqn:Hrun.
  destruct (submitScore_cases _ _ _ _ _ _ Hrun)
    as [[reads [E [W F]]] | [reads [E [W R]]]];
    unfold fst, snd.
  - exists reads. rewrite F, W.
    split; [exact E | split; [lia | discriminate]].
  - exists (reads ++ [CallSubmitScore roomId score])%list.
    split; [exact E |]. rewrite writes_app, W.
    change (writes [CallSubmitScore roomId score]) with 1%nat.
    split; [lia | reflexivity].
Qed.

Lemma submitScore_sends_at_most_one_transaction_witness :
  exists calls,
    snd (submitScore (Scenario.env_active Scenario.alice) 1 42 [])
    = ([] ++ calls)%list /\
    (writes calls <= 1)%nat /\
    (success (fst (submitScore (Scenario.env_active Scenario.alice) 1 42 []))
     = true ->
     writes calls = 1%nat).
Proof.
  exact (submitScore_sends_at_most_one_transaction
           (Scenario.env_active Scenario.alice) 1 42 []).
Defined.

(** X7: a success of [submitScore] went through the gate: the room it
    read was Active, the user was on the resolved roster without a
    submitted flag, the transaction was mined, and it is the last call of
    the log. *)
Theorem submitScore_accepts_only_through_gate
        env roomId score log result log' :
  submitScore env roomId score log = (result, log') ->
  success result = true ->
  exists g room log1 roster log2,
    gameRoom env = Some g /\
    getRoomDetails env roomId log = (Some room, log1) /\
    status room = Active /\
    getPlayersInRoom env roomId log1 = (roster, log2) /\
    isPlayer (currentUser env) roster = true /\
    hasSubmittedIn (currentUser env) roster = false /\
    Ledger.submitScore g (List.length log2) roomId score = Mined /\
    log' = (log2 ++ [CallSubmitScore roomId score])%list.
Proof.
  unfold submitScore. destruct (gameRoom env) as [g |].
  2:{ intros H. unfold ret in H. injection H as <- _. discriminate. }
  unfold bind at 1.
  destruct (getRoomDetails env roomId log) as [[room |] log1] eqn:Hroom.
  2:{ intros H. unfold ret in H. injection H as <- _. discriminate. }
  destruct (Z.eqb_spec (status room) 1) as [Hst | Hst]; cbn [negb].
  2:{ intros H. unfold ret in H. injection H as <- _. discriminate. }
  unfold bind at 1.
  destruct (getPlayersInRoom env roomId log1) as [roster log2] eqn:Hroster.
  destruct (isPlayer (currentUser env) roster) eqn:Hmem; cbn [negb].
  2:{ intros H. unfold ret in H. injection H as <- _. discriminate. }
  destruct (hasSubmittedIn (currentUser env) roster) eqn:Hsub.
  { intros H. unfold ret in H. injection H as <- _. discriminate. }
  unfold bind, call.
  destruct (Ledger.submitScore g (List.length log2) roomId score)
    as [| message] eqn:Htx.
  - intros H _. unfold ret in H. injection H as _ <-.
    exists g, room, log1, roster, log2. repeat split; auto.
  - intros H Hok. unfold ret in H. injection H as <- _.
    destruct (submitScoreCatch_untagged message) as [m Hm].
    rewrite Hm in Hok. discriminate.
Qed.

Lemma submitScore_accepts_only_through_gate_witness :
  exists g room log1 roster log2,
    gameRoom (Scenario.env_active Scenario.alice) = Some g /\
    getRoomDetails (Scenario.env_active Scenario.alice) 1 [] = (Some room, log1) /\
    status room = Active /\
    getPlayersInRoom (Scenario.env_active Scenario.alice) 1 log1
    = (roster, log2) /\
    isPlayer (currentUser (Scenario.env_active Scenario.alice)) roster = true /\
    hasSubmittedIn (currentUser (Scenario.env_active Scenario.alice)) roster
    = false /\
    Ledger.submitScore g (List.length log2) 1 42 = Mined /\
    [CallRooms 1; CallGetPlayers 1; CallRooms 1; CallSubmitScore 1 42]
    = (log2 ++ [CallSubmitScore 1 42])%list.
Proof.
  apply (submitScore_accepts_only_through_gate
           (Scenario.env_active Scenario.alice) 1 42 []
           (mkSubmitResult true None false false false)
           [CallRooms 1; CallGetPlayers 1; CallRooms 1; CallSubmitScore 1 42]);
    vm_compute; reflexivity.
Defined.

(** X8: when the score was sent and the submission still failed (the
    ledger refused it or the transaction broke), the result carries no
    tag, whatever the ledger's message says, and [handleGameOver] ends with
    [hasPlayedInRoom] false. *)
Theorem refused_transaction_is_untagged
        env score pg session room result log calls :
  gameSessionData pg = Some session ->
  truthy_id (roomId session) = Some room ->
  sessionStatus session = Active ->
  submitScore env room score log = (result, (log ++ calls)%list) ->
  success result = false ->
  writes calls = 1%nat ->
  Gate.reasonOf result = None /\
  hasPlayedInRoom (fst (handleGameOver env score pg log)) = false.
Proof.
  intros Hs Hid Hst Hsub Hfail Hsent.
  assert (Hm : exists m, result = failure m).
  { destruct (submitScore_cases _ _ _ _ _ _ Hsub)
      as [[reads [E [W _]]] | [reads [_ [_ [R | R]]]]].
    - apply app_inv_head in E. subst calls. rewrite W in Hsent. discriminate.
    - subst result. discriminate.
    - exact R. }
  destruct Hm as [m ->]. split; [reflexivity |].
  unfold handleGameOver. rewrite Hs, Hid, Hst.
  change (negb (Active =? 1)) with false. cbv iota.
  unfold bind. rewrite Hsub. reflexivity.
Qed.

(** The ledger refuses alice's score as already submitted: the page
    clears the played flag all the same. *)
Lemma refused_transaction_is_untagged_witness :
  Gate.reasonOf (failure "You have already submitted a score for this room")
  = None /\
  hasPlayedInRoom
    (fst (handleGameOver
            (Cases.env_refusing (Some "execution reverted: already submitted"))
            42 Cases.page_active [])) = false.
Proof.
  apply (refused_transaction_is_untagged
           (Cases.env_refusing (Some "execution reverted: already submitted"))
           42 Cases.page_active Cases.session_active 1
           (failure "You have already submitted a score for this room") []
           [CallRooms 1; CallGetPlayers 1; CallRooms 1; CallSubmitScore 1 42]);
    vm_compute; reflexivity.
Defined.

(* ------------------------------------------------------------------ *)
(** ** [handleGameOver] *)

Lemma checkGameResult_keeps_session env room pg :
  hasPlayedInRoom (checkGameResult env room pg) = hasPlayedInRoom pg /\
  gameScore (checkGameResult env room pg) = gameScore pg /\
  gameSessionData (checkGameResult env room pg) = gameSessionData pg /\
  nextHandle (checkGameResult env room pg) = nextHandle pg.
Proof.
  unfold checkGameResult.
  repeat match goal with
         | |- context [if ?b then _ else _] => destruct b
         end; repeat split.
Qed.

(** X9: after an accepted submission [handleGameOver] has marked the
    room as played and kept the score.  If the room cannot be read again
    nothing else changes; if it is read as Completed the result is checked
    at once and no poll starts; otherwise exactly one poll for that room is
    added, under a fresh handle.  In both of the last cases the session
    takes the status just read. *)
Theorem accepted_submission_marks_played_and_polls
        env score pg session room result log log1 :
  gameSessionData pg = Some session ->
  truthy_id (roomId session) = Some room ->
  sessionStatus session = Active ->
  submitScore env room score log = (result, log1) ->
  success result = true ->
  let pg' := fst (handleGameOver env score pg log) in
  hasPlayedInRoom pg' = true /\
  gameScore pg' = Some score /\
  match fst (getRoomDetails env room log1) with
  | None =>
      intervals pg' = intervals pg /\ gameSessionData pg' = Some session /\
      resultChecks pg' = resultChecks pg
  | Some updated =>
      option_map sessionStatus (gameSessionData pg') = Some (status updated) /\
      if status updated =? 2
      then intervals pg' = intervals pg /\
           resultChecks pg' = S (resultChecks pg)
      else intervals pg'
           = (intervals pg ++ [mkInterval (nextHandle pg) room])%list /\
           resultChecks pg' = resultChecks pg
  end.
Proof.
  intros Hs Hid Hst Hsub Hok pg'. subst pg'.
  destruct (handleGameOver env score pg log) as [pgf logf] eqn:Hrun.
  cbn [fst]. unfold handleGameOver in Hrun. rewrite Hs, Hid, Hst in Hrun.
  change (negb (Active =? 1)) with false in Hrun. cbv iota in Hrun.
  unfold bind at 1 in Hrun. rewrite Hsub, Hok in Hrun.
  unfold bind at 1 in Hrun.
  destruct (getRoomDetails env room log1) as [[updated |] log2]; cbn [fst].
  2:{ unfold ret in Hrun. injection Hrun as <- _. cbn. auto. }
  unfold bind in Hrun.
  destruct (getPlayersInRoom env room log2) as [roster log3].
  destruct (forallb hasSubmittedScore roster);
    destruct (Z.eqb_spec (status updated) 2) as [E | _];
    unfold ret in Hrun; injection Hrun as <- _;
    try match goal with
        | |- context [checkGameResult env updated ?p] =>
            destruct (checkGameResult_keeps_session env updated p)
              as [H1 [H2 [H3 _]]];
            rewrite H1, H2, H3, checkGameResult_intervals,
              (checkGameResult_counts env updated p E)
        end;
    cbn; auto.
Qed.

Lemma accepted_submission_marks_played_and_polls_witness :
  let pg' := fst (handleGameOver (Scenario.env_trio Scenario.alice) 120
                    Scenario.page_trio []) in
  hasPlayedInRoom pg' = true /\
  gameScore pg' = Some 120 /\
  match fst (getRoomDetails (Scenario.env_trio Scenario.alice) 1
               [CallRooms 1; CallGetPlayers 1; CallRooms 1;
                CallSubmitScore 1 120]) with
  | None =>
      intervals pg' = intervals Scenario.page_trio /\
      gameSessionData pg' = Some Scenario.session_trio /\
      resultChecks pg' = resultChecks Scenario.page_trio
  | Some updated =>
      option_map sessionStatus (gameSessionData pg') = Some (status updated) /\
      if status updated =? 2
      then intervals pg' = intervals Scenario.page_trio /\
           resultChecks pg' = S (resultChecks Scenario.page_trio)
      else intervals pg'
           = (intervals Scenario.page_trio
                ++ [mkInterval (nextHandle Scenario.page_trio) 1])%list /\
           resultChecks pg' = resultChecks Scenario.page_trio
  end.
Proof.
  apply (accepted_submission_marks_played_and_polls
           (Scenario.env_trio Scenario.alice) 120 Scenario.page_trio
           Scenario.session_trio 1
           (mkSubmitResult true None false false false) []
           [CallRooms 1; CallGetPlayers 1; CallRooms 1; CallSubmitScore 1 120]);
    vm_compute; reflexivity.
Defined.

(** X10: with a session whose stored status is not Active,
    [handleGameOver] refuses on the spot: the ledger is not called at all,
    the played flag and the polls are untouched, the score is kept as the
    page's game score, and the last notification is the refusal. *)
Theorem handleGameOver_refuses_locally_outside_active
        env score pg session room log :
  gameSessionData pg = Some session ->
  truthy_id (roomId session) = Some room ->
  sessionStatus session <> Active ->
  let pg' := fst (handleGameOver env score pg log) in
  snd (handleGameOver env score pg log) = log /\
  hasPlayedInRoom pg' = hasPlayedInRoom pg /\
  intervals pg' = intervals pg /\
  gameScore pg' = Some score /\
  exists refusal,
    notifications pg'
    = (notifications pg
         ++ [mkNotification n_info "Submitting your score... Please wait";
             mkNotification n_error refusal])%list.
Proof.
  intros Hs Hid Hst pg'. subst pg'.
  destruct (handleGameOver env score pg log) as [pgf logf] eqn:Hrun.
  cbn [fst snd]. unfold handleGameOver in Hrun. rewrite Hs, Hid in Hrun.
  unfold Active in Hst.
  destruct (Z.eqb_spec (sessionStatus session) 1) as [E | _]; [contradiction |].
  cbn [negb] in Hrun.
  destruct (sessionStatus session =? 0); unfold ret in Hrun;
    injection Hrun as <- <-; cbn; rewrite <- app_assoc;
    repeat split; eexists; reflexivity.
Qed.

Lemma handleGameOver_refuses_locally_outside_active_witness :
  let pg := setGameSessionData
              (Some (mkSession (Some 1) 50 2 0 1 false Filling)) Scenario.page0 in
  let pg' := fst (handleGameOver Scenario.env_filling 42 pg []) in
  snd (handleGameOver Scenario.env_filling 42 pg []) = [] /\
  hasPlayedInRoom pg' = hasPlayedInRoom pg /\
  intervals pg' = intervals pg /\
  gameScore pg' = Some 42 /\
  exists refusal,
    notifications pg'
    = (notifications pg
         ++ [mkNotification n_info "Submitting your score... Please wait";
             mkNotification n_error refusal])%list.
Proof.
  apply (handleGameOver_refuses_locally_outside_active Scenario.env_filling 42
           (setGameSessionData
              (Some (mkSession (Some 1) 50 2 0 1 false Filling)) Scenario.page0)
           (mkSession (Some 1) 50 2 0 1 false Filling) 1 []).
  - reflexivity.
  - reflexivity.
  - vm_compute. discriminate.
Defined.

(* ------------------------------------------------------------------ *)
(** ** Prize figures and results *)

(** X11: when the entry fee and the player count are safe integers and
    ten times their product stays below [2 ^ 53], the pre-game
    [RoomDetails] estimate is exact and is the figure of the settlement:
    its pool is the product, its commission a tenth of it rounded down,
    net prize and commission add up to the pool, and its three figures
    are those [checkGameResult] and [handleClaimPrize] compute from a
    prize pool of that size.  (Above that size binary64 rounding parts
    the call sites, see [b64_agrees_on_large_pools].) *)
Theorem RoomDetails_estimate_is_the_settlement (s : Session) :
  0 <= entryFee s < 2 ^ 53 -> 0 <= maxPlayers s < 2 ^ 53 ->
  10 * (entryFee s * maxPlayers s) < 2 ^ 53 ->
  grossPool (RoomDetails_prize s) = entryFee s * maxPlayers s /\
  commission (RoomDetails_prize s) = entryFee s * maxPlayers s / 10 /\
  netPrize (RoomDetails_prize s) + commission (RoomDetails_prize s)
  = entryFee s * maxPlayers s /\
  RoomDetails_prize s = checkGameResult_prize (entryFee s * maxPlayers s) /\
  RoomDetails_prize s = handleClaimPrize_prize (entryFee s * maxPlayers s).
Proof.
  intros Hf Hp Hb.
  pose proof (RoomDetails_matches_confirmation s Hf Hp Hb) as Hsame.
  pose proof (RoomDetails_figures s Hf Hp Hb) as Hfig. cbv zeta in Hfig.
  split; [rewrite Hfig; reflexivity |].
  split; [rewrite Hfig; reflexivity |].
  split; [rewrite Hfig; cbn [netPrize commission]; lia |].
  split; [exact Hsame |].
  rewrite Hsame. symmetry. apply claim_flow_matches_confirmation.
Qed.

(** A room for three at 25 points: 75, 7 and 68 at every one of the
    three sites. *)
Lemma RoomDetails_estimate_is_the_settlement_witness :
  grossPool (RoomDetails_prize Scenario.session_75) = 25 * 3 /\
  commission (RoomDetails_prize Scenario.session_75) = 25 * 3 / 10 /\
  netPrize (RoomDetails_prize Scenario.session_75)
  + commission (RoomDetails_prize Scenario.session_75) = 25 * 3 /\
  RoomDetails_prize Scenario.session_75 = checkGameResult_prize (25 * 3) /\
  RoomDetails_prize Scenario.session_75 = handleClaimPrize_prize (25 * 3).
Proof.
  apply (RoomDetails_estimate_is_the_settlement Scenario.session_75).
  - vm_compute. split; [discriminate | reflexivity].
  - vm_compute. split; [discriminate | reflexivity].
  - vm_compute. reflexivity.
Defined.

(** X12: under the same bound the Prize Breakdown block shows the pool
    and the commission of the settlement; its winner's prize is the
    settlement's when the pool is a multiple of ten and one point less
    otherwise. *)
Theorem breakdown_is_short_by_at_most_one (s : Session) :
  0 <= entryFee s < 2 ^ 53 -> 0 < maxPlayers s < 2 ^ 53 ->
  10 * (entryFee s * maxPlayers s) < 2 ^ 53 ->
  let pool := entryFee s * maxPlayers s in
  grossPool (breakdown_prize (Some s)) = pool /\
  commission (breakdown_prize (Some s)) = commission (checkGameResult_prize pool) /\
  netPrize (breakdown_prize (Some s))
  = netPrize (checkGameResult_prize pool)
    - (if pool mod 10 =? 0 then 0 else 1).
Proof.
  intros Hf Hp Hb pool.
  rewrite (breakdown_figures s Hf Hp Hb). fold pool.
  rewrite checkGameResult_figures; [| unfold pool; nia | exact Hb].
  cbn [grossPool commission netPrize].
  split; [reflexivity | split; [reflexivity | apply nine_tenths_short]].
Qed.

Lemma breakdown_is_short_by_at_most_one_witness :
  let pool := entryFee Scenario.session_75 * maxPlayers Scenario.session_75 in
  grossPool (breakdown_prize (Some Scenario.session_75)) = pool /\
  commission (breakdown_prize (Some Scenario.session_75))
  = commission (checkGameResult_prize pool) /\
  netPrize (breakdown_prize (Some Scenario.session_75))
  = netPrize (checkGameResult_prize pool)
    - (if pool mod 10 =? 0 then 0 else 1).
Proof.
  apply (breakdown_is_short_by_at_most_one Scenario.session_75).
  - vm_compute. split; [discriminate | reflexivity].
  - vm_compute. split; reflexivity.
  - vm_compute. reflexivity.
Defined.

(** X13: addresses are compared without regard to letter case: two
    wallet addresses that agree in lower case get the same answer and the
    same call log from [submitScore], and the same page from
    [checkGameResult]. *)
Theorem decisions_ignore_address_case g a1 a2 roomId score log room pg :
  JS.toLowerCase a1 = JS.toLowerCase a2 ->
  submitScore (mkEnv g (Some a1)) roomId score log
  = submitScore (mkEnv g (Some a2)) roomId score log /\
  checkGameResult (mkEnv g (Some a1)) room pg
  = checkGameResult (mkEnv g (Some a2)) room pg.
Proof.
  intros Hcase.
  assert (Hme : currentUser (mkEnv g (Some a1)) = currentUser (mkEnv g (Some a2))).
  { unfold currentUser. simpl. rewrite Hcase. reflexivity. }
  split.
  - unfold submitScore. rewrite Hme. reflexivity.
  - unfold checkGameResult. rewrite Hme. reflexivity.
Qed.

Lemma decisions_ignore_address_case_witness :
  submitScore (mkEnv (Some Scenario.contract_active) (Some Scenario.alice)) 1 42 []
  = submitScore
      (mkEnv (Some Scenario.contract_active)
         (Some "0xa11ce00000000000000000000000000000000001")) 1 42 [] /\
  checkGameResult (mkEnv (Some Scenario.contract_active) (Some Scenario.alice))
    Scenario.completed_room Scenario.page0
  = checkGameResult
      (mkEnv (Some Scenario.contract_active)
         (Some "0xa11ce00000000000000000000000000000000001"))
      Scenario.completed_room Scenario.page0.
Proof.
  apply (decisions_ignore_address_case (Some Scenario.contract_active)
           Scenario.alice "0xa11ce00000000000000000000000000000000001").
  vm_compute. reflexivity.
Defined.

Lemma getRoomDetails_log env roomId log :
  snd (getRoomDetails env roomId log) = log \/
  snd (getRoomDetails env roomId log) = (log ++ [CallRooms roomId])%list.
Proof.
  unfold getRoomDetails. destruct (gameRoom env) as [g |]; [| left; reflexivity].
  destruct (invalidRoomId roomId); [left; reflexivity |].
  unfold bind, call. destruct (rooms g (List.length log) roomId);
    right; reflexivity.
Qed.

Lemma getRoomDetails_claimsSent env roomId log :
  Lobby.claimsSent (snd (getRoomDetails env roomId log)) = Lobby.claimsSent log.
Proof.
  destruct (getRoomDetails_log env roomId log) as [-> | ->]; [reflexivity |].
  unfold Lobby.claimsSent. rewrite filter_app, length_app. simpl. lia.
Qed.

(** X14: [handleClaimPrize] sends no claim when the room cannot be read,
    and exactly one claim when it can, whoever the winner is and whether or
    not the prize is already marked as claimed.  When the claim is mined
    and ten times the pool is below [2 ^ 53], the page announces the pool
    minus a tenth rounded down; when the claim is not mined, the game
    result is left as it was. *)
Theorem handleClaimPrize_claims_once env room pg log :
  let pg' := fst (handleClaimPrize env room pg log) in
  let log' := snd (handleClaimPrize env room pg log) in
  match getRoomDetails env room log with
  | (None, log1) =>
      log' = log1 /\ Lobby.claimsSent log' = Lobby.claimsSent log /\
      gameResult pg' = gameResult pg
  | (Some details, log1) =>
      Lobby.claimsSent log' = S (Lobby.claimsSent log) /\
      (0 <= prizePool details -> 10 * prizePool details < 2 ^ 53 ->
       fst (claimPrize env room log1) = true ->
       In (mkNotification n_success
             ("Prize of "
                ++ JS.string_of_Z (prizePool details - prizePool details / 10)
                ++ " points claimed successfully!")%string)
          (notifications pg')) /\
      (fst (claimPrize env room log1) = false ->
       gameResult pg' = gameResult pg)
  end.
Proof.
  intros pg' log'. subst pg' log'.
  destruct (handleClaimPrize env room pg log) as [pgf logf] eqn:Hrun.
  cbn [fst snd]. unfold handleClaimPrize in Hrun. unfold bind at 1 in Hrun.
  pose proof (getRoomDetails_claimsSent env room log) as Hc1.
  destruct (getRoomDetails env room log) as [[details |] log1] eqn:Hroom;
    cbn [snd] in Hc1.
  2:{ unfold ret in Hrun. injection Hrun as <- <-. auto. }
  assert (Hpool : 0 <= prizePool details -> 10 * prizePool details < 2 ^ 53 ->
                  F64.toString
                    (netPrize (handleClaimPrize_prize (prizePool details)))
                  = JS.string_of_Z (prizePool details - prizePool details / 10)).
  { intros Hn Hb.
    change (handleClaimPrize_prize (prizePool details))
      with (checkGameResult_prize (prizePool details)).
    rewrite checkGameResult_figures by assumption. cbn [netPrize].
    apply toString_safe. Z.to_euclidean_division_equations; lia. }
  set (expected := F64.toString
                     (netPrize (handleClaimPrize_prize (prizePool details))))
    in *.
  unfold bind at 1 in Hrun.
  assert (Hc2 : Lobby.claimsSent (snd (claimPrize env room log1))
                = S (Lobby.claimsSent log)).
  { unfold claimPrize.
    destruct (gameRoom env) as [g |] eqn:Hg.
    - unfold bind, call.
      destruct (Ledger.claimPrize g (List.length log1) room); cbn [ret snd];
        unfold Lobby.claimsSent in *; rewrite filter_app, length_app;
        simpl; lia.
    - exfalso. revert Hroom. unfold getRoomDetails. rewrite Hg. discriminate. }
  destruct (claimPrize env room log1) as [ok log2]; cbn [fst snd] in *.
  destruct ok.
  - unfold bind in Hrun.
    pose proof (getRoomDetails_claimsSent env room log2) as Hc3.
    destruct (getRoomDetails env room log2) as [[updated |] log3];
      cbn [snd] in Hc3; unfold ret in Hrun; injection Hrun as <- <-;
      (split; [congruence |]);
      (split; [intros Hn Hb _; rewrite <- (Hpool Hn Hb); cbn;
               apply in_or_app; right; left; reflexivity
              | discriminate]).
  - unfold ret in Hrun. injection Hrun as <- <-.
    split; [exact Hc2 | split; [discriminate | reflexivity]].
Qed.

(** Alice claims on the active room, of which she is not the winner: the
    claim is sent all the same, and as this ledger mines it the page
    announces nine tenths of the pool of 100 points. *)
Lemma handleClaimPrize_claims_once_witness :
  Lobby.claimsSent
    (snd (handleClaimPrize (Scenario.env_active Scenario.alice) 1
            Scenario.page0 [])) = 1%nat /\
  winner Scenario.active_room = Scenario.nobody /\
  In (mkNotification n_success "Prize of 90 points claimed successfully!")
     (notifications
        (fst (handleClaimPrize (Scenario.env_active Scenario.alice) 1
                Scenario.page0 []))).
Proof.
  pose proof (handleClaimPrize_claims_once (Scenario.env_active Scenario.alice)
                1 Scenario.page0 []) as H.
  assert (E : getRoomDetails (Scenario.env_active Scenario.alice) 1 []
              = (Some Scenario.active_room, [CallRooms 1]))
    by (vm_compute; reflexivity).
  cbv zeta in H. rewrite E in H. destruct H as (Hsent & Hsaid & _).
  split; [exact Hsent | split; [reflexivity |]].
  apply Hsaid; vm_compute; reflexivity || discriminate.
Defined.

(* ------------------------------------------------------------------ *)
(** ** The scan of [loadActiveRooms] *)

Lemma In_firstn_skipn {A} (n i : nat) (l : list A) (x : A) :
  In x (firstn n (skipn i l)) -> In x l.
Proof.
  intros H. rewrite <- (firstn_skipn i l). apply in_or_app. right.
  rewrite <- (firstn_skipn n (skipn i l)). apply in_or_app. left. exact H.
Qed.

Lemma roomIds_valid i : In i roomIds -> invalidRoomId i = false.
Proof.
  assert (H : forallb (fun i => negb (invalidRoomId i)) roomIds = true)
    by (vm_compute; reflexivity).
  rewrite forallb_forall in H. intros Hi. apply negb_true_iff, H, Hi.
Qed.

Lemma mapM_getRoomDetails_log env g ids log rs log' :
  gameRoom env = Some g ->
  (forall i, In i ids -> invalidRoomId i = false) ->
  mapM (getRoomDetails env) ids log = (rs, log') ->
  log' = (log ++ map CallRooms ids)%list /\
  List.length rs = List.length ids.
Proof.
  intros Hg. revert log rs log'.
  induction ids as [| i ids IH]; intros log rs log' Hvalid Hrun.
  - injection Hrun as <- <-. simpl. rewrite app_nil_r. auto.
  - cbn [mapM] in Hrun. unfold bind at 1 in Hrun.
    assert (Hi : snd (getRoomDetails env i log) = (log ++ [CallRooms i])%list).
    { unfold getRoomDetails. rewrite Hg, (Hvalid i (or_introl eq_refl)).
      unfold bind, call. destruct (rooms g (List.length log) i); reflexivity. }
    destruct (getRoomDetails env i log) as [r log1]. cbn [snd] in Hi. subst log1.
    unfold bind in Hrun.
    destruct (mapM (getRoomDetails env) ids (log ++ [CallRooms i])%list)
      as [rs' log2] eqn:Hrest.
    destruct (IH _ _ _ (fun j Hj => Hvalid j (or_intror Hj)) Hrest) as [E L].
    unfold ret in Hrun. injection Hrun as <- <-. subst log2.
    rewrite <- app_assoc. simpl. split; [reflexivity | f_equal; exact L].
Qed.

Lemma filter_some_length {A} (l : list (option A)) :
  (List.length (filter_some l) <= List.length l)%nat.
Proof. induction l as [| [a |] l IH]; simpl; lia. Qed.

Lemma filter_length_bound {A} (f : A -> bool) (l : list A) :
  (List.length (filter f l) <= List.length l)%nat.
Proof. induction l as [| a l IH]; simpl; [| destruct (f a); simpl]; lia. Qed.

Lemma validRooms_length now rs :
  (List.length (validRooms now rs) <= List.length rs)%nat.
Proof.
  unfold validRooms.
  pose proof (filter_some_length
                (map (summarize now)
                   (filter (fun room => status room =? 0) (filter_some rs)))).
  rewrite length_map in H.
  pose proof (filter_length_bound (fun room => status room =? 0) (filter_some rs)).
  pose proof (filter_some_length rs). lia.
Qed.

Lemma loadBatches_scan env g now fuel i acc log res log' :
  gameRoom env = Some g ->
  (List.length roomIds <= i + fuel)%nat ->
  loadBatches env now fuel i acc log = (res, log') ->
  log' = (log ++ map CallRooms (skipn i roomIds))%list /\
  (List.length res <= List.length acc + List.length (skipn i roomIds))%nat.
Proof.
  intros Hg. revert i acc log res log'.
  induction fuel as [| fuel IH]; intros i acc log res log' Hfuel Hrun.
  - cbn [loadBatches] in Hrun. injection Hrun as <- <-.
    rewrite skipn_all2 by lia. simpl. rewrite app_nil_r. split; [reflexivity | lia].
  - cbn [loadBatches] in Hrun.
    destruct (Nat.ltb_spec i (List.length roomIds)) as [Hlt | Hge].
    2:{ injection Hrun as <- <-. rewrite skipn_all2 by lia. simpl.
        rewrite app_nil_r. split; [reflexivity | lia]. }
    unfold bind in Hrun.
    destruct (mapM (getRoomDetails env) (firstn batchSize (skipn i roomIds)) log)
      as [batchResults log1] eqn:Hbatch.
    destruct (mapM_getRoomDetails_log env g _ _ _ _ Hg
                (fun j Hj => roomIds_valid j (In_firstn_skipn _ _ _ _ Hj)) Hbatch)
      as [E L].
    subst log1.
    assert (Hfuel' : (List.length roomIds <= i + batchSize + fuel)%nat)
      by (unfold batchSize; lia).
    destruct (IH _ _ _ _ _ Hfuel' Hrun) as [E' L'].
    assert (Hsplit : skipn i roomIds
                     = (firstn batchSize (skipn i roomIds)
                          ++ skipn (i + batchSize) roomIds)%list).
    { rewrite Nat.add_comm, <- skipn_skipn. symmetry. apply firstn_skipn. }
    split.
    + rewrite E', <- app_assoc, <- map_app, <- Hsplit. reflexivity.
    + rewrite length_app in L'.
      pose proof (validRooms_length now batchResults) as Hv.
      rewrite Hsplit at 1. rewrite length_app. lia.
Qed.

Lemma map_set_length {V} (m : list (Z * V)) (k : Z) (v : V) :
  (List.length (JS.map_set m k v) <= S (List.length m))%nat.
Proof.
  induction m as [| [k' v'] m IH]; simpl; [lia |].
  destruct (k =? k'); simpl; lia.
Qed.

Lemma map_of_entries_length {V} (es : list (Z * V)) :
  (List.length (JS.map_of_entries es) <= List.length es)%nat.
Proof.
  unfold JS.map_of_entries.
  assert (G : forall m : list (Z * V),
             (List.length (fold_left (fun m e => JS.map_set m (fst e) (snd e)) es m)
              <= List.length m + List.length es)%nat).
  { induction es as [| e es IH]; intros m; simpl; [lia |].
    pose proof (IH (JS.map_set m (fst e) (snd e))).
    pose proof (map_set_length m (fst e) (snd e)). lia. }
  apply (G []).
Qed.

Lemma mapM_getRoomDetails_disconnected env ids log :
  gameRoom env = None ->
  mapM (getRoomDetails env) ids log = (map (fun _ => None) ids, log).
Proof.
  intros Hg. revert log. induction ids as [| i ids IH]; intros log.
  - reflexivity.
  - cbn [mapM]. unfold bind at 1. unfold getRoomDetails at 1. rewrite Hg.
    cbn [ret]. unfold bind. rewrite IH. reflexivity.
Qed.

Lemma validRooms_of_failures now (ids : list Z) :
  validRooms now (map (fun _ => None) ids) = [].
Proof.
  unfold validRooms.
  assert (H : filter_some (map (fun _ : Z => @None Room) ids) = []).
  { induction ids as [| i ids IH]; simpl; auto. }
  rewrite H. reflexivity.
Qed.

(** Without a contract the scan does nothing. *)
Lemma loadBatches_disconnected env now fuel i acc log :
  gameRoom env = None ->
  loadBatches env now fuel i acc log = (acc, log).
Proof.
  intros Hg. revert i acc log.
  induction fuel as [| fuel IH]; intros i acc log; cbn [loadBatches].
  - reflexivity.
  - destruct (i <? List.length roomIds)%nat; [| reflexivity].
    unfold bind. rewrite (mapM_getRoomDetails_disconnected env _ log Hg).
    rewrite validRooms_of_failures, app_nil_r. apply IH.
Qed.

(** X15: with the contract connected, one run of [loadActiveRooms] reads
    each of the ids 1 to 50 exactly once, in ascending order, whatever the
    reads answer, and makes no other call. *)
Theorem loadActiveRooms_reads_ids_1_to_50 env g now log :
  gameRoom env = Some g ->
  snd (loadActiveRooms env now log)
  = (log ++ map CallRooms (map Z.of_nat (seq 1 50)))%list.
Proof.
  intros Hg. unfold loadActiveRooms, bind.
  destruct (loadBatches env now (List.length roomIds) 0 [] log)
    as [fillingRooms log1] eqn:Hrun.
  destruct (loadBatches_scan env g now _ 0 [] log _ _ Hg (Nat.le_refl _) Hrun)
    as [E _].
  cbn [snd ret]. subst log1. reflexivity.
Qed.

Lemma loadActiveRooms_reads_ids_1_to_50_witness :
  snd (loadActiveRooms Scenario.env_two_rooms Scenario.now [])
  = ([] ++ map CallRooms (map Z.of_nat (seq 1 50)))%list.
Proof.
  refine (loadActiveRooms_reads_ids_1_to_50 Scenario.env_two_rooms _
            Scenario.now [] eq_refl).
Defined.

(** X16: on every ledger, and whichever reads throw, the list built by
    [loadActiveRooms] has at most 50 entries, every entry was made from a
    room that a read reported as Filling, and no two entries share an id. *)
Theorem loadActiveRooms_lists_filling_rooms_once env now log :
  (List.length (fst (loadActiveRooms env now log)) <= 50)%nat /\
  Forall (listed_from_filling env now) (fst (loadActiveRooms env now log)) /\
  NoDup (map sid (fst (loadActiveRooms env now log))).
Proof.
  split; [| apply loadActiveRooms_filling_distinct].
  unfold loadActiveRooms, bind.
  assert (Hlen : (List.length
                    (fst (loadBatches env now (List.length roomIds) 0 [] log))
                  <= 50)%nat).
  { destruct (gameRoom env) as [g |] eqn:Hg.
    - destruct (loadBatches env now (List.length roomIds) 0 [] log)
        as [fillingRooms log1] eqn:Hrun.
      destruct (loadBatches_scan env g now _ 0 [] log _ _ Hg (Nat.le_refl _) Hrun)
        as [_ L].
      exact L.
    - rewrite (loadBatches_disconnected env now _ 0 [] log Hg). simpl. lia. }
  destruct (loadBatches env now (List.length roomIds) 0 [] log)
    as [fillingRooms log1].
  cbn [fst ret] in *.
  rewrite (Permutation_length (sort_perm byTime _)).
  unfold JS.map_values. rewrite length_map.
  pose proof (map_of_entries_length
                (map (fun room => (sid room, room)) fillingRooms)) as Hm.
  rewrite length_map in Hm. lia.
Qed.

(* ------------------------------------------------------------------ *)
(** ** [loadRoomDetails] *)

Import Lobby RoomActions LobbyActions.

(** The run of [loadRoomDetails] once its room read has succeeded. *)
Lemma loadRoomDetails_run env roomId v log room log1 :
  getRoomDetails env roomId log = (Some room, log1) ->
  loadRoomDetails env roomId v log
  = (storeRoom env room
       (loadStatus env room (fst (getPlayersInRoom env roomId log1)) v),
     snd (getPlayersInRoom env roomId log1)).
Proof.
  intros Hroom.
  destruct (getRoomDetails_answer _ _ _ _ _ Hroom) as [[Hpos _] _].
  unfold loadRoomDetails.
  destruct (Z.leb_spec roomId 0) as [Hle | _]; [lia |].
  unfold bind at 1. rewrite Hroom. unfold bind.
  destruct (getPlayersInRoom env roomId log1) as [playersData log2].
  reflexivity.
Qed.

Lemma storeRoom_page env room v :
  hasPlayedInRoom (page (storeRoom env room v)) = hasPlayedInRoom (page v) /\
  intervals (page (storeRoom env room v)) = intervals (page v) /\
  gameSessionData (page (storeRoom env room v))
  = Some (mkSession (Some (id room)) (Ledger.entryFee room)
            (Ledger.maxPlayers room) (gameType room) (currentPlayers room)
            (isCreatorOf (currentUser env) room) (status room)).
Proof.
  unfold storeRoom.
  destruct (gameType room =? 0); [| destruct (gameType room =? 1)];
    repeat split.
Qed.

(** X17: a room read as Completed, Expired or Canceled is always loaded
    with the played flag set, whoever looks at it and whatever the flag
    was. *)
Theorem loadRoomDetails_blocks_play_on_ended_rooms
        env roomId v log room log1 :
  getRoomDetails env roomId log = (Some room, log1) ->
  status room = Completed \/ status room = Expired \/ status room = Canceled ->
  hasPlayedInRoom (Lobby.page (fst (loadRoomDetails env roomId v log))) = true.
Proof.
  intros Hroom Hst.
  rewrite (loadRoomDetails_run _ _ _ _ _ _ Hroom). cbn [fst].
  rewrite (proj1 (storeRoom_page env room _)). unfold loadStatus.
  destruct Hst as [-> | [-> | ->]]; cbn.
  - rewrite (proj1 (checkGameResult_keeps_session env room _)). reflexivity.
  - reflexivity.
  - reflexivity.
Qed.

Lemma loadRoomDetails_blocks_play_on_ended_rooms_witness :
  hasPlayedInRoom
    (Lobby.page (fst (loadRoomDetails Scenario.env_completing 1 Cases.view0
                        [CallRooms 1]))) = true.
Proof.
  apply (loadRoomDetails_blocks_play_on_ended_rooms Scenario.env_completing 1
           Cases.view0 [CallRooms 1] Scenario.completed_room
           [CallRooms 1; CallRooms 1]).
  - vm_compute. reflexivity.
  - left. reflexivity.
Defined.

Lemma loadActive_flag me room playersData v :
  hasPlayedInRoom (Lobby.page (Lobby.loadActive me room playersData v))
  = negb (Lobby.isCreatorOf me room || existsb (is_me me) playersData)
    || hasSubmittedIn me playersData.
Proof.
  unfold Lobby.loadActive.
  destruct (Lobby.isCreatorOf me room || existsb (is_me me) playersData);
    cbn [negb orb]; [| reflexivity].
  destruct (hasSubmittedIn me playersData); [| reflexivity].
  destruct (forallb hasSubmittedScore playersData); reflexivity.
Qed.

(** X18: on a room read as Active the played flag after
    [loadRoomDetails] is set exactly when the user is neither the room's
    creator nor on the resolved roster, or has a submitted flag on that
    roster; the flag the page had before plays no part. *)
Theorem loadRoomDetails_active_flag env roomId v log room log1 :
  getRoomDetails env roomId log = (Some room, log1) ->
  status room = Active ->
  let me := currentUser env in
  let playersData := fst (getPlayersInRoom env roomId log1) in
  hasPlayedInRoom (Lobby.page (fst (loadRoomDetails env roomId v log)))
  = negb (Lobby.isCreatorOf me room || existsb (is_me me) playersData)
    || hasSubmittedIn me playersData.
Proof.
  intros Hroom Hst me playersData.
  rewrite (loadRoomDetails_run _ _ _ _ _ _ Hroom). cbn [fst].
  rewrite (proj1 (storeRoom_page env room _)). unfold loadStatus.
  rewrite Hst. change (Active =? 0) with false. change (Active =? 1) with true.
  cbv iota. apply loadActive_flag.
Qed.

Lemma loadRoomDetails_active_flag_witness :
  hasPlayedInRoom
    (Lobby.page (fst (loadRoomDetails (Scenario.env_active Scenario.carol) 1
                        Cases.view0 []))) = true.
Proof.
  apply (loadRoomDetails_active_flag (Scenario.env_active Scenario.carol) 1
           Cases.view0 [] Scenario.active_room [CallRooms 1]).
  - vm_compute. reflexivity.
  - reflexivity.
Defined.

Lemma loadFilling_flag me room playersData v :
  hasPlayedInRoom (Lobby.page (Lobby.loadFilling me room playersData v))
  = if (currentPlayers room <? Ledger.maxPlayers room) &&
       (Lobby.isCreatorOf me room || existsb (is_me me) playersData)
    then false
    else hasPlayedInRoom (Lobby.page v).
Proof.
  unfold Lobby.loadFilling.
  destruct (currentPlayers room <? Ledger.maxPlayers room); [| reflexivity].
  destruct (Lobby.isCreatorOf me room); [reflexivity |].
  destruct (existsb (is_me me) playersData); reflexivity.
Qed.

(** X19: on a room read as Filling, [loadRoomDetails] clears the played
    flag only for the creator or a roster member of a room that is not yet
    full; for anyone else, and for a full room still Filling, the flag
    keeps the value it had before the load. *)
Theorem loadRoomDetails_filling_flag env roomId v log room log1 :
  getRoomDetails env roomId log = (Some room, log1) ->
  status room = Filling ->
  let me := currentUser env in
  let playersData := fst (getPlayersInRoom env roomId log1) in
  hasPlayedInRoom (Lobby.page (fst (loadRoomDetails env roomId v log)))
  = if (currentPlayers room <? Ledger.maxPlayers room) &&
       (Lobby.isCreatorOf me room || existsb (is_me me) playersData)
    then false
    else hasPlayedInRoom (Lobby.page v).
Proof.
  intros Hroom Hst me playersData.
  rewrite (loadRoomDetails_run _ _ _ _ _ _ Hroom). cbn [fst].
  rewrite (proj1 (storeRoom_page env room _)). unfold loadStatus.
  rewrite Hst. change (Filling =? 0) with true. cbv iota.
  apply loadFilling_flag.
Qed.

(** Carol, who has not joined, opens the filling room with a flag left set
    by an earlier room: the flag stays set. *)
Lemma loadRoomDetails_filling_flag_witness :
  hasPlayedInRoom
    (Lobby.page
       (fst (loadRoomDetails
               (mkEnv (gameRoom Scenario.env_filling) (Some Scenario.carol)) 1
               (Lobby.onPage (setHasPlayedInRoom true) Cases.view0) [])))
  = true.
Proof.
  apply (loadRoomDetails_filling_flag
           (mkEnv (gameRoom Scenario.env_filling) (Some Scenario.carol)) 1
           (Lobby.onPage (setHasPlayedInRoom true) Cases.view0) []
           Scenario.filling_room [CallRooms 1]).
  - vm_compute. reflexivity.
  - reflexivity.
Defined.

(** X20: the creator of an Active room whose roster comes back empty is
    let through by the page and stopped by the gate: [loadRoomDetails]
    leaves the played flag clear ("ready for play"), while [submitScore] on
    the same reads rejects the creator as not being a player. *)
Theorem creator_off_roster_passes_page_not_gate
        env roomId score v log room log1 :
  getRoomDetails env roomId log = (Some room, log1) ->
  status room = Active ->
  isCreatorOf (currentUser env) room = true ->
  fst (getPlayersInRoom env roomId log1) = [] ->
  hasPlayedInRoom (page (fst (loadRoomDetails env roomId v log))) = false /\
  Gate.reasonOf (fst (submitScore env roomId score log))
  = Some Gate.NotPlayerError.
Proof.
  intros Hroom Hst Hcreator Hroster. split.
  - rewrite (loadRoomDetails_run _ _ _ _ _ _ Hroom). cbn [fst].
    rewrite (proj1 (storeRoom_page env room _)). unfold loadStatus.
    rewrite Hst. change (Active =? 0) with false. change (Active =? 1) with true.
    cbv iota. rewrite loadActive_flag, Hcreator, Hroster.
    unfold hasSubmittedIn. simpl. apply andb_false_r.
  - destruct (getRoomDetails_some_connected _ _ _ _ _ Hroom) as [g Hg].
    unfold submitScore. rewrite Hg. unfold bind at 1. rewrite Hroom, Hst.
    change (negb (Active =? 1)) with false. cbv iota. unfold bind.
    destruct (getPlayersInRoom env roomId log1) as [roster log2].
    cbn [fst] in Hroster. subst roster.
    unfold isPlayer. simpl existsb. rewrite andb_false_r. reflexivity.
Qed.

Lemma creator_off_roster_passes_page_not_gate_witness :
  hasPlayedInRoom
    (page (fst (loadRoomDetails Scenario.env_roster_down 1 Cases.view0 [])))
  = false /\
  Gate.reasonOf (fst (submitScore Scenario.env_roster_down 1 42 []))
  = Some Gate.NotPlayerError.
Proof.
  apply (creator_off_roster_passes_page_not_gate Scenario.env_roster_down 1 42
           Cases.view0 [] Scenario.active_room [CallRooms 1]);
    vm_compute; reflexivity.
Defined.

(** X21: the status stored by [loadRoomDetails] is the one [handleGameOver]
    trusts.  After a room was loaded with a status other than Active, a
    game over on that page is refused without any ledger call, whatever
    the ledger would answer by then. *)
Theorem stale_session_status_blocks_submission
        env env' roomId score v log room log1 log' :
  getRoomDetails env roomId log = (Some room, log1) ->
  status room <> Active ->
  id room <> 0 ->
  snd (handleGameOver env' score
         (page (fst (loadRoomDetails env roomId v log))) log') = log'.
Proof.
  intros Hroom Hst Hid.
  rewrite (loadRoomDetails_run _ _ _ _ _ _ Hroom). cbn [fst].
  destruct (storeRoom_page env room
              (loadStatus env room (fst (getPlayersInRoom env roomId log1)) v))
    as [_ [_ Hsession]].
  apply (handleGameOver_not_active_keeps_flag env' score _ _ (id room) log'
           Hsession).
  - cbn. destruct (Z.eqb_spec (id room) 0); [contradiction | reflexivity].
  - exact Hst.
Qed.

(** The room fills up right after it was loaded; the game over that
    follows is still refused on the spot. *)
Lemma stale_session_status_blocks_submission_witness :
  snd (handleGameOver Cases.env_filling_then_active 42
         (page (fst (loadRoomDetails Cases.env_filling_then_active 1
                       Cases.view0 [])))
         [CallRooms 1; CallGetPlayers 1; CallRooms 1])
  = [CallRooms 1; CallGetPlayers 1; CallRooms 1] /\
  option_map status
    (fst (getRoomDetails Cases.env_filling_then_active 1
            [CallRooms 1; CallGetPlayers 1; CallRooms 1]))
  = Some Active.
Proof.
  split; [| vm_compute; reflexivity].
  apply (stale_session_status_blocks_submission Cases.env_filling_then_active
           Cases.env_filling_then_active 1 42 Cases.view0 []
           Scenario.filling_room [CallRooms 1]).
  - vm_compute. reflexivity.
  - vm_compute. discriminate.
  - vm_compute. discriminate.
Defined.

(** X22: when the room cannot be read, or the id is not positive,
    [loadRoomDetails] only adds one error notification: the session, the
    played flag, the polls, the result and the game on screen stay as they
    were. *)
Theorem loadRoomDetails_failure_changes_nothing env roomId v log :
  roomId <= 0 \/ fst (getRoomDetails env roomId log) = None ->
  let v' := fst (loadRoomDetails env roomId v log) in
  activeGame v' = activeGame v /\
  activeRoomId v' = activeRoomId v /\
  gameSessionData (page v') = gameSessionData (page v) /\
  hasPlayedInRoom (page v') = hasPlayedInRoom (page v) /\
  gameResult (page v') = gameResult (page v) /\
  intervals (page v') = intervals (page v) /\
  exists m,
    notifications (page v')
    = (notifications (page v) ++ [mkNotification n_error m])%list.
Proof.
  intros Hbad v'. subst v'. unfold loadRoomDetails.
  destruct (Z.leb_spec roomId 0) as [Hle | Hpos].
  - cbn. repeat split. eexists. reflexivity.
  - destruct Hbad as [Hle | Hnone]; [lia |].
    unfold bind. destruct (getRoomDetails env roomId log) as [[room |] log1];
      [discriminate |].
    cbn. repeat split. eexists. reflexivity.
Qed.

Lemma loadRoomDetails_failure_changes_nothing_witness :
  let v' := fst (loadRoomDetails Scenario.env_filling 9 Cases.view0 []) in
  activeGame v' = activeGame Cases.view0 /\
  activeRoomId v' = activeRoomId Cases.view0 /\
  gameSessionData (page v') = gameSessionData (page Cases.view0) /\
  hasPlayedInRoom (page v') = hasPlayedInRoom (page Cases.view0) /\
  gameResult (page v') = gameResult (page Cases.view0) /\
  intervals (page v') = intervals (page Cases.view0) /\
  exists m,
    notifications (page v')
    = (notifications (page Cases.view0) ++ [mkNotification n_error m])%list.
Proof.
  apply (loadRoomDetails_failure_changes_nothing Scenario.env_filling 9
           Cases.view0 []).
  right. vm_compute. reflexivity.
Defined.

(* ------------------------------------------------------------------ *)
(** ** Resetting the session *)

(** X23: [resetGameSession] clears the session, the score, the result
    and the played flag but no poll.  A poll started before the reset is
    still there; when its next tick reads the room as Completed it runs
    [checkGameResult] and puts a game result on the page that was reset. *)
Theorem poll_outlives_reset env h i v log room log1 :
  find (fun i => Nat.eqb (handle i) h) (intervals (page v)) = Some i ->
  getRoomDetails env (watched i) log = (Some room, log1) ->
  status room = Completed ->
  intervals (page (resetGameSession v)) = intervals (page v) /\
  gameResult (page (resetGameSession v)) = None /\
  gameSessionData (page (resetGameSession v)) = None /\
  hasPlayedInRoom (page (resetGameSession v)) = false /\
  let pg' := fst (watcherTick env h (page (resetGameSession v)) log) in
  gameResult pg' <> None /\
  resultChecks pg' = S (resultChecks (page v)) /\
  gameSessionData pg' = None.
Proof.
  intros Hfind Hroom Hst.
  split; [reflexivity | split; [reflexivity | split; [reflexivity |]]].
  split; [reflexivity |].
  intros pg'. subst pg'. unfold watcherTick.
  change (intervals (page (resetGameSession v))) with (intervals (page v)).
  rewrite Hfind. unfold bind. rewrite Hroom, Hst.
  change (Completed =? 2) with true. cbv iota. cbn [ret fst].
  split; [| split].
  - unfold clearInterval. cbn [gameResult]. unfold checkGameResult.
    rewrite Hst. change (negb (Completed =? 2)) with false. cbv iota.
    repeat match goal with
           | |- context [if ?b then _ else _] => destruct b
           end; discriminate.
  - unfold clearInterval. cbn [resultChecks].
    rewrite (checkGameResult_counts env room _ Hst). reflexivity.
  - unfold clearInterval. cbn [gameSessionData].
    destruct (checkGameResult_keeps_session env room
                (page (resetGameSession v))) as [_ [_ [-> _]]].
    reflexivity.
Qed.

Lemma poll_outlives_reset_witness :
  let v := mkView (fst Scenario.two_submissions) (Some "flappy-bird") (Some 1) in
  intervals (page (resetGameSession v)) = intervals (page v) /\
  gameResult (page (resetGameSession v)) = None /\
  gameSessionData (page (resetGameSession v)) = None /\
  hasPlayedInRoom (page (resetGameSession v)) = false /\
  let pg' := fst (watcherTick (Scenario.env_trio Scenario.bob) 0
                    (page (resetGameSession v)) (snd Scenario.two_submissions)) in
  gameResult pg' <> None /\
  resultChecks pg' = S (resultChecks (page v)) /\
  gameSessionData pg' = None.
Proof.
  apply (poll_outlives_reset (Scenario.env_trio Scenario.bob) 0
           (mkInterval 0 1)
           (mkView (fst Scenario.two_submissions) (Some "flappy-bird") (Some 1))
           (snd Scenario.two_submissions) Scenario.trio_completed
           (snd Scenario.two_submissions ++ [CallRooms 1])%list);
    vm_compute; reflexivity.
Defined.

(* ------------------------------------------------------------------ *)
(** ** Joining, creating and activating *)

Lemma lift_ops {A} (m : M A) (logs : Logs) :
  snd (snd (lift m logs)) = snd logs.
Proof. unfold lift. destruct (m (fst logs)). reflexivity. Qed.

Lemma lift_run {A} (m : M A) (logs : Logs) :
  lift m logs = (fst (m (fst logs)), (snd (m (fst logs)), snd logs)).
Proof. unfold lift. destruct (m (fst logs)). reflexivity. Qed.

Lemma refreshUserRooms_ops env logs :
  snd (snd (refreshUserRooms env logs)) = snd logs.
Proof.
  unfold refreshUserRooms. destruct (userAddress env) as [who |]; [| reflexivity].
  destruct (JS.truthy who); [| reflexivity].
  unfold bindX. rewrite lift_run. reflexivity.
Qed.

Lemma readBalance_ops env a logs :
  transactions (snd (snd (readBalance env a logs))) = transactions (snd logs).
Proof.
  unfold readBalance, bindX, op. cbn [fst snd].
  destruct (pointsManager a _); [destruct (userAddress env) |];
    cbn [retX fst snd]; unfold transactions;
    rewrite ?filter_app, ?length_app; simpl; lia.
Qed.

(** X24: [joinRoom] checks the balance before it joins.  With a readable
    balance below the room's entry fee it stops with the
    insufficient-balance flag and sends no transaction; with a balance that
    covers the fee, or one that cannot be read, it sends the join. *)
Theorem joinRoom_balance_check env a roomId code logs room log1 balance logs2 :
  getRoomDetails env roomId (fst logs) = (Some room, log1) ->
  readBalance env a (log1, snd logs) = (balance, logs2) ->
  transactions (snd logs2) = transactions (snd logs) /\
  match balance with
  | Some b =>
      if b <? Ledger.entryFee room
      then exists msg,
             joinRoom env a roomId code logs
             = (mkJoinResult false (Some msg) true, logs2)
      else snd (snd (joinRoom env a roomId code logs))
           = (snd logs2 ++ [OpJoinRoom roomId code])%list
  | None =>
      snd (snd (joinRoom env a roomId code logs))
      = (snd logs2 ++ [OpJoinRoom roomId code])%list
  end.
Proof.
  intros Hroom Hbal.
  split.
  { pose proof (readBalance_ops env a (log1, snd logs)) as H.
    rewrite Hbal in H. exact H. }
  destruct (getRoomDetails_some_connected _ _ _ _ _ Hroom) as [g Hg].
  assert (Hsent :
            (match balance with
             | Some b => b <? Ledger.entryFee room
             | None => false
             end) = false ->
            snd (snd (joinRoom env a roomId code logs))
            = (snd logs2 ++ [OpJoinRoom roomId code])%list).
  { intros Hshort. unfold joinRoom. rewrite Hg. unfold bindX at 1.
    rewrite lift_run, Hroom. cbn [fst snd]. unfold bindX at 1.
    rewrite Hbal, Hshort. unfold bindX at 1. unfold op at 1.
    destruct (joinRoomTx a _ roomId code) as [| message].
    - unfold bindX. 
      pose proof (refreshUserRooms_ops env
                    (fst logs2, (snd logs2 ++ [OpJoinRoom roomId code])%list))
        as Hr.
      destruct (refreshUserRooms env
                  (fst logs2, (snd logs2 ++ [OpJoinRoom roomId code])%list))
        as [u logs3].
      exact Hr.
    - reflexivity. }
  destruct balance as [b |]; [| apply Hsent; reflexivity].
  destruct (b <? Ledger.entryFee room) eqn:Hshort; [| apply Hsent; reflexivity].
  eexists. unfold joinRoom. rewrite Hg. unfold bindX at 1.
  rewrite lift_run, Hroom. cbn [fst snd]. unfold bindX.
  rewrite Hbal, Hshort. reflexivity.
Qed.

Lemma joinRoom_balance_check_witness :
  transactions [OpPointsManager; OpBalanceOf Scenario.bob] = transactions [] /\
  exists msg,
    joinRoom Cases.env_bob_filling (Cases.actions_with_balance (Some 20)) 1 ""
      ([], [])
    = (mkJoinResult false (Some msg) true,
       ([CallRooms 1], [OpPointsManager; OpBalanceOf Scenario.bob])).
Proof.
  apply (joinRoom_balance_check Cases.env_bob_filling
           (Cases.actions_with_balance (Some 20)) 1 "" ([], [])
           Scenario.filling_room [CallRooms 1] (Some 20)
           ([CallRooms 1], [OpPointsManager; OpBalanceOf Scenario.bob]));
    vm_compute; reflexivity.
Defined.

(** X25: [handleJoinRoom] sends nothing for a room that is full or
    Completed, nor when the user is its creator or already on its resolved
    roster: in all four cases the log of the remaining operations is left
    as it was (no balance read, no join). *)
Theorem handleJoinRoom_skips_closed_and_own_rooms
        env a roomId code v logs room log1 :
  getRoomDetails env roomId (fst logs) = (Some room, log1) ->
  Ledger.maxPlayers room <= currentPlayers room \/
  status room = Completed \/
  isCreatorOf (currentUser env) room = true \/
  isPlayer (currentUser env) (fst (getPlayersInRoom env roomId log1)) = true ->
  snd (snd (handleJoinRoom env a true roomId code v logs)) = snd logs.
Proof.
  intros Hroom Hskip. unfold handleJoinRoom. cbn [negb]. unfold bindX at 1.
  rewrite lift_run, Hroom. cbn [fst snd].
  destruct (Z.leb_spec (Ledger.maxPlayers room) (currentPlayers room))
    as [Hfull | Hroomy]; [reflexivity |].
  destruct (Z.eqb_spec (status room) 2) as [Hdone | Hopen]; [reflexivity |].
  unfold bindX at 1. rewrite lift_run. cbn [fst snd].
  assert (Hown : isCreatorOf (currentUser env) room
                 || isPlayer (currentUser env)
                      (fst (getPlayersInRoom env roomId log1)) = true).
  { destruct Hskip as [H | [H | [H | H]]];
      [lia | contradiction | rewrite H; reflexivity
      | rewrite H; apply orb_true_r]. }
  rewrite Hown. unfold bindX. rewrite lift_run. reflexivity.
Qed.

Lemma handleJoinRoom_skips_closed_and_own_rooms_witness :
  snd (snd (handleJoinRoom Scenario.env_filling
              (Cases.actions_with_balance (Some 500)) true 1 "" Cases.view0
              ([], []))) = [].
Proof.
  apply (handleJoinRoom_skips_closed_and_own_rooms Scenario.env_filling
           (Cases.actions_with_balance (Some 500)) 1 "" Cases.view0 ([], [])
           Scenario.filling_room [CallRooms 1]).
  - vm_compute. reflexivity.
  - right. right. left. vm_compute. reflexivity.
Defined.

(** X26: [handleCreateRoom] does not reach the ledger with an incomplete
    form: an empty entry fee, player count or game type, a private room
    without invite code, or a player count or expiration time that is not
    a number leave both logs unchanged and the form open. *)
Theorem handleCreateRoom_rejects_incomplete_form env a connected settings v logs :
  formEntryFee settings = "" \/
  formMaxPlayers settings = "" \/
  formGameType settings = "" \/
  (formRoomType settings = "private" /\ formInviteCode settings = "") \/
  JS.parseInt (formMaxPlayers settings) = None \/
  JS.parseInt (formExpirationTime settings) = None ->
  snd (handleCreateRoom env a connected settings v logs) = logs /\
  snd (fst (handleCreateRoom env a connected settings v logs)) = false.
Proof.
  intros Hbad. unfold handleCreateRoom.
  destruct connected; cbn [negb]; [| split; reflexivity].
  destruct (negb (JS.truthy (formEntryFee settings)) ||
            negb (JS.truthy (formMaxPlayers settings)) ||
            negb (JS.truthy (formGameType settings))) eqn:Hempty;
    [split; reflexivity |].
  apply orb_false_iff in Hempty. destruct Hempty as [Hempty Hg].
  apply orb_false_iff in Hempty. destruct Hempty as [Hf Hm].
  apply negb_false_iff in Hf, Hm, Hg.
  destruct (String.eqb (formRoomType settings) "private" &&
            negb (JS.truthy (formInviteCode settings))) eqn:Hpriv;
    [split; reflexivity |].
  assert (Hnum : JS.parseInt (formMaxPlayers settings) = None \/
                 JS.parseInt (formExpirationTime settings) = None).
  { destruct Hbad as [H | [H | [H | [[H1 H2] | H]]]]; auto.
    - rewrite H in Hf. discriminate.
    - rewrite H in Hm. discriminate.
    - rewrite H in Hg. discriminate.
    - rewrite H1, H2 in Hpriv. discriminate. }
  unfold bindX, createRoom.
  destruct (gameRoom env) as [g |]; [| split; reflexivity].
  destruct (bigNumberFrom a (formEntryFee settings)); [| split; reflexivity].
  destruct Hnum as [-> | Hexp]; [split; reflexivity |].
  destruct (JS.parseInt (formMaxPlayers settings)); rewrite ?Hexp;
    split; reflexivity.
Qed.

Lemma handleCreateRoom_rejects_incomplete_form_witness :
  snd (handleCreateRoom Scenario.env_filling
         (Cases.actions_with_balance (Some 500)) true
         (mkRoomSettings "50" "2" "FlappyBird" "private" "" "3600")
         Cases.view0 ([], [])) = ([], []) /\
  snd (fst (handleCreateRoom Scenario.env_filling
              (Cases.actions_with_balance (Some 500)) true
              (mkRoomSettings "50" "2" "FlappyBird" "private" "" "3600")
              Cases.view0 ([], []))) = false.
Proof.
  apply (handleCreateRoom_rejects_incomplete_form Scenario.env_filling
           (Cases.actions_with_balance (Some 500)) true
           (mkRoomSettings "50" "2" "FlappyBird" "private" "" "3600")
           Cases.view0 ([], [])).
  right. right. right. left. split; reflexivity.
Defined.

(** X27: [activateRoom] sends its transaction for a room read as Filling
    only: for a room read in any other status it answers true and sends
    nothing. *)
Theorem activateRoom_skips_rooms_not_filling env a roomId logs room log1 :
  getRoomDetails env roomId (fst logs) = (Some room, log1) ->
  status room <> Filling ->
  activateRoom env a roomId logs = (true, (log1, snd logs)).
Proof.
  intros Hroom Hst. unfold activateRoom.
  destruct (getRoomDetails_some_connected _ _ _ _ _ Hroom) as [g ->].
  unfold bindX. rewrite lift_run, Hroom. cbn [fst snd].
  unfold Filling in Hst.
  destruct (Z.eqb_spec (status room) 0); [contradiction | reflexivity].
Qed.

Lemma activateRoom_skips_rooms_not_filling_witness :
  activateRoom (Scenario.env_active Scenario.alice)
    (Cases.actions_with_balance None) 1 ([], [])
  = (true, ([CallRooms 1], [])).
Proof.
  apply (activateRoom_skips_rooms_not_filling
           (Scenario.env_active Scenario.alice)
           (Cases.actions_with_balance None) 1 ([], [])
           Scenario.active_room [CallRooms 1]).
  - vm_compute. reflexivity.
  - vm_compute. discriminate.
Defined.

(* ------------------------------------------------------------------ *)
(** ** The age text and the order of the room list *)

Lemma digits_prefix_stop s acc : stops s -> JS.digits_prefix s acc = acc.
Proof. destruct s; simpl; [reflexivity | intros ->; reflexivity]. Qed.

Ltac read_digit :=
  cbn [JS.digits_prefix];
  match goal with
  | |- context [JS.is_digit ?c] => change (JS.is_digit c) with true
  end;
  cbv iota;
  match goal with
  | |- context [JS.digit_val ?c] =>
      let v := eval vm_compute in (JS.digit_val c) in
      change (JS.digit_val c) with v
  end.

Lemma digits_prefix_acc d s p :
  JS.digits_prefix (NilEmpty.string_of_uint d ++ s)%string (Some (Z.pos p))
  = JS.digits_prefix s (Some (Z.pos (Pos.of_uint_acc d p))).
Proof.
  revert p.
  induction d; intros p; cbn [NilEmpty.string_of_uint String.append];
    [reflexivity | ..];
    read_digit; cbn [Pos.of_uint_acc]; rewrite <- IHd; do 2 f_equal; lia.
Qed.

Lemma digits_prefix_zero d s :
  JS.digits_prefix (NilEmpty.string_of_uint d ++ s)%string (Some 0)
  = JS.digits_prefix s (Some (Z.of_N (Pos.of_uint d))).
Proof.
  induction d; cbn [NilEmpty.string_of_uint String.append];
    [reflexivity | ..];
    read_digit; cbn [Pos.of_uint Z.mul Z.add];
    [exact IHd | apply digits_prefix_acc ..].
Qed.

Lemma digits_prefix_start d s :
  d <> Nil ->
  JS.digits_prefix (NilEmpty.string_of_uint d ++ s)%string None
  = JS.digits_prefix (NilEmpty.string_of_uint d ++ s)%string (Some 0).
Proof. destruct d; [congruence | reflexivity ..]. Qed.

Lemma parseInt_digits d s :
  d <> Nil ->
  JS.parseInt (NilEmpty.string_of_uint d ++ s)%string
  = JS.digits_prefix (NilEmpty.string_of_uint d ++ s)%string None.
Proof. destruct d; [congruence | reflexivity ..]. Qed.

(** [parseInt] reads back a printed natural number followed by any text
    that does not go on with a digit. *)
Lemma parseInt_string_of_Z n s :
  0 <= n -> stops s -> JS.parseInt (JS.string_of_Z n ++ s)%string = Some n.
Proof.
  intros Hn Hs. unfold JS.string_of_Z.
  destruct n as [| p | p]; [| | lia].
  - change (NilZero.string_of_int (Z.to_int 0))
      with (NilEmpty.string_of_uint (D0 Nil)).
    rewrite parseInt_digits, digits_prefix_start, digits_prefix_zero,
      digits_prefix_stop by (assumption || discriminate).
    reflexivity.
  - cbn [Z.to_int NilZero.string_of_int]. unfold NilZero.string_of_uint.
    pose proof (Unsigned.to_uint_nonnil p) as Hnn.
    destruct (Pos.to_uint p) eqn:E; [congruence | ..];
      rewrite <- E in *;
      rewrite parseInt_digits, digits_prefix_start, digits_prefix_zero,
        digits_prefix_stop, Unsigned.of_to by assumption; reflexivity.
Qed.

(** X28: what the sort of [loadActiveRooms] reads off an age text.  For
    a room less than a minute old (or with a creation time in the future)
    [parseInt] gives [NaN]; otherwise it gives the bare count of minutes,
    hours or days, without its unit. *)
Theorem parseInt_formatTimeAgo now timestamp :
  JS.parseInt (formatTimeAgo now timestamp)
  = let diff := now - timestamp in
    if diff <? 60 then None
    else if diff <? 3600 then Some (diff / 60)
    else if diff <? 86400 then Some (diff / 3600)
    else Some (diff / 86400).
Proof.
  unfold formatTimeAgo. cbv zeta.
  destruct (Z.ltb_spec (now - timestamp) 60) as [H1 | H1]; [reflexivity |].
  destruct (Z.ltb_spec (now - timestamp) 3600) as [H2 | H2];
    [| destruct (Z.ltb_spec (now - timestamp) 86400) as [H3 | H3]];
    apply parseInt_string_of_Z; try reflexivity;
    apply Z.div_pos; lia.
Qed.

Lemma ssorted_app {A} (R : A -> A -> Prop) (l1 l2 : list A) :
  StronglySorted R l1 -> StronglySorted R l2 ->
  (forall a b, In a l1 -> In b l2 -> R a b) ->
  StronglySorted R (l1 ++ l2).
Proof.
  intros H1 H2 H12. induction H1 as [| x l1 Hs IH Hx]; simpl; [exact H2 |].
  constructor.
  - apply IH. intros a b Ha Hb. apply H12; [right; exact Ha | exact Hb].
  - apply Forall_app. split; [exact Hx |].
    apply Forall_forall. intros b Hb. apply H12; [left; reflexivity | exact Hb].
Qed.

Lemma ssorted_app_inv {A} (R : A -> A -> Prop) (l1 l2 : list A) :
  StronglySorted R (l1 ++ l2) ->
  StronglySorted R l1 /\ StronglySorted R l2 /\
  (forall a b, In a l1 -> In b l2 -> R a b).
Proof.
  induction l1 as [| x l1 IH]; simpl; intros H.
  - split; [constructor | split; [exact H | intros a b []]].
  - inversion H as [| ? ? Hs Hx]; subst.
    destruct (IH Hs) as (H1 & H2 & H12).
    apply Forall_app in Hx. destruct Hx as [Hx1 Hx2].
    split; [constructor; assumption | split; [exact H2 |]].
    intros a b [<- | Ha] Hb.
    + rewrite Forall_forall in Hx2. apply Hx2, Hb.
    + apply H12; assumption.
Qed.

(** A run that the scan accepted as not descending. *)
Lemma run_end_ascending {A} (key : A -> Z) (cmp : A -> A -> Z) (prev : A)
      (l : list A) :
  (forall x y, In x (prev :: l) -> In y (prev :: l) -> cmp x y = key y - key x) ->
  StronglySorted (fun a b => key b <= key a)
                 (prev :: fst (JS.run_end cmp false prev l)).
Proof.
  revert prev. induction l as [| cur l IH]; intros prev Hcmp; simpl.
  - repeat constructor.
  - destruct (Z.leb_spec 0 (cmp cur prev)) as [Hord | _];
      [| repeat constructor].
    assert (IH' := IH cur).
    destruct (JS.run_end cmp false cur l) as [run rest]. cbn [fst] in *.
    assert (Hs : StronglySorted (fun a b => key b <= key a) (cur :: run)).
    { apply IH'. intros x y Hx Hy. apply Hcmp; right; assumption. }
    rewrite (Hcmp cur prev) in Hord by (simpl; auto).
    constructor; [exact Hs |].
    inversion Hs as [| ? ? _ Hall]; subst.
    constructor; [lia |].
    rewrite Forall_forall in *. intros z Hz. specialize (Hall z Hz).
    cbv beta in *. lia.
Qed.

(** A strictly descending run, as the scan accepted it. *)
Lemma run_end_descending {A} (key : A -> Z) (cmp : A -> A -> Z) (prev : A)
      (l : list A) :
  (forall x y, In x (prev :: l) -> In y (prev :: l) -> cmp x y = key y - key x) ->
  StronglySorted (fun a b => key a < key b)
                 (prev :: fst (JS.run_end cmp true prev l)).
Proof.
  revert prev. induction l as [| cur l IH]; intros prev Hcmp; simpl.
  - repeat constructor.
  - destruct (Z.ltb_spec (cmp cur prev) 0) as [Hord | _];
      [| repeat constructor].
    assert (IH' := IH cur).
    destruct (JS.run_end cmp true cur l) as [run rest]. cbn [fst] in *.
    assert (Hs : StronglySorted (fun a b => key a < key b) (cur :: run)).
    { apply IH'. intros x y Hx Hy. apply Hcmp; right; assumption. }
    rewrite (Hcmp cur prev) in Hord by (simpl; auto).
    constructor; [exact Hs |].
    inversion Hs as [| ? ? _ Hall]; subst.
    constructor; [lia |].
    rewrite Forall_forall in *. intros z Hz. specialize (Hall z Hz).
    cbv beta in *. lia.
Qed.

Lemma rev_increasing_sorted {A} (key : A -> Z) (l : list A) :
  StronglySorted (fun a b => key a < key b) l ->
  StronglySorted (fun a b => key b <= key a) (List.rev l).
Proof.
  induction 1 as [| x l Hs IH Hx]; simpl; [constructor |].
  apply ssorted_app; [exact IH | repeat constructor |].
  intros a b Ha [<- | []]. apply in_rev in Ha.
  rewrite Forall_forall in Hx. specialize (Hx a Ha). cbv beta in *. lia.
Qed.

Lemma count_and_make_run_sorted {A} (key : A -> Z) (cmp : A -> A -> Z)
      (l : list A) :
  (forall x y, In x l -> In y l -> cmp x y = key y - key x) ->
  StronglySorted (fun a b => key b <= key a)
                 (fst (JS.count_and_make_run cmp l)).
Proof.
  intros Hcmp. unfold JS.count_and_make_run.
  destruct l as [| x0 [| x1 l]]; cbn [fst]; try (repeat constructor).
  pose proof (run_end_ascending key cmp x1 l) as Hasc.
  pose proof (run_end_descending key cmp x1 l) as Hdesc.
  assert (Hcmp1 : forall x y, In x (x1 :: l) -> In y (x1 :: l) ->
                              cmp x y = key y - key x).
  { intros x y Hx Hy. apply Hcmp; right; assumption. }
  assert (H10 : cmp x1 x0 = key x0 - key x1) by (apply Hcmp; simpl; auto).
  destruct (Z.ltb_spec (cmp x1 x0) 0) as [Hd | Ha].
  - specialize (Hdesc Hcmp1).
    destruct (JS.run_end cmp true x1 l) as [run rest]. cbn [fst] in *.
    apply rev_increasing_sorted.
    constructor; [exact Hdesc |].
    inversion Hdesc as [| ? ? _ Hall]; subst.
    constructor; [lia |].
    rewrite Forall_forall in *. intros z Hz. specialize (Hall z Hz).
    cbv beta in *. lia.
  - specialize (Hasc Hcmp1).
    destruct (JS.run_end cmp false x1 l) as [run rest]. cbn [fst] in *.
    constructor; [exact Hasc |].
    inversion Hasc as [| ? ? _ Hall]; subst.
    constructor; [lia |].
    rewrite Forall_forall in *. intros z Hz. specialize (Hall z Hz).
    cbv beta in *. lia.
Qed.

(** In a sorted list the elements up to a position are not below the one
    found there, and those from it on are not above. *)
Lemma sorted_around {A} (key : A -> Z) (a : list A) (i : nat) (y : A) :
  StronglySorted (fun a b => key b <= key a) a -> nth_error a i = Some y ->
  Forall (fun z => key y <= key z) (firstn (S i) a) /\
  Forall (fun z => key z <= key y) (skipn i a).
Proof.
  intros Hs Hn.
  destruct (nth_error_split a i Hn) as (l1 & l2 & -> & Hlen).
  apply ssorted_app_inv in Hs. destruct Hs as (_ & Hs2 & H12).
  inversion Hs2 as [| ? ? _ Hall]; subst.
  split.
  - replace (S (List.length l1)) with (List.length l1 + 1)%nat by lia.
    rewrite firstn_app_2. simpl.
    apply Forall_app. split.
    + apply Forall_forall. intros z Hz. apply (H12 z y Hz). left; reflexivity.
    + repeat constructor. lia.
  - rewrite skipn_app, skipn_all, Nat.sub_diag. simpl.
    constructor; [lia | exact Hall].
Qed.

(** The binary search ends between the elements the pivot is not above
    and those it is above. *)
Lemma binary_search_spec {A} (key : A -> Z) (cmp : A -> A -> Z) (pivot : A)
      (a : list A) :
  StronglySorted (fun a b => key b <= key a) a ->
  (forall y, In y a -> cmp pivot y = key y - key pivot) ->
  forall fuel left right,
    (left <= right <= List.length a)%nat -> (right - left <= fuel)%nat ->
    Forall (fun y => key pivot <= key y) (firstn left a) ->
    Forall (fun y => key y < key pivot) (skipn right a) ->
    Forall (fun y => key pivot <= key y)
           (firstn (JS.binary_search fuel cmp pivot a left right) a) /\
    Forall (fun y => key y < key pivot)
           (skipn (JS.binary_search fuel cmp pivot a left right) a).
Proof.
  intros Hs Hcmp.
  induction fuel as [| fuel IH]; intros left right Hlr Hfuel HP HQ;
    cbn [JS.binary_search].
  - replace left with right at 2 by lia. split; assumption.
  - destruct (Nat.ltb_spec left right) as [Hlt | Hge].
    2:{ replace left with right at 2 by lia. split; assumption. }
    set (mid := (left + (right - left) / 2)%nat).
    assert (Hhalf : ((right - left) / 2 < right - left)%nat)
      by (apply Nat.div_lt; lia).
    assert (Hmid : (left <= mid < right)%nat) by (unfold mid; lia).
    destruct (nth_error a mid) as [y |] eqn:Hn.
    2:{ apply nth_error_None in Hn. lia. }
    destruct (sorted_around key a mid y Hs Hn) as [Hbefore Hafter].
    assert (Hy : cmp pivot y = key y - key pivot)
      by (apply Hcmp; eapply nth_error_In; exact Hn).
    destruct (Z.ltb_spec (cmp pivot y) 0) as [Hc | Hc].
    + apply IH; [lia | lia | exact HP |].
      eapply Forall_impl; [| exact Hafter]. simpl. intros z Hz. lia.
    + apply IH; [lia | lia | | exact HQ].
      eapply Forall_impl; [| exact Hbefore]. simpl. intros z Hz. lia.
Qed.

Lemma binary_insert_sorted {A} (key : A -> Z) (cmp : A -> A -> Z)
      (a : list A) (pivot : A) :
  StronglySorted (fun a b => key b <= key a) a ->
  (forall y, In y a -> cmp pivot y = key y - key pivot) ->
  StronglySorted (fun a b => key b <= key a) (JS.binary_insert cmp a pivot).
Proof.
  intros Hs Hcmp. unfold JS.binary_insert.
  destruct (binary_search_spec key cmp pivot a Hs Hcmp (List.length a) 0
              (List.length a)) as [HP HQ].
  - lia.
  - lia.
  - constructor.
  - rewrite skipn_all. constructor.
  - set (pos := JS.binary_search _ _ _ _ _ _) in *.
    rewrite <- (firstn_skipn pos a) in Hs.
    apply ssorted_app_inv in Hs. destruct Hs as (H1 & H2 & _).
    rewrite Forall_forall in HP, HQ.
    apply ssorted_app; [exact H1 | |].
    + constructor; [exact H2 |].
      apply Forall_forall. intros z Hz. specialize (HQ z Hz). lia.
    + intros x y Hx [<- | Hy].
      * apply HP, Hx.
      * specialize (HP x Hx). specialize (HQ y Hy). lia.
Qed.

Lemma fold_binary_insert_sorted {A} (key : A -> Z) (cmp : A -> A -> Z)
      (rest run : list A) :
  (forall x y, In x (run ++ rest) -> In y (run ++ rest) ->
               cmp x y = key y - key x) ->
  StronglySorted (fun a b => key b <= key a) run ->
  StronglySorted (fun a b => key b <= key a)
                 (fold_left (JS.binary_insert cmp) rest run).
Proof.
  revert run. induction rest as [| p rest IH]; intros run Hcmp Hs; simpl.
  - exact Hs.
  - assert (Hin : forall x, In x (JS.binary_insert cmp run p ++ rest) ->
                            In x (run ++ p :: rest)).
    { intros x Hx. apply in_app_or in Hx. apply in_or_app.
      destruct Hx as [Hx | Hx]; [| right; right; exact Hx].
      apply (Permutation_in _ (binary_insert_perm cmp run p)) in Hx.
      destruct Hx as [<- | Hx]; [right; left; reflexivity | left; exact Hx]. }
    apply IH.
    + intros x y Hx Hy. apply Hcmp; apply Hin; assumption.
    + apply binary_insert_sorted; [exact Hs |].
      intros y Hy. apply Hcmp; apply in_or_app;
        [right; left; reflexivity | left; exact Hy].
Qed.

(** With a comparator that is the difference of two keys the sort orders
    the list by that key, largest first. *)
Lemma sort_sorted {A} (key : A -> Z) (cmp : A -> A -> Z) (l : list A) :
  (forall x y, In x l -> In y l -> cmp x y = key y - key x) ->
  StronglySorted (fun a b => key b <= key a) (JS.sort cmp l).
Proof.
  intros Hcmp. unfold JS.sort.
  pose proof (count_and_make_run_perm cmp l) as Hperm.
  pose proof (count_and_make_run_sorted key cmp l Hcmp) as Hrun.
  destruct (JS.count_and_make_run cmp l) as [run rest]. cbn [fst snd] in *.
  apply fold_binary_insert_sorted; [| exact Hrun].
  intros x y Hx Hy.
  apply Hcmp; eapply Permutation_in; try exact Hperm; assumption.
Qed.

(** X29: when every listed room shows a number in its age text (none is
    "just now"), the list of [loadActiveRooms] is ordered by that number,
    largest first, units ignored: "10 min ago" comes before "5 min ago",
    and "5 min ago" before "2 hours ago". *)
Theorem loadActiveRooms_orders_by_shown_number env now log :
  Forall (fun s => JS.parseInt (time s) <> None)
         (fst (loadActiveRooms env now log)) ->
  StronglySorted (fun a b => shownAge b <= shownAge a)
                 (fst (loadActiveRooms env now log)).
Proof.
  unfold loadActiveRooms, bind.
  destruct (loadBatches env now (List.length roomIds) 0 [] log)
    as [fillingRooms log1].
  cbn [fst ret]. intros Hnum. apply sort_sorted.
  intros x y Hx Hy.
  rewrite Forall_forall in Hnum.
  pose proof (Hnum x (Permutation_in _ (Permutation_sym (sort_perm byTime _)) Hx))
    as Hnx.
  pose proof (Hnum y (Permutation_in _ (Permutation_sym (sort_perm byTime _)) Hy))
    as Hny.
  unfold byTime, shownAge.
  destruct (JS.parseInt (time x)); [| congruence].
  destruct (JS.parseInt (time y)); [| congruence].
  reflexivity.
Qed.

Lemma loadActiveRooms_orders_by_shown_number_witness :
  StronglySorted (fun a b => shownAge b <= shownAge a)
    [mkSummary 1 "FLAPPY BIRD" 50 "1/2" "10 min ago" "PUBLIC";
     mkSummary 2 "FLAPPY BIRD" 50 "1/2" "5 min ago" "PUBLIC"].
Proof.
  pose proof (loadActiveRooms_orders_by_shown_number Scenario.env_two_rooms
                Scenario.now []) as H.
  assert (E : fst (loadActiveRooms Scenario.env_two_rooms Scenario.now [])
              = [mkSummary 1 "FLAPPY BIRD" 50 "1/2" "10 min ago" "PUBLIC";
                 mkSummary 2 "FLAPPY BIRD" 50 "1/2" "5 min ago" "PUBLIC"])
    by (vm_compute; reflexivity).
  rewrite E in H. apply H.
  repeat constructor; vm_compute; discriminate.
Defined.
